(** * Chunked text reversal over TCP: client and server

    A shallow embedding of [reversetcpclient.py] and [reversetcpserver.py]:
    the framing codec of both programs, the client's splitting loop and
    orchestration ([main]), the server's per-connection worker
    ([handle_client]) and the dispatcher's thread registration.

    Python values are modelled as follows.
    - [bytes] objects are lists of [byte].
    - [str] objects are lists of code points (numbers in [N]); the [ascii]
      codec is the one place where code points and bytes meet.
    - Exceptions are the [Raise] case of [result].
    - A socket is seen from one endpoint: the segments (or errors) that the
      successive [recv] calls will meet, the outcome of the successive send
      calls, and the log of the buffers handed to [send]/[sendall].
    - [random.randint] consumes a stream of raw draws.
    - The three [while] loops take fuel and return [None] when it runs
      out; [split_total], [recv_reversed_data_total], [recv_text_data_total]
      and the theorems on [main] and [handle_client] show that it never
      does.
    Timestamps, timeouts as durations, the half-second sleep and the log
    lines ([print]) are not modelled.

    Two limits of the model bear on how its theorems are to be read.
    - Every [recv] returns: a script that is exhausted is a peer that has
      closed.  The client's socket has a timeout, so there every call does
      return or raise; the socket the server accepts has none, and a
      [recv] on a peer that stays silent blocks for ever.  Such a worker
      has no counterpart here, and what is proved of a session or of
      [handle_client] is proved of one that is left.
    - [Client.main] takes the input file as missing or as the text read.
      [main_reading] adds the file that exists and cannot be read. *)

From Stdlib Require Import NArith ZArith Lia Bool.
From Stdlib Require Import Strings.Byte Strings.String Strings.Ascii.
From stdpp Require Import base list.

Local Open Scope nat_scope.

(** ** Python values and exceptions *)

Definition bytes := list byte.
Definition str := list N.

Inductive exn : Type :=
  | struct_error
  | TypeError
  | IndexError
  | UnicodeDecodeError
  | UnicodeEncodeError
  | socket_timeout
  | ConnectionRefusedError
  | OSError.

Inductive result (A : Type) : Type :=
  | Ok (a : A)
  | Raise (e : exn).
Arguments Ok {A} a.
Arguments Raise {A} e.

Definition bind {A B} (m : result A) (k : A -> result B) : result B :=
  match m with
  | Ok a => k a
  | Raise e => Raise e
  end.

Notation "'let?' x ':=' m 'in' k" := (bind m (fun x => k))
  (at level 10, x pattern, m at level 100, k at level 200).

(** The dynamically typed second argument of [create_packet] and second
    component of what [parse_packet] returns. *)
Inductive value : Type :=
  | VNone
  | VInt (n : N)
  | VBytes (b : bytes)
  | VStr (s : str).

(** ** [struct.pack] / [struct.unpack], network byte order *)

Module Struct.

Definition byte_of_N (n : N) : byte :=
  match Byte.of_N (n mod 256) with
  | Some b => b
  | None => "000"%byte
  end.

(** [struct.pack('!H', v)]: raises [struct.error] outside [0, 65535]. *)
Definition pack_H (v : N) : result bytes :=
  if (v <? 65536)%N
  then Ok [byte_of_N (v / 256); byte_of_N v]
  else Raise struct_error.

(** [struct.pack('!I', v)]: raises [struct.error] outside [0, 2^32-1]. *)
Definition pack_I (v : N) : result bytes :=
  if (v <? 4294967296)%N
  then Ok [byte_of_N (v / 16777216); byte_of_N (v / 65536);
           byte_of_N (v / 256); byte_of_N v]
  else Raise struct_error.

(** [struct.pack('!HI', h, i)]: no padding in network byte order. *)
Definition pack_HI (h i : N) : result bytes :=
  let? hb := pack_H h in
  let? ib := pack_I i in
  Ok (hb ++ ib).

(** [struct.unpack('!H', b)[0]]: the buffer must hold exactly 2 bytes. *)
Definition unpack_H (b : bytes) : result N :=
  match b with
  | [b1; b0] => Ok (Byte.to_N b1 * 256 + Byte.to_N b0)%N
  | _ => Raise struct_error
  end.

(** [struct.unpack('!I', b)[0]]: the buffer must hold exactly 4 bytes. *)
Definition unpack_I (b : bytes) : result N :=
  match b with
  | [b3; b2; b1; b0] =>
      Ok (Byte.to_N b3 * 16777216 + Byte.to_N b2 * 65536
          + Byte.to_N b1 * 256 + Byte.to_N b0)%N
  | _ => Raise struct_error
  end.

End Struct.

(** ** The [ascii] codec of [str.encode] and [bytes.decode] *)

Module Ascii7.

Definition is_ascii (c : N) : bool := (c <? 128)%N.

(** [s.encode('ascii')] *)
Definition encode (s : str) : result bytes :=
  if forallb is_ascii s
  then Ok (map Struct.byte_of_N s)
  else Raise UnicodeEncodeError.

(** [b.decode('ascii')] *)
Definition decode (b : bytes) : result str :=
  if forallb (fun x => is_ascii (Byte.to_N x)) b
  then Ok (map Byte.to_N b)
  else Raise UnicodeDecodeError.

End Ascii7.

(** Python slice [data[i:j]] with [0 <= i], [0 <= j]. *)
Definition slice {A} (l : list A) (i j : nat) : list A := take (j - i) (drop i l).

(** A [str] literal. *)
Definition str_of_string (s : string) : str :=
  map N_of_ascii (list_ascii_of_string s).

(** ** Packet types (both programs define the same four constants) *)

Definition INITIALIZATION : N := 1.
Definition AGREE : N := 2.
Definition REVERSE_REQUEST : N := 3.
Definition REVERSE_ANSWER : N := 4.

(** [packet_type == c], where [packet_type] may be [None]. *)
Definition is_type (packet_type : option N) (c : N) : bool :=
  match packet_type with
  | Some t => (t =? c)%N
  | None => false
  end.

(** ** Sockets, seen from one endpoint *)

Module Net.

(** What a blocking [recv] can meet: bytes that have arrived, or an error
    ([socket.timeout], a reset).  An exhausted script is a peer that has
    closed the connection. *)
Inductive rx_event : Type :=
  | Seg (b : bytes)
  | RxRaise (e : exn).

Record socket : Type := {
  rx : list rx_event;
  tx : list (option exn);
  sent : list bytes;
  closed : bool
}.

Definition set_rx (r : list rx_event) (s : socket) : socket :=
  {| rx := r; tx := tx s; sent := sent s; closed := closed s |}.

(** [sock.recv(bufsize)]: at most [bufsize] bytes of what has arrived;
    [b''] when the peer has closed. *)
Definition recv (bufsize : nat) (s : socket) : result bytes * socket :=
  match rx s with
  | [] => (Ok [], s)
  | RxRaise e :: r => (Raise e, set_rx r s)
  | Seg b :: r =>
      if length b <=? bufsize then (Ok b, set_rx r s)
      else (Ok (take bufsize b), set_rx (Seg (drop bufsize b) :: r) s)
  end.

(** [sock.send(data)] and [sock.sendall(data)]: the next entry of [tx]
    decides whether the call raises (an exhausted [tx] accepts); an
    accepted buffer is logged whole, a [send] that the kernel would cut
    short is not told apart.  [data] is [None] when [create_packet]
    returned [None]. *)
Definition send (data : option bytes) (s : socket) : result unit * socket :=
  match data with
  | None => (Raise TypeError, s)
  | Some b =>
      match tx s with
      | Some e :: t =>
          (Raise e, {| rx := rx s; tx := t; sent := sent s; closed := closed s |})
      | None :: t =>
          (Ok tt, {| rx := rx s; tx := t; sent := sent s ++ [b]; closed := closed s |})
      | [] =>
          (Ok tt, {| rx := rx s; tx := []; sent := sent s ++ [b]; closed := closed s |})
      end
  end.

Definition sendall := send.

(** [sock.close()] *)
Definition close (s : socket) : socket :=
  {| rx := rx s; tx := tx s; sent := sent s; closed := true |}.

(** A freshly connected socket whose peer will deliver [r]. *)
Definition fresh (r : list rx_event) (t : list (option exn)) : socket :=
  {| rx := r; tx := t; sent := []; closed := false |}.

End Net.

(** Control flow of a loop body. *)
Inductive control : Type :=
  | Continue
  | Break.

(** ** [random.randint] *)

(** [random.randint(a, b)] for [a <= b] is [a + randbelow(b - a + 1)];
    [raw] is the generator's raw draw. *)
Definition randint (a b raw : nat) : nat := a + raw mod (b - a + 1).

(** ** The client *)

Module Client.

(** [create_packet(packet_type, data=None)]; [Ok None] is Python's
    [None], returned for the packet types the client does not build. *)
Definition create_packet (packet_type : N) (data : value) : result (option bytes) :=
  if (packet_type =? INITIALIZATION)%N then
    match data with
    | VInt n => let? p := Struct.pack_HI INITIALIZATION n in Ok (Some p)
    | _ => Raise struct_error
    end
  else if (packet_type =? REVERSE_REQUEST)%N then
    match data with
    | VBytes b =>
        let? p := Struct.pack_HI REVERSE_REQUEST (N.of_nat (length b)) in
        Ok (Some (p ++ b))
    | _ => Raise TypeError
    end
  else Ok None.

(** [parse_packet(data)]: the pair [(None, None)] is [(None, VNone)]. *)
Definition parse_packet (data : bytes) : result (option N * value) :=
  if length data <? 2 then Ok (None, VNone)
  else
    let? packet_type := Struct.unpack_H (slice data 0 2) in
    if (packet_type =? AGREE)%N then Ok (Some packet_type, VNone)
    else if (packet_type =? REVERSE_ANSWER)%N && (6 <=? length data) then
      let? len := Struct.unpack_I (slice data 2 6) in
      if (6 + len <=? N.of_nat (length data))%N then
        let? reversed_text := Ascii7.decode (slice data 6 (6 + N.to_nat len)) in
        Ok (Some packet_type, VStr reversed_text)
      else Ok (None, VNone)
    else Ok (None, VNone).

(** *** Splitting the text (step 3 of [main]) *)

(** The [while start_index < total_length] loop.  [draws k] is the raw
    draw behind the [k]-th call of [random.randint]; [None] means the
    fuel ran out. *)
Fixpoint split_loop (fuel : nat) (draws : nat -> nat) (k : nat) (content : str)
    (Lmin Lmax : nat) (start_index : nat) (blocks : list str) : option (list str) :=
  let total_length := length content in
  if start_index <? total_length then
    match fuel with
    | 0 => None
    | S fuel' =>
        let block_size := randint Lmin Lmax (draws k) in
        let end_index := Nat.min (start_index + block_size) total_length in
        let block := slice content start_index end_index in
        split_loop fuel' draws (S k) content Lmin Lmax end_index (blocks ++ [block])
    end
  else Some blocks.

Definition split (draws : nat -> nat) (content : str) (Lmin Lmax : nat) : option (list str) :=
  split_loop (length content) draws 0 content Lmin Lmax 0 [].

(** *** One request/answer exchange (step 7 of [main]) *)

(** The [while len(reversed_data) < length] loop. *)
Fixpoint recv_reversed_data (fuel : nat) (length_ : nat) (reversed_data : bytes)
    (s : Net.socket) : option (result bytes * Net.socket) :=
  if length reversed_data <? length_ then
    match fuel with
    | 0 => None
    | S fuel' =>
        match Net.recv (length_ - length reversed_data) s with
        | (Raise e, s1) => Some (Raise e, s1)
        | (Ok [], s1) => Some (Ok reversed_data, s1)
        | (Ok chunk, s1) => recv_reversed_data fuel' length_ (reversed_data ++ chunk) s1
        end
    end
  else Some (Ok reversed_data, s).

(** [reversed_blocks[i] = v] *)
Definition setitem (l : list value) (i : nat) (v : value) : result (list value) :=
  if i <? length l then Ok (<[i:=v]> l) else Raise IndexError.

(** The body of [for i, block in enumerate(blocks)]: every handler of
    the body ends in [break]. *)
Definition exchange (i : nat) (block : str) (reversed_blocks : list value)
    (s : Net.socket) : option (control * list value * Net.socket) :=
  match (let? payload := Ascii7.encode block in
         create_packet REVERSE_REQUEST (VBytes payload)) with
  | Raise _ => Some (Break, reversed_blocks, s)
  | Ok request_data =>
  match Net.sendall request_data s with
  | (Raise _, s1) => Some (Break, reversed_blocks, s1)
  | (Ok _, s1) =>
  match Net.recv 6 s1 with
  | (Raise _, s2) => Some (Break, reversed_blocks, s2)
  | (Ok header, s2) =>
  if length header <? 6 then Some (Break, reversed_blocks, s2) else
  match Struct.unpack_I (slice header 2 6) with
  | Raise _ => Some (Break, reversed_blocks, s2)
  | Ok len =>
  let length_ := N.to_nat len in
  match recv_reversed_data length_ length_ [] s2 with
  | None => None
  | Some (Raise _, s3) => Some (Break, reversed_blocks, s3)
  | Some (Ok reversed_data, s3) =>
  if length reversed_data <? length_ then Some (Break, reversed_blocks, s3) else
  match parse_packet (header ++ reversed_data) with
  | Raise _ => Some (Break, reversed_blocks, s3)
  | Ok (packet_type, reversed_text) =>
  if negb (is_type packet_type REVERSE_ANSWER) then Some (Break, reversed_blocks, s3) else
  match setitem reversed_blocks i reversed_text with
  | Raise _ => Some (Break, reversed_blocks, s3)
  | Ok reversed_blocks' => Some (Continue, reversed_blocks', s3)
  end end end end end end end.

(** The [for] loop itself.  The [control] returned tells how the loop was
    left: [Break] by a [break], [Continue] by running out of blocks. *)
Fixpoint chunk_loop (i : nat) (blocks : list str) (reversed_blocks : list value)
    (s : Net.socket) : option (control * list value * Net.socket) :=
  match blocks with
  | [] => Some (Continue, reversed_blocks, s)
  | block :: rest =>
      match exchange i block reversed_blocks s with
      | None => None
      | Some (Break, reversed_blocks', s') => Some (Break, reversed_blocks', s')
      | Some (Continue, reversed_blocks', s') => chunk_loop (S i) rest reversed_blocks' s'
      end
  end.

(** *** [main] *)

Record args : Type := {
  server_port : Z;
  input_file : option str;   (* [None]: the file does not exist; else what [f.read()] returns *)
  Lmin : Z;
  Lmax : Z
}.

(** How [main] ends: [exit(1)], or a return with or without the output
    file having been written. *)
Inductive outcome : Type :=
  | Exit (code : Z)
  | Returned (output_file : option str).

Definition printable (c : N) : bool := (32 <=? c)%N && (c <=? 126)%N.

Definition is_not_None (v : value) : bool :=
  match v with VNone => false | _ => true end.

(** [for block in reversed_blocks: f.write(block)] *)
Fixpoint write_blocks (reversed_blocks : list value) : result str :=
  match reversed_blocks with
  | [] => Ok []
  | VStr t :: rest => let? u := write_blocks rest in Ok (t ++ u)
  | _ :: _ => Raise TypeError
  end.

(** Steps 5 to 8, on a connected socket.  The [Raise] branch of the
    write is the outer [except Exception]; [converse_spec] below shows
    that no run takes it. *)
Definition converse (blocks : list str) (s : Net.socket) : option (outcome * Net.socket) :=
  let n_blocks := length blocks in
  let reversed_blocks := replicate n_blocks VNone in
  match create_packet INITIALIZATION (VInt (N.of_nat n_blocks)) with
  | Raise _ => Some (Returned None, s)
  | Ok init_packet =>
  match Net.sendall init_packet s with
  | (Raise _, s1) => Some (Returned None, s1)
  | (Ok _, s1) =>
  match Net.recv 2 s1 with
  | (Raise _, s2) => Some (Returned None, s2)
  | (Ok data, s2) =>
  if length data <? 2 then Some (Returned None, s2) else
  match parse_packet data with
  | Raise _ => Some (Returned None, s2)
  | Ok (packet_type, _) =>
  if negb (is_type packet_type AGREE) then Some (Returned None, s2) else
  match chunk_loop 0 blocks reversed_blocks s2 with
  | None => None
  | Some (_, reversed_blocks', s3) =>
      if forallb is_not_None reversed_blocks' then
        match write_blocks reversed_blocks' with
        | Ok text => Some (Returned (Some text), s3)
        | Raise _ => Some (Returned None, s3)
        end
      else Some (Returned None, s3)
  end end end end end.

(** [connect_error] is what [client_socket.connect] raises, if anything;
    [s] is the socket once connected.  The [with] statement closes the
    socket on every way out of its block. *)
Definition main (draws : nat -> nat) (a : args) (connect_error : option exn)
    (s : Net.socket) : option (outcome * Net.socket) :=
  if (server_port a <? 1024)%Z || (65535 <? server_port a)%Z then Some (Exit 1, s)
  else if (Lmin a <=? 0)%Z || (Lmax a <=? 0)%Z || (Lmax a <? Lmin a)%Z then Some (Exit 1, s)
  else
    match input_file a with
    | None => Some (Exit 1, s)
    | Some content =>
        if negb (forallb printable content) then Some (Exit 1, s)
        else
          match split draws content (Z.to_nat (Lmin a)) (Z.to_nat (Lmax a)) with
          | None => None
          | Some blocks =>
              match connect_error with
              | Some _ => Some (Returned None, Net.close s)
              | None =>
                  match converse blocks s with
                  | None => None
                  | Some (o, s') => Some (o, Net.close s')
                  end
              end
          end
    end.

End Client.

(** ** The server *)

Module Server.

(** [create_packet(packet_type, data=None)]; [Ok None] is Python's
    [None], returned for the packet types the server does not build. *)
Definition create_packet (packet_type : N) (data : value) : result (option bytes) :=
  if (packet_type =? AGREE)%N then
    let? p := Struct.pack_H AGREE in Ok (Some p)
  else if (packet_type =? REVERSE_ANSWER)%N then
    match data with
    | VBytes b =>
        let? p := Struct.pack_HI REVERSE_ANSWER (N.of_nat (length b)) in
        Ok (Some (p ++ b))
    | _ => Raise TypeError
    end
  else Ok None.

(** [parse_packet(data)]: the pair [(None, None)] is [(None, VNone)]. *)
Definition parse_packet (data : bytes) : result (option N * value) :=
  if length data <? 2 then Ok (None, VNone)
  else
    let? packet_type := Struct.unpack_H (slice data 0 2) in
    if (packet_type =? INITIALIZATION)%N && (6 <=? length data) then
      let? n_blocks := Struct.unpack_I (slice data 2 6) in
      Ok (Some packet_type, VInt n_blocks)
    else if (packet_type =? REVERSE_REQUEST)%N && (6 <=? length data) then
      let? len := Struct.unpack_I (slice data 2 6) in
      if (6 + len <=? N.of_nat (length data))%N then
        let? text := Ascii7.decode (slice data 6 (6 + N.to_nat len)) in
        Ok (Some packet_type, VStr text)
      else Ok (None, VNone)
    else Ok (None, VNone).

(** *** One connection *)

(** The ways out of the [try] block of [handle_client]; each names the
    statement that ends the session. *)
Inductive exit_path : Type :=
  | Completed          (* the [for] loop ran over all [n_blocks] indices *)
  | InitIncomplete     (* [return] at the short initialization read *)
  | InitInvalid        (* [return] at [packet_type != INITIALIZATION] *)
  | ShuttingDown       (* [break] at [not server_running] *)
  | HeaderIncomplete   (* [break] at [len(header) < 6] *)
  | DataIncomplete     (* [break] at [len(text_data) < length] *)
  | InvalidRequest     (* [break] at [packet_type != REVERSE_REQUEST] *)
  | Excepted (e : exn).  (* [except Exception] *)

(** The session states of the protocol. *)
Inductive session_state : Type :=
  | Done
  | Failed.

Definition state_of (p : exit_path) : session_state :=
  match p with
  | Completed => Done
  | _ => Failed
  end.

(** Reading the global [server_running], which the signal handler may
    have cleared in the meantime: [fl] lists what the successive reads
    of this worker see, [True] once it is exhausted. *)
Definition read_flag (fl : list bool) : bool * list bool :=
  match fl with
  | [] => (true, [])
  | b :: fl' => (b, fl')
  end.

(** The [while len(text_data) < length] loop. *)
Fixpoint recv_text_data (fuel : nat) (length_ : nat) (text_data : bytes)
    (fl : list bool) (s : Net.socket) : option (result bytes * list bool * Net.socket) :=
  if length text_data <? length_ then
    match fuel with
    | 0 => None
    | S fuel' =>
        match read_flag fl with
        | (false, fl1) => Some (Ok text_data, fl1, s)
        | (true, fl1) =>
            match Net.recv (length_ - length text_data) s with
            | (Raise e, s1) => Some (Raise e, fl1, s1)
            | (Ok [], s1) => Some (Ok text_data, fl1, s1)
            | (Ok chunk, s1) => recv_text_data fuel' length_ (text_data ++ chunk) fl1 s1
            end
        end
    end
  else Some (Ok text_data, fl, s).

(** [text[::-1].encode('ascii')] *)
Definition reverse_text (text : value) : result bytes :=
  match text with
  | VStr t => Ascii7.encode (rev t)
  | _ => Raise TypeError
  end.

Inductive step : Type :=
  | Next
  | Stop (p : exit_path).

(** The body of [for block_index in range(n_blocks)]. *)
Definition serve_block (fl : list bool) (s : Net.socket)
    : option (step * list bool * Net.socket) :=
  match read_flag fl with
  | (false, fl1) => Some (Stop ShuttingDown, fl1, s)
  | (true, fl1) =>
  match Net.recv 6 s with
  | (Raise e, s1) => Some (Stop (Excepted e), fl1, s1)
  | (Ok header, s1) =>
  if length header <? 6 then Some (Stop HeaderIncomplete, fl1, s1) else
  match Struct.unpack_I (slice header 2 6) with
  | Raise e => Some (Stop (Excepted e), fl1, s1)
  | Ok len =>
  let length_ := N.to_nat len in
  match recv_text_data length_ length_ [] fl1 s1 with
  | None => None
  | Some (Raise e, fl2, s2) => Some (Stop (Excepted e), fl2, s2)
  | Some (Ok text_data, fl2, s2) =>
  if length text_data <? length_ then Some (Stop DataIncomplete, fl2, s2) else
  match parse_packet (header ++ text_data) with
  | Raise e => Some (Stop (Excepted e), fl2, s2)
  | Ok (packet_type, text) =>
  if negb (is_type packet_type REVERSE_REQUEST) then Some (Stop InvalidRequest, fl2, s2) else
  match (let? reversed_text := reverse_text text in
         create_packet REVERSE_ANSWER (VBytes reversed_text)) with
  | Raise e => Some (Stop (Excepted e), fl2, s2)
  | Ok answer =>
  match Net.send answer s2 with
  | (Raise e, s3) => Some (Stop (Excepted e), fl2, s3)
  | (Ok _, s3) => Some (Next, fl2, s3)
  end end end end end end end.

(** The [for] loop; the number returned is the count of blocks answered. *)
Fixpoint serve_blocks (todo : nat) (block_index : nat) (fl : list bool)
    (s : Net.socket) : option (exit_path * nat * list bool * Net.socket) :=
  match todo with
  | 0 => Some (Completed, block_index, fl, s)
  | S todo' =>
      match serve_block fl s with
      | None => None
      | Some (Stop p, fl', s') => Some (p, block_index, fl', s')
      | Some (Next, fl', s') => serve_blocks todo' (S block_index) fl' s'
      end
  end.

(** The [try] block of [handle_client]. *)
Definition session (fl : list bool) (s : Net.socket)
    : option (exit_path * nat * list bool * Net.socket) :=
  match Net.recv 6 s with
  | (Raise e, s1) => Some (Excepted e, 0, fl, s1)
  | (Ok data, s1) =>
  if length data <? 6 then Some (InitIncomplete, 0, fl, s1) else
  match parse_packet data with
  | Raise e => Some (Excepted e, 0, fl, s1)
  | Ok (packet_type, n_blocks) =>
  if negb (is_type packet_type INITIALIZATION) then Some (InitInvalid, 0, fl, s1) else
  match create_packet AGREE VNone with
  | Raise e => Some (Excepted e, 0, fl, s1)
  | Ok agree =>
  match Net.send agree s1 with
  | (Raise e, s2) => Some (Excepted e, 0, fl, s2)
  | (Ok _, s2) =>
  match n_blocks with
  | VInt n => serve_blocks (N.to_nat n) 0 fl s2
  | _ => Some (Excepted TypeError, 0, fl, s2)
  end end end end end.

(** *** The registries shared by the workers and the dispatcher *)

(** Sockets and threads are compared by identity: a number each. *)
Record registry : Type := {
  client_threads : list nat;
  client_connections : list nat
}.

(** [l.remove(x)], used under [if x in l]: the first occurrence goes. *)
Fixpoint list_remove (x : nat) (l : list nat) : list nat :=
  match l with
  | [] => []
  | y :: l' => if x =? y then l' else y :: list_remove x l'
  end.

Definition contains (x : nat) (l : list nat) : bool := existsb (Nat.eqb x) l.

(** [client_connections.append(conn)] *)
Definition enter (conn : nat) (g : registry) : registry :=
  {| client_threads := client_threads g;
     client_connections := client_connections g ++ [conn] |}.

(** The [finally] block: the two conditional removals around
    [conn.close()]. *)
Definition leave (conn thread : nat) (g : registry) : registry :=
  {| client_threads :=
       if contains thread (client_threads g)
       then list_remove thread (client_threads g) else client_threads g;
     client_connections :=
       if contains conn (client_connections g)
       then list_remove conn (client_connections g) else client_connections g |}.

(** [handle_client(conn, addr)] run by thread [thread], without
    interference from other threads. *)
Definition handle_client (conn thread : nat) (fl : list bool) (s : Net.socket)
    (g : registry) : option (exit_path * Net.socket * registry) :=
  let g1 := enter conn g in
  match session fl s with
  | None => None
  | Some (p, _, _, s') => Some (p, Net.close s', leave conn thread g1)
  end.

End Server.

(** ** The dispatcher and one worker, interleaved *)

Module Dispatcher.

(** The accept loop's two statements for one accepted connection:
    [client_thread.start()] and then
    [client_threads.append(client_thread)]. *)
Inductive main_pc : Type :=
  | BeforeStart
  | BeforeAppend
  | Registered.

(** The worker's progress through [handle_client]. *)
Inductive worker_pc : Type :=
  | Unstarted
  | Entering
  | Serving
  | Leaving (p : Server.exit_path)
  | Terminated (p : Server.exit_path).

Record state : Type := {
  registries : Server.registry;
  mpc : main_pc;
  wpc : worker_pc;
  sock : Net.socket;
  flag_reads : list bool
}.

Inductive actor : Type :=
  | Main
  | Worker.

(** One scheduling step; [None] when the chosen thread cannot move. *)
Definition step (conn thread : nat) (a : actor) (st : state) : option state :=
  match a, mpc st, wpc st with
  | Main, BeforeStart, Unstarted =>
      Some {| registries := registries st; mpc := BeforeAppend; wpc := Entering;
              sock := sock st; flag_reads := flag_reads st |}
  | Main, BeforeAppend, w =>
      Some {| registries :=
                {| Server.client_threads :=
                     Server.client_threads (registries st) ++ [thread];
                   Server.client_connections :=
                     Server.client_connections (registries st) |};
              mpc := Registered; wpc := w;
              sock := sock st; flag_reads := flag_reads st |}
  | Worker, m, Entering =>
      Some {| registries := Server.enter conn (registries st); mpc := m;
              wpc := Serving; sock := sock st; flag_reads := flag_reads st |}
  | Worker, m, Serving =>
      match Server.session (flag_reads st) (sock st) with
      | None => None
      | Some (p, _, fl, s) =>
          Some {| registries := registries st; mpc := m; wpc := Leaving p;
                  sock := s; flag_reads := fl |}
      end
  | Worker, m, Leaving p =>
      Some {| registries := Server.leave conn thread (registries st); mpc := m;
              wpc := Terminated p; sock := Net.close (sock st);
              flag_reads := flag_reads st |}
  | _, _, _ => None
  end.

Fixpoint run (conn thread : nat) (schedule : list actor) (st : state) : option state :=
  match schedule with
  | [] => Some st
  | a :: rest =>
      match step conn thread a st with
      | None => None
      | Some st' => run conn thread rest st'
      end
  end.

(** The state right after [accept] returned the connection. *)
Definition accepted (g : Server.registry) (fl : list bool) (s : Net.socket) : state :=
  {| registries := g; mpc := BeforeStart; wpc := Unstarted; sock := s; flag_reads := fl |}.

End Dispatcher.

(** ** The wire format *)

(** The byte layout of the four messages, big-endian throughout: what the
    two [create_packet] functions produce when they succeed. *)
Module Wire.

Definition be16 (v : N) : bytes :=
  [Struct.byte_of_N (v / 256); Struct.byte_of_N v].

Definition be32 (v : N) : bytes :=
  [Struct.byte_of_N (v / 16777216); Struct.byte_of_N (v / 65536);
   Struct.byte_of_N (v / 256); Struct.byte_of_N v].

Definition frame (tag len : N) (body : bytes) : bytes := be16 tag ++ be32 len ++ body.

Definition Init (n : N) : bytes := frame INITIALIZATION n [].
Definition Agree : bytes := be16 AGREE.
Definition Request (payload : bytes) : bytes :=
  frame REVERSE_REQUEST (N.of_nat (length payload)) payload.
Definition Answer (payload : bytes) : bytes :=
  frame REVERSE_ANSWER (N.of_nat (length payload)) payload.

(** A byte sequence either program can put on the wire as one message. *)
Definition encoded (p : bytes) : Prop :=
  exists packet_type data,
    Client.create_packet packet_type data = Ok (Some p)
    \/ Server.create_packet packet_type data = Ok (Some p).

End Wire.

(** A buffer whose first two bytes are the tag of a Request. *)
Definition is_request (p : bytes) : bool :=
  match Struct.unpack_H (take 2 p) with
  | Ok t => (t =? REVERSE_REQUEST)%N
  | Raise _ => false
  end.

(** [segs] is a way for the message [msg] to arrive: in non-empty
    segments, the first of which holds at least the six-byte header. *)
Definition fragments (msg : bytes) (segs : list bytes) : Prop :=
  concat segs = msg
  /\ Forall (fun b : bytes => b <> []) segs
  /\ 6 <= length (hd [] segs).

(** A payload the protocol can carry: ASCII, with a length that fits the
    length field. *)
Definition carriable (payload : bytes) : Prop :=
  forallb (fun x => Ascii7.is_ascii (Byte.to_N x)) payload = true
  /\ (N.of_nat (length payload) < 4294967296)%N.

(** Arguments that pass the checks at the head of [main], with the text
    read from the input file. *)
Definition valid_args (a : Client.args) (content : str) : Prop :=
  (1024 <= Client.server_port a <= 65535)%Z
  /\ (0 < Client.Lmin a <= Client.Lmax a)%Z
  /\ Client.input_file a = Some content
  /\ forallb Client.printable content = true.

(** A block the client can send: ASCII, with a length that fits the
    length field. *)
Definition sendable (block : str) : Prop :=
  forallb Ascii7.is_ascii block = true /\ (N.of_nat (length block) < 4294967296)%N.

(** The handshake of a run with [n_blocks] blocks goes through on the
    socket [s]: the block count fits the count field, the first send is
    accepted, and the first two bytes the socket delivers are an Agree. *)
Definition handshake_completes (n_blocks : nat) (s : Net.socket) : Prop :=
  (N.of_nat n_blocks < 4294967296)%N
  /\ hd None (Net.tx s) = None
  /\ fst (Net.recv 2 s) = Ok Wire.Agree.

(** ** The decoder as the specification words it *)

(** Section 4.1 of the specification describes a decoder with three kinds
    of result.  [Spec.decode] follows those words; it is compared with the
    two [parse_packet] functions below. *)
Module Spec.

Inductive message : Type :=
  | Init (blockCount : N)
  | Agree
  | Request (payload : bytes)
  | Answer (payload : bytes).

Inductive decoded : Type :=
  | Message (m : message)
  | NeedMoreData
  | Invalid.

Definition decode (data : bytes) : decoded :=
  match data with
  | t1 :: t0 :: rest =>
      let tag := (Byte.to_N t1 * 256 + Byte.to_N t0)%N in
      if (tag =? AGREE)%N then Message Agree
      else if (tag =? INITIALIZATION)%N || (tag =? REVERSE_REQUEST)%N
              || (tag =? REVERSE_ANSWER)%N then
        match Struct.unpack_I (take 4 rest) with
        | Raise _ => NeedMoreData
        | Ok len =>
            if (tag =? INITIALIZATION)%N then Message (Init len)
            else if (N.of_nat (length rest) <? 4 + len)%N then NeedMoreData
            else if (tag =? REVERSE_REQUEST)%N
                 then Message (Request (take (N.to_nat len) (drop 4 rest)))
                 else Message (Answer (take (N.to_nat len) (drop 4 rest)))
        end
      else Invalid
  | _ => NeedMoreData
  end.

End Spec.

(** The bytes a script delivers, in order, whatever their segmentation;
    an error delivers none. *)
Fixpoint byte_stream (r : list Net.rx_event) : bytes :=
  match r with
  | [] => []
  | Net.Seg b :: r' => b ++ byte_stream r'
  | Net.RxRaise _ :: r' => byte_stream r'
  end.

(** The Request the client builds for a block. *)
Definition request_of (block : str) : bytes := Wire.Request (map Struct.byte_of_N block).

(** The Answer the server builds for the payload of a Request. *)
Definition answer_to (payload : bytes) : bytes := Wire.Answer (rev payload).

(** What is left of a script once the first bytes of its head segment
    have been read and [b] remains of that segment. *)
Definition pending (b : bytes) (r : list Net.rx_event) : list Net.rx_event :=
  match b with
  | [] => r
  | _ :: _ => Net.Seg b :: r
  end.

(** The server's socket when the client's Init and its Requests for
    [blocks] arrive, one segment per [sendall]. *)
Definition served (blocks : list str) : Net.socket :=
  Net.fresh
    (map Net.Seg (Wire.Init (N.of_nat (length blocks)) :: map request_of blocks)) [].

(** The client's socket when what the server [srv] has sent arrives, one
    segment per [send]. *)
Definition answered (srv : Net.socket) : Net.socket :=
  Net.fresh (map Net.Seg (Net.sent srv)) [].

(** The same command line with another input file, holding [text]. *)
Definition with_input (a : Client.args) (text : str) : Client.args :=
  {| Client.server_port := Client.server_port a; Client.input_file := Some text;
     Client.Lmin := Client.Lmin a; Client.Lmax := Client.Lmax a |}.

(** ** Concrete inputs used in the examples below *)

Module Scenario.

Definition hello_world : str := str_of_string "hello world".

(** The bytes of an ASCII literal. *)
Definition ascii_bytes (t : string) : bytes := map Struct.byte_of_N (str_of_string t).

(** A [Request] carrying [b"hello"], cut after two payload bytes. *)
Definition truncated_request : bytes := take 8 (Wire.Request (ascii_bytes "hello")).

(** An [Answer] carrying [b"olleh"], cut after two payload bytes. *)
Definition truncated_answer : bytes := take 8 (Wire.Answer (ascii_bytes "olleh")).

(** Six bytes whose tag, 9, is none of the four packet types. *)
Definition unknown_tag : bytes := Wire.frame 9 0 [].

(** A well-framed one-byte payload that is not ASCII. *)
Definition high_byte : bytes := ["255"%byte].

(** The payloads of the three requests for ["hello world"] cut at 5. *)
Definition payloads : list bytes :=
  [ascii_bytes "hello"; ascii_bytes " worl"; ascii_bytes "d"].

(** The three requests as they may arrive: the first in one segment, the
    second cut after two payload bytes, the third whole. *)
Definition arrival : list (list bytes) :=
  [ [Wire.Request (ascii_bytes "hello")];
    [take 8 (Wire.Request (ascii_bytes " worl"));
     drop 8 (Wire.Request (ascii_bytes " worl"))];
    [Wire.Request (ascii_bytes "d")] ].

(** The server's socket when Init{3} and these segments arrive. *)
Definition server_socket : Net.socket :=
  Net.fresh (Net.Seg (Wire.Init 3) :: map Net.Seg (concat arrival)) [].

(** The command line [... input.txt 5 5], the file holding the text. *)
Definition args_5_5 (text : str) : Client.args :=
  {| Client.server_port := 5000; Client.input_file := Some text;
     Client.Lmin := 5; Client.Lmax := 5 |}.

(** The blocks of ["hello world"] cut at 5. *)
Definition hello_blocks : list str :=
  [str_of_string "hello"; str_of_string " worl"; str_of_string "d"].

(** The server's socket when the client's Init{3} and three requests
    arrive, one segment per [sendall]. *)
Definition hello_server_socket : Net.socket :=
  Net.fresh (map Net.Seg (Wire.Init 3 :: map Wire.Request payloads)) [].




End Scenario.


(** ** The client's [main], from the path of its input file *)

(** What the file system makes of [args.input_file]. *)
Inductive input_path : Type :=
  | Absent                  (* [os.path.exists] returns [False] *)
  | Unreadable (e : exn)    (* it exists, and [open] or [f.read()] raises [e]:
                               a directory, bytes the codec rejects *)
  | Holds (content : str).  (* [f.read()] returns [content] *)

(** [main], with the reading of the file in it.  The three checks at its
    head end in [exit(1)]; an exception raised by [open] or [f.read()] is
    caught by the handlers that close the [try] block, and [main] returns
    before any socket is created; with the text read, the rest is
    [Client.main]. *)
Definition main_reading (draws : nat -> nat) (server_port : Z) (path : input_path)
    (Lmin Lmax : Z) (connect_error : option exn) (s : Net.socket)
    : option (Client.outcome * Net.socket) :=
  if (server_port <? 1024)%Z || (65535 <? server_port)%Z then Some (Client.Exit 1, s)
  else if (Lmin <=? 0)%Z || (Lmax <=? 0)%Z || (Lmax <? Lmin)%Z then Some (Client.Exit 1, s)
  else
    match path with
    | Absent => Some (Client.Exit 1, s)
    | Unreadable _ => Some (Client.Returned None, s)
    | Holds content =>
        Client.main draws
          {| Client.server_port := server_port; Client.input_file := Some content;
             Client.Lmin := Lmin; Client.Lmax := Lmax |}
          connect_error s
    end.

(** * Properties *)

(** ** Bytes and fixed-width numbers *)

Lemma to_N_byte_of_N n : Byte.to_N (Struct.byte_of_N n) = (n mod 256)%N.
Proof.
  unfold Struct.byte_of_N.
  destruct (Byte.of_N (n mod 256)) eqn:E.
  - by apply Byte.to_of_N.
  - apply Byte.of_N_None_iff in E. pose proof (N.mod_upper_bound n 256). lia.
Qed.

Lemma byte_of_N_to_N b : Struct.byte_of_N (Byte.to_N b) = b.
Proof.
  unfold Struct.byte_of_N.
  pose proof (Byte.to_N_bounded b).
  rewrite N.mod_small by lia. by rewrite Byte.of_to_N.
Qed.

Ltac euclid := zify; Z.to_euclidean_division_equations; lia.

Lemma pack_H_be16 v : (v < 65536)%N -> Struct.pack_H v = Ok (Wire.be16 v).
Proof. intros H. unfold Struct.pack_H. by rewrite (proj2 (N.ltb_lt _ _) H). Qed.

Lemma pack_I_be32 v : (v < 4294967296)%N -> Struct.pack_I v = Ok (Wire.be32 v).
Proof. intros H. unfold Struct.pack_I. by rewrite (proj2 (N.ltb_lt _ _) H). Qed.

Lemma pack_I_overflow v : (4294967296 <= v)%N -> Struct.pack_I v = Raise struct_error.
Proof. intros H. unfold Struct.pack_I. by rewrite (proj2 (N.ltb_ge _ _) H). Qed.

Lemma unpack_H_be16 v : (v < 65536)%N -> Struct.unpack_H (Wire.be16 v) = Ok v.
Proof.
  intros H. unfold Wire.be16, Struct.unpack_H.
  rewrite !to_N_byte_of_N. f_equal. euclid.
Qed.

Lemma unpack_I_be32 v : (v < 4294967296)%N -> Struct.unpack_I (Wire.be32 v) = Ok v.
Proof.
  intros H. unfold Wire.be32, Struct.unpack_I.
  rewrite !to_N_byte_of_N. f_equal. euclid.
Qed.

Lemma pack_HI_frame tag len :
  (tag < 65536)%N -> (len < 4294967296)%N ->
  Struct.pack_HI tag len = Ok (Wire.be16 tag ++ Wire.be32 len).
Proof.
  intros Ht Hl. unfold Struct.pack_HI.
  by rewrite pack_H_be16, pack_I_be32.
Qed.

(** ** The ascii codec *)

Lemma decode_encode_ascii (t : str) :
  forallb Ascii7.is_ascii t = true ->
  Ascii7.decode (map Struct.byte_of_N t) = Ok t.
Proof.
  intros H. unfold Ascii7.decode.
  assert (Hm : map Byte.to_N (map Struct.byte_of_N t) = t).
  { induction t as [|c t IH]; [done|]. simpl in *.
    apply andb_true_iff in H as [Hc Ht]. rewrite (IH Ht), to_N_byte_of_N.
    unfold Ascii7.is_ascii in Hc. apply N.ltb_lt in Hc.
    rewrite N.mod_small by lia. done. }
  assert (Hf : forallb (fun x => Ascii7.is_ascii (Byte.to_N x))
                 (map Struct.byte_of_N t) = true).
  { apply forallb_forall. intros x Hx. apply in_map_iff in Hx as (c & <- & Hc).
    rewrite forallb_forall in H. rewrite to_N_byte_of_N.
    specialize (H c Hc). unfold Ascii7.is_ascii in *. apply N.ltb_lt in H.
    apply N.ltb_lt. rewrite N.mod_small; lia. }
  by rewrite Hf, Hm.
Qed.

Lemma decode_ascii_bytes (b : bytes) :
  forallb (fun x => Ascii7.is_ascii (Byte.to_N x)) b = true ->
  Ascii7.decode b = Ok (map Byte.to_N b)
  /\ Ascii7.encode (rev (map Byte.to_N b)) = Ok (rev b).
Proof.
  intros H. unfold Ascii7.decode, Ascii7.encode. rewrite H. split; [done|].
  assert (Hr : forallb Ascii7.is_ascii (rev (map Byte.to_N b)) = true).
  { apply forallb_forall. intros c Hc. apply in_rev, in_map_iff in Hc as (x & <- & Hx).
    rewrite forallb_forall in H. by apply H. }
  rewrite Hr, <- map_rev, map_map. f_equal.
  rewrite <- (map_id (rev b)) at 2.
  apply map_ext. intros x. apply byte_of_N_to_N.
Qed.

Lemma decode_non_ascii (b : bytes) :
  forallb (fun x => Ascii7.is_ascii (Byte.to_N x)) b = false ->
  Ascii7.decode b = Raise UnicodeDecodeError.
Proof. intros H. unfold Ascii7.decode. by rewrite H. Qed.

(** ** Parsing a buffer that starts with a six-byte header *)

Lemma slice_0_2 {A} (a b : A) l : slice (a :: b :: l) 0 2 = [a; b].
Proof. reflexivity. Qed.

Lemma slice_2_6 {A} (a b c d e f : A) l :
  slice (a :: b :: c :: d :: e :: f :: l) 2 6 = [c; d; e; f].
Proof. reflexivity. Qed.

Lemma slice_6 {A} (a b c d e f : A) l n :
  slice (a :: b :: c :: d :: e :: f :: l) 6 (6 + n) = take n l.
Proof. unfold slice. replace (6 + n - 6) with n by lia. reflexivity. Qed.

Lemma server_parse_six t1 t0 i3 i2 i1 i0 body tag len :
  Struct.unpack_H [t1; t0] = Ok tag ->
  Struct.unpack_I [i3; i2; i1; i0] = Ok len ->
  Server.parse_packet (t1 :: t0 :: i3 :: i2 :: i1 :: i0 :: body) =
    if (tag =? INITIALIZATION)%N then Ok (Some tag, VInt len)
    else if (tag =? REVERSE_REQUEST)%N then
      if (len <=? N.of_nat (length body))%N then
        let? text := Ascii7.decode (take (N.to_nat len) body) in
        Ok (Some tag, VStr text)
      else Ok (None, VNone)
    else Ok (None, VNone).
Proof.
  intros Ht Hl. unfold Server.parse_packet.
  rewrite slice_0_2, slice_2_6, Ht, Hl. cbn [bind]. rewrite slice_6.
  change (length (t1 :: t0 :: i3 :: i2 :: i1 :: i0 :: body)) with (6 + length body).
  rewrite (proj2 (Nat.ltb_ge (6 + length body) 2)) by lia.
  rewrite (proj2 (Nat.leb_le 6 (6 + length body))) by lia.
  rewrite !andb_true_r.
  destruct (tag =? INITIALIZATION)%N; [done|].
  destruct (tag =? REVERSE_REQUEST)%N; [|done].
  destruct (N.leb_spec (6 + len) (N.of_nat (6 + length body)));
    destruct (N.leb_spec len (N.of_nat (length body))); done || lia.
Qed.

Lemma client_parse_six t1 t0 i3 i2 i1 i0 body tag len :
  Struct.unpack_H [t1; t0] = Ok tag ->
  Struct.unpack_I [i3; i2; i1; i0] = Ok len ->
  Client.parse_packet (t1 :: t0 :: i3 :: i2 :: i1 :: i0 :: body) =
    if (tag =? AGREE)%N then Ok (Some tag, VNone)
    else if (tag =? REVERSE_ANSWER)%N then
      if (len <=? N.of_nat (length body))%N then
        let? reversed_text := Ascii7.decode (take (N.to_nat len) body) in
        Ok (Some tag, VStr reversed_text)
      else Ok (None, VNone)
    else Ok (None, VNone).
Proof.
  intros Ht Hl. unfold Client.parse_packet.
  rewrite slice_0_2, slice_2_6, Ht, Hl. cbn [bind]. rewrite slice_6.
  change (length (t1 :: t0 :: i3 :: i2 :: i1 :: i0 :: body)) with (6 + length body).
  rewrite (proj2 (Nat.ltb_ge (6 + length body) 2)) by lia.
  rewrite (proj2 (Nat.leb_le 6 (6 + length body))) by lia.
  rewrite !andb_true_r.
  destruct (tag =? AGREE)%N; [done|].
  destruct (tag =? REVERSE_ANSWER)%N; [|done].
  destruct (N.leb_spec (6 + len) (N.of_nat (6 + length body)));
    destruct (N.leb_spec len (N.of_nat (length body))); done || lia.
Qed.

Lemma server_parse_frame tag len body :
  (tag < 65536)%N -> (len < 4294967296)%N ->
  Server.parse_packet (Wire.frame tag len body) =
    if (tag =? INITIALIZATION)%N then Ok (Some tag, VInt len)
    else if (tag =? REVERSE_REQUEST)%N then
      if (len <=? N.of_nat (length body))%N then
        let? text := Ascii7.decode (take (N.to_nat len) body) in
        Ok (Some tag, VStr text)
      else Ok (None, VNone)
    else Ok (None, VNone).
Proof.
  intros Ht Hl. apply server_parse_six.
  - by apply unpack_H_be16.
  - by apply unpack_I_be32.
Qed.

Lemma client_parse_frame tag len body :
  (tag < 65536)%N -> (len < 4294967296)%N ->
  Client.parse_packet (Wire.frame tag len body) =
    if (tag =? AGREE)%N then Ok (Some tag, VNone)
    else if (tag =? REVERSE_ANSWER)%N then
      if (len <=? N.of_nat (length body))%N then
        let? reversed_text := Ascii7.decode (take (N.to_nat len) body) in
        Ok (Some tag, VStr reversed_text)
      else Ok (None, VNone)
    else Ok (None, VNone).
Proof.
  intros Ht Hl. apply client_parse_six.
  - by apply unpack_H_be16.
  - by apply unpack_I_be32.
Qed.

(** Buffers shorter than a header. *)
Lemma parse_packet_below_2 (data : bytes) :
  length data < 2 ->
  Client.parse_packet data = Ok (None, VNone)
  /\ Server.parse_packet data = Ok (None, VNone).
Proof.
  intros H. unfold Client.parse_packet, Server.parse_packet.
  by rewrite (proj2 (Nat.ltb_lt _ _) H).
Qed.

Lemma server_parse_below_6 (data : bytes) :
  length data < 6 -> Server.parse_packet data = Ok (None, VNone).
Proof.
  intros H. unfold Server.parse_packet.
  destruct data as [|t1 [|t0 rest]]; [done..|].
  rewrite slice_0_2.
  replace (length (t1 :: t0 :: rest) <? 2) with false by done.
  rewrite (proj2 (Nat.leb_gt 6 _) H). cbn [Struct.unpack_H bind].
  by rewrite !andb_false_r.
Qed.

Lemma client_parse_below_6 (data : bytes) tag :
  length data < 6 ->
  Struct.unpack_H (take 2 data) = Ok tag -> tag <> AGREE ->
  Client.parse_packet data = Ok (None, VNone).
Proof.
  intros H Ht Hne. unfold Client.parse_packet.
  destruct data as [|t1 [|t0 rest]]; [done..|].
  rewrite slice_0_2.
  replace (length (t1 :: t0 :: rest) <? 2) with false by done.
  cbn [take] in Ht. rewrite take_0 in Ht. rewrite Ht. cbn [bind].
  rewrite (proj2 (N.eqb_neq _ _) Hne).
  rewrite (proj2 (Nat.leb_gt 6 _) H). by rewrite andb_false_r.
Qed.

(** ** What [create_packet] produces *)

Lemma client_create_init n :
  (n < 4294967296)%N ->
  Client.create_packet INITIALIZATION (VInt n) = Ok (Some (Wire.Init n)).
Proof.
  intros H. unfold Client.create_packet, Wire.Init, Wire.frame. cbn [N.eqb INITIALIZATION Pos.eqb].
  rewrite pack_HI_frame by (done || unfold INITIALIZATION; lia).
  cbn [bind]. by rewrite app_nil_r.
Qed.

Lemma client_create_request payload :
  (N.of_nat (length payload) < 4294967296)%N ->
  Client.create_packet REVERSE_REQUEST (VBytes payload) = Ok (Some (Wire.Request payload)).
Proof.
  intros H. unfold Client.create_packet, Wire.Request, Wire.frame.
  cbn [N.eqb INITIALIZATION REVERSE_REQUEST Pos.eqb].
  rewrite pack_HI_frame by (done || unfold REVERSE_REQUEST; lia).
  cbn [bind]. by rewrite <- app_assoc.
Qed.

Lemma server_create_agree data :
  Server.create_packet AGREE data = Ok (Some Wire.Agree).
Proof. reflexivity. Qed.

Lemma server_create_answer payload :
  (N.of_nat (length payload) < 4294967296)%N ->
  Server.create_packet REVERSE_ANSWER (VBytes payload) = Ok (Some (Wire.Answer payload)).
Proof.
  intros H. unfold Server.create_packet, Wire.Answer, Wire.frame.
  cbn [N.eqb AGREE REVERSE_ANSWER Pos.eqb].
  rewrite pack_HI_frame by (done || unfold REVERSE_ANSWER; lia).
  cbn [bind]. by rewrite <- app_assoc.
Qed.

Lemma pack_HI_inv tag len p :
  Struct.pack_HI tag len = Ok p ->
  (len < 4294967296)%N /\ p = Wire.be16 tag ++ Wire.be32 len.
Proof.
  unfold Struct.pack_HI, Struct.pack_H, Struct.pack_I.
  destruct (tag <? 65536)%N; [|done]. cbn [bind].
  destruct (N.ltb_spec len 4294967296); [|done]. cbn [bind].
  intros [= <-]. done.
Qed.

(** Every message either program can encode is one of the four frames. *)
Lemma encoded_inv p :
  Wire.encoded p ->
  (exists n, (n < 4294967296)%N /\ p = Wire.Init n)
  \/ p = Wire.Agree
  \/ (exists b, (N.of_nat (length b) < 4294967296)%N /\ p = Wire.Request b)
  \/ (exists b, (N.of_nat (length b) < 4294967296)%N /\ p = Wire.Answer b).
Proof.
  intros (packet_type & data & [H|H]).
  - unfold Client.create_packet in H.
    destruct (packet_type =? INITIALIZATION)%N.
    { destruct data as [|n|b|t]; try done.
      destruct (Struct.pack_HI INITIALIZATION n) as [q|] eqn:E; [|done].
      apply pack_HI_inv in E as [Hn ->]. cbn [bind] in H. injection H as <-.
      left. exists n. split; [done|]. unfold Wire.Init, Wire.frame. by rewrite app_nil_r. }
    destruct (packet_type =? REVERSE_REQUEST)%N; [|done].
    destruct data as [|n|b|t]; try done.
    destruct (Struct.pack_HI REVERSE_REQUEST (N.of_nat (length b))) as [q|] eqn:E; [|done].
    apply pack_HI_inv in E as [Hn ->]. cbn [bind] in H. injection H as <-.
    right; right; left. exists b. split; [done|]. reflexivity.
  - unfold Server.create_packet in H.
    destruct (packet_type =? AGREE)%N.
    { injection H as <-. by right; left. }
    destruct (packet_type =? REVERSE_ANSWER)%N; [|done].
    destruct data as [|n|b|t]; try done.
    destruct (Struct.pack_HI REVERSE_ANSWER (N.of_nat (length b))) as [q|] eqn:E; [|done].
    apply pack_HI_inv in E as [Hn ->]. cbn [bind] in H. injection H as <-.
    right; right; right. exists b. split; [done|]. reflexivity.
Qed.

(** ** The codec *)

(** C4.  Round trip of the codec.  For a block count [n] that fits 32
    bits and an ASCII text whose length fits 32 bits, each of the four
    messages is built by the sender's [create_packet] and the receiver's
    [parse_packet] gives back the packet type with the block count, nothing
    (for Agree), or the payload text. *)
Theorem codec_round_trip (n : N) (text : str) :
  (n < 4294967296)%N ->
  forallb Ascii7.is_ascii text = true ->
  (N.of_nat (length text) < 4294967296)%N ->
  (exists p, Client.create_packet INITIALIZATION (VInt n) = Ok (Some p)
     /\ Server.parse_packet p = Ok (Some INITIALIZATION, VInt n))
  /\ (exists p, Server.create_packet AGREE VNone = Ok (Some p)
     /\ Client.parse_packet p = Ok (Some AGREE, VNone))
  /\ (exists payload p, Ascii7.encode text = Ok payload
     /\ Client.create_packet REVERSE_REQUEST (VBytes payload) = Ok (Some p)
     /\ Server.parse_packet p = Ok (Some REVERSE_REQUEST, VStr text))
  /\ (exists payload p, Ascii7.encode text = Ok payload
     /\ Server.create_packet REVERSE_ANSWER (VBytes payload) = Ok (Some p)
     /\ Client.parse_packet p = Ok (Some REVERSE_ANSWER, VStr text)).
Proof.
  intros Hn Ha Hl.
  assert (He : Ascii7.encode text = Ok (map Struct.byte_of_N text)).
  { unfold Ascii7.encode. by rewrite Ha. }
  assert (Hlen : N.of_nat (length (map Struct.byte_of_N text)) = N.of_nat (length text)).
  { by rewrite length_map. }
  assert (Htake : take (N.to_nat (N.of_nat (length text))) (map Struct.byte_of_N text)
                  = map Struct.byte_of_N text).
  { apply firstn_all2. rewrite length_map. lia. }
  repeat split.
  - exists (Wire.Init n). split; [by apply client_create_init|].
    unfold Wire.Init. rewrite server_parse_frame by (done || unfold INITIALIZATION; lia).
    done.
  - exists Wire.Agree. split; reflexivity.
  - exists (map Struct.byte_of_N text), (Wire.Request (map Struct.byte_of_N text)).
    split; [done|]. split; [apply client_create_request; by rewrite Hlen|].
    unfold Wire.Request.
    rewrite server_parse_frame by (rewrite ?Hlen; done || unfold REVERSE_REQUEST; lia).
    cbn [N.eqb REVERSE_REQUEST INITIALIZATION Pos.eqb].
    rewrite Hlen, N.leb_refl, Htake, decode_encode_ascii by done. done.
  - exists (map Struct.byte_of_N text), (Wire.Answer (map Struct.byte_of_N text)).
    split; [done|]. split; [apply server_create_answer; by rewrite Hlen|].
    unfold Wire.Answer.
    rewrite client_parse_frame by (rewrite ?Hlen; done || unfold REVERSE_ANSWER; lia).
    cbn [N.eqb REVERSE_ANSWER AGREE Pos.eqb].
    rewrite Hlen, N.leb_refl, Htake, decode_encode_ascii by done. done.
Qed.

Lemma codec_round_trip_witness :
  (exists p, Client.create_packet INITIALIZATION (VInt 3) = Ok (Some p)
     /\ Server.parse_packet p = Ok (Some INITIALIZATION, VInt 3))
  /\ (exists p, Server.create_packet AGREE VNone = Ok (Some p)
     /\ Client.parse_packet p = Ok (Some AGREE, VNone))
  /\ (exists payload p, Ascii7.encode Scenario.hello_world = Ok payload
     /\ Client.create_packet REVERSE_REQUEST (VBytes payload) = Ok (Some p)
     /\ Server.parse_packet p = Ok (Some REVERSE_REQUEST, VStr Scenario.hello_world))
  /\ (exists payload p, Ascii7.encode Scenario.hello_world = Ok payload
     /\ Server.create_packet REVERSE_ANSWER (VBytes payload) = Ok (Some p)
     /\ Client.parse_packet p = Ok (Some REVERSE_ANSWER, VStr Scenario.hello_world)).
Proof.
  apply (codec_round_trip 3 Scenario.hello_world); [reflexivity..].
Defined.

(** *** Truncated messages *)

Lemma take_frame_header tag len body k :
  2 <= k -> take 2 (take k (Wire.frame tag len body)) = Wire.be16 tag.
Proof.
  intros Hk. rewrite take_take, Nat.min_l by lia. reflexivity.
Qed.

Lemma frame_truncated_header tag len body k :
  (tag < 65536)%N -> tag <> AGREE -> k < 6 ->
  Client.parse_packet (take k (Wire.frame tag len body)) = Ok (None, VNone)
  /\ Server.parse_packet (take k (Wire.frame tag len body)) = Ok (None, VNone).
Proof.
  intros Ht Hne Hk.
  assert (Hlen : length (take k (Wire.frame tag len body)) < 6).
  { rewrite length_take. lia. }
  destruct (Nat.lt_ge_cases k 2) as [Hk2|Hk2].
  - apply parse_packet_below_2. rewrite length_take. lia.
  - split; [|by apply server_parse_below_6].
    apply (client_parse_below_6 _ tag); [done| |done].
    rewrite take_frame_header by done. by apply unpack_H_be16.
Qed.

Lemma frame_truncated_body tag body k :
  (tag < 65536)%N -> tag <> AGREE -> tag <> INITIALIZATION ->
  (N.of_nat (length body) < 4294967296)%N ->
  6 <= k < 6 + length body ->
  Client.parse_packet (take k (Wire.frame tag (N.of_nat (length body)) body))
    = Ok (None, VNone)
  /\ Server.parse_packet (take k (Wire.frame tag (N.of_nat (length body)) body))
    = Ok (None, VNone).
Proof.
  intros Ht Hne Hne' Hl Hk.
  replace k with (6 + (k - 6)) by lia.
  change (take (6 + (k - 6)) (Wire.frame tag (N.of_nat (length body)) body))
    with (Wire.frame tag (N.of_nat (length body)) (take (k - 6) body)).
  rewrite client_parse_frame, server_parse_frame by done.
  rewrite (proj2 (N.eqb_neq _ _) Hne), (proj2 (N.eqb_neq _ _) Hne').
  assert (Hshort : (N.of_nat (length body) <=? N.of_nat (length (take (k - 6) body)))%N
                   = false).
  { apply N.leb_gt. rewrite length_take. lia. }
  rewrite Hshort. split.
  - by destruct (tag =? REVERSE_ANSWER)%N.
  - by destruct (tag =? REVERSE_REQUEST)%N.
Qed.

(** C5, as the code has it.  On every strict prefix of a message that one
    of the two [create_packet] functions can build, both [parse_packet]
    functions return the pair [(None, None)] and raise nothing.  This pair
    is the only failure result the codec has; it is also what an
    unrecognised tag yields. *)
Theorem parse_packet_truncated (p : bytes) (k : nat) :
  Wire.encoded p -> k < length p ->
  Client.parse_packet (take k p) = Ok (None, VNone)
  /\ Server.parse_packet (take k p) = Ok (None, VNone).
Proof.
  intros Hp Hk.
  apply encoded_inv in Hp as [(n & Hn & ->)|[->|[(b & Hb & ->)|(b & Hb & ->)]]].
  - apply frame_truncated_header; [done..|]. exact Hk.
  - apply parse_packet_below_2. rewrite length_take.
    change (length Wire.Agree) with 2 in *. lia.
  - destruct (Nat.lt_ge_cases k 6) as [Hk6|Hk6].
    + by apply frame_truncated_header.
    + apply frame_truncated_body; [done..|].
      change (length (Wire.Request b)) with (6 + length b) in Hk. lia.
  - destruct (Nat.lt_ge_cases k 6) as [Hk6|Hk6].
    + by apply frame_truncated_header.
    + apply frame_truncated_body; [done..|].
      change (length (Wire.Answer b)) with (6 + length b) in Hk. lia.
Qed.

Lemma parse_packet_truncated_witness :
  Client.parse_packet Scenario.truncated_request = Ok (None, VNone)
  /\ Server.parse_packet Scenario.truncated_request = Ok (None, VNone).
Proof.
  apply (parse_packet_truncated (Wire.Request (Scenario.ascii_bytes "hello")) 8).
  - exists REVERSE_REQUEST, (VBytes (Scenario.ascii_bytes "hello")). left. reflexivity.
  - vm_compute. lia.
Defined.

(** C5, as the specification states it, fails: the specification's
    decoder answers NeedMoreData on a truncated Request and Invalid on an
    unknown tag, while [parse_packet] returns one and the same value on
    both buffers, so that no reading of its result tells the two apart. *)
Lemma truncated_not_told_from_invalid :
  Spec.decode Scenario.truncated_request = Spec.NeedMoreData
  /\ Spec.decode Scenario.unknown_tag = Spec.Invalid
  /\ Server.parse_packet Scenario.truncated_request
     = Server.parse_packet Scenario.unknown_tag
  /\ Client.parse_packet Scenario.truncated_answer
     = Client.parse_packet Scenario.unknown_tag
  /\ ~ (exists classify : result (option N * value) -> Spec.decoded,
          classify (Server.parse_packet Scenario.truncated_request) = Spec.NeedMoreData
          /\ classify (Server.parse_packet Scenario.unknown_tag) = Spec.Invalid).
Proof.
  repeat split; try reflexivity.
  intros (classify & H1 & H2).
  change (Server.parse_packet Scenario.unknown_tag)
    with (Server.parse_packet Scenario.truncated_request) in H2.
  congruence.
Qed.

(** *** Payload bytes *)

(** C6, as the code has it.  On a well-framed Request (server) or Answer
    (client) the codec itself decodes the payload as ASCII: [parse_packet]
    returns the text when every payload byte is below 128 and raises
    [UnicodeDecodeError] otherwise. *)
Theorem parse_packet_decodes_payload (payload : bytes) :
  (N.of_nat (length payload) < 4294967296)%N ->
  Server.parse_packet (Wire.Request payload) =
    (if forallb (fun x => Ascii7.is_ascii (Byte.to_N x)) payload
     then Ok (Some REVERSE_REQUEST, VStr (map Byte.to_N payload))
     else Raise UnicodeDecodeError)
  /\ Client.parse_packet (Wire.Answer payload) =
    (if forallb (fun x => Ascii7.is_ascii (Byte.to_N x)) payload
     then Ok (Some REVERSE_ANSWER, VStr (map Byte.to_N payload))
     else Raise UnicodeDecodeError).
Proof.
  intros Hl. unfold Wire.Request, Wire.Answer.
  rewrite server_parse_frame, client_parse_frame
    by (done || unfold REVERSE_REQUEST, REVERSE_ANSWER; lia).
  cbn [N.eqb REVERSE_REQUEST REVERSE_ANSWER INITIALIZATION AGREE Pos.eqb].
  rewrite N.leb_refl, Nat2N.id, firstn_all.
  unfold Ascii7.decode.
  by destruct (forallb (fun x => Ascii7.is_ascii (Byte.to_N x)) payload).
Qed.

Lemma parse_packet_decodes_payload_witness :
  Server.parse_packet (Wire.Request Scenario.high_byte) = Raise UnicodeDecodeError
  /\ Client.parse_packet (Wire.Answer Scenario.high_byte) = Raise UnicodeDecodeError.
Proof.
  apply (parse_packet_decodes_payload Scenario.high_byte). reflexivity.
Defined.

(** C6, as the specification states it, fails: a Request and an Answer
    that the encoders build, with matching length field, make
    [parse_packet] raise because of the value of the payload byte. *)
Lemma non_ascii_payload_raises :
  Client.create_packet REVERSE_REQUEST (VBytes Scenario.high_byte)
    = Ok (Some (Wire.Request Scenario.high_byte))
  /\ Server.parse_packet (Wire.Request Scenario.high_byte) = Raise UnicodeDecodeError
  /\ Server.create_packet REVERSE_ANSWER (VBytes Scenario.high_byte)
    = Ok (Some (Wire.Answer Scenario.high_byte))
  /\ Client.parse_packet (Wire.Answer Scenario.high_byte) = Raise UnicodeDecodeError.
Proof. repeat split; reflexivity. Qed.

(** ** Splitting the text *)

Lemma randint_bounds a b raw : a <= b -> a <= randint a b raw <= b.
Proof.
  intros H. unfold randint.
  pose proof (Nat.mod_upper_bound raw (b - a + 1)). lia.
Qed.

Lemma randint_onto a b size : a <= size <= b -> randint a b (size - a) = size.
Proof.
  intros H. unfold randint. rewrite Nat.mod_small; lia.
Qed.

Section Split.

Variable draws : nat -> nat.
Variable content : str.
Variables Lmin Lmax : nat.
Hypothesis Hbounds : 0 < Lmin <= Lmax.

(** The loop invariant, read at the exit: the blocks appended from
    [start_index] on tile the rest of the text; each is non-empty and at
    most [Lmax] long, and each one that is followed by another has exactly
    the length that [randint] returned for it. *)
Lemma split_loop_spec fuel :
  forall k start_index blocks,
    start_index <= length content ->
    length content - start_index <= fuel ->
    exists bs,
      Client.split_loop fuel draws k content Lmin Lmax start_index blocks
        = Some (blocks ++ bs)
      /\ concat bs = drop start_index content
      /\ (length content <= start_index -> bs = [])
      /\ (forall i (b : str), bs !! i = Some b ->
            0 < length b <= Lmax
            /\ (S i < length bs -> length b = randint Lmin Lmax (draws (k + i)))).
Proof.
  induction fuel as [|fuel IH]; intros k start_index blocks Hle Hfuel.
  - assert (start_index = length content) as -> by lia.
    exists []. cbn [Client.split_loop]. rewrite Nat.ltb_irrefl, app_nil_r, drop_all.
    repeat split; try done.
  - cbn [Client.split_loop].
    destruct (Nat.ltb_spec start_index (length content)) as [Hlt|Hge].
    + set (block_size := randint Lmin Lmax (draws k)).
      set (end_index := Nat.min (start_index + block_size) (length content)).
      assert (Hsize : Lmin <= block_size <= Lmax) by (apply randint_bounds; lia).
      destruct (IH (S k) end_index (blocks ++ [slice content start_index end_index]))
        as (bs & Hrun & Hcat & Hnil & Hblk); [lia..|].
      exists (slice content start_index end_index :: bs).
      assert (Hlen : length (slice content start_index end_index)
                     = end_index - start_index).
      { unfold slice. rewrite length_take, length_drop. lia. }
      split; [by rewrite Hrun, <- app_assoc|]. split; [|split].
      * cbn [concat]. rewrite Hcat. unfold slice.
        rewrite <- (take_drop (end_index - start_index) (drop start_index content)) at 2.
        rewrite drop_drop. do 2 f_equal. lia.
      * lia.
      * intros [|i] b Hb.
        -- injection Hb as <-. rewrite Hlen. split; [lia|].
           intros Hmore. destruct (Nat.le_gt_cases (length content) end_index) as [Hend|Hend].
           ++ rewrite (Hnil Hend) in Hmore. cbn in Hmore. lia.
           ++ replace (k + 0) with k by lia. fold block_size. lia.
        -- cbn in Hb. destruct (Hblk i b Hb) as [H1 H2]. split; [done|].
           intros Hmore. cbn [length] in Hmore.
           replace (k + S i) with (S k + i) by lia. apply H2. lia.
    + assert (start_index = length content) as -> by lia.
      exists []. rewrite app_nil_r, drop_all. repeat split; try done.
Qed.

Lemma split_total : exists blocks, Client.split draws content Lmin Lmax = Some blocks.
Proof.
  destruct (split_loop_spec (length content) 0 0 []) as (bs & H & _); [lia..|].
  exists bs. exact H.
Qed.

End Split.

(** C2.  For a non-empty text and [0 < Lmin <= Lmax] the splitting loop
    returns blocks [init ++ [last]] whose concatenation is the text; all
    are non-empty; the [i]-th block of [init] has the length
    [randint(Lmin, Lmax)] returned for it, which lies in [[Lmin, Lmax]];
    [last] is what remains of the text and is at most [Lmax] long.
    [randint] takes every value of [[Lmin, Lmax]], both bounds included,
    and no other, and each value for exactly one of the
    [Lmax - Lmin + 1] residues of the raw draw. *)
Theorem split_chunks (draws : nat -> nat) (content : str) (Lmin Lmax : nat) :
  0 < Lmin <= Lmax ->
  0 < length content ->
  exists init last,
    Client.split draws content Lmin Lmax = Some (init ++ [last])
    /\ concat (init ++ [last]) = content
    /\ Forall (fun b : str => b <> []) (init ++ [last])
    /\ (forall i (b : str), init !! i = Some b ->
          length b = randint Lmin Lmax (draws i) /\ Lmin <= length b <= Lmax)
    /\ last = drop (length (concat init)) content
    /\ 0 < length last <= Lmax
    /\ (forall size, Lmin <= size <= Lmax ->
          exists raw, raw < Lmax - Lmin + 1 /\ randint Lmin Lmax raw = size
            /\ forall raw', raw' < Lmax - Lmin + 1 ->
                  randint Lmin Lmax raw' = size -> raw' = raw)
    /\ (forall raw, Lmin <= randint Lmin Lmax raw <= Lmax).
Proof.
  intros Hb Hlen.
  destruct (split_loop_spec draws content Lmin Lmax Hb (length content) 0 0 [])
    as (bs & Hrun & Hcat & _ & Hblk); [lia..|].
  rewrite drop_0 in Hcat.
  destruct (exists_last (l := bs)) as (init & last & ->).
  { intros ->. cbn in Hcat. subst content. cbn in Hlen. lia. }
  exists init, last. split; [exact Hrun|]. split; [exact Hcat|].
  assert (Hlast : 0 < length last <= Lmax).
  { apply (Hblk (length init) last). by rewrite list_lookup_middle. }
  split; [|split; [|split; [|split; [|split]]]].
  - apply Forall_lookup. intros i b Hi ->. destruct (Hblk i [] Hi) as [H _].
    cbn in H. lia.
  - intros i b Hi.
    assert (Hi' : (init ++ [last]) !! i = Some b) by (by apply lookup_app_l_Some).
    destruct (Hblk i b Hi') as [_ H].
    apply lookup_lt_Some in Hi.
    rewrite H by (rewrite length_app; cbn; lia).
    split; [done|]. apply randint_bounds. lia.
  - rewrite <- Hcat, concat_app, drop_app_length. cbn. by rewrite app_nil_r.
  - exact Hlast.
  - intros size Hs. exists (size - Lmin). split; [lia|].
    split; [by apply randint_onto|].
    intros raw' Hraw'. unfold randint. rewrite Nat.mod_small by done. lia.
  - intros raw. apply randint_bounds. lia.
Qed.

Lemma split_chunks_witness :
  exists init last,
    Client.split (fun _ => 0) Scenario.hello_world 5 5 = Some (init ++ [last])
    /\ concat (init ++ [last]) = Scenario.hello_world
    /\ Forall (fun b : str => b <> []) (init ++ [last])
    /\ (forall i (b : str), init !! i = Some b ->
          length b = randint 5 5 0 /\ 5 <= length b <= 5)
    /\ last = drop (length (concat init)) Scenario.hello_world
    /\ 0 < length last <= 5
    /\ (forall size, 5 <= size <= 5 ->
          exists raw, raw < 5 - 5 + 1 /\ randint 5 5 raw = size
            /\ forall raw', raw' < 5 - 5 + 1 -> randint 5 5 raw' = size -> raw' = raw)
    /\ (forall raw, 5 <= randint 5 5 raw <= 5).
Proof.
  apply (split_chunks (fun _ => 0) Scenario.hello_world 5 5); vm_compute; lia.
Defined.

(** ** Sockets *)

Lemma set_rx_rx s : Net.set_rx (Net.rx s) s = s.
Proof. by destruct s. Qed.

Lemma recv_frame n s r s' :
  Net.recv n s = (r, s') ->
  Net.sent s' = Net.sent s /\ Net.tx s' = Net.tx s /\ Net.closed s' = Net.closed s.
Proof.
  unfold Net.recv. destruct (Net.rx s) as [|[b|e] rest].
  - by intros [= <- <-].
  - destruct (length b <=? n); by intros [= <- <-].
  - by intros [= <- <-].
Qed.

Lemma recv_length n s data s' : Net.recv n s = (Ok data, s') -> length data <= n.
Proof.
  unfold Net.recv. destruct (Net.rx s) as [|[b|e] rest].
  - intros [= <- <-]. cbn. lia.
  - destruct (Nat.leb_spec (length b) n); intros [= <- <-]; [done|].
    rewrite length_take. lia.
  - done.
Qed.

Lemma recv_seg n s b r :
  Net.rx s = Net.Seg b :: r -> length b <= n ->
  Net.recv n s = (Ok b, Net.set_rx r s).
Proof.
  intros Hrx Hle. unfold Net.recv. rewrite Hrx.
  by rewrite (proj2 (Nat.leb_le _ _) Hle).
Qed.

Lemma recv_seg_more n s b r :
  Net.rx s = Net.Seg b :: r -> n < length b ->
  Net.recv n s = (Ok (take n b), Net.set_rx (Net.Seg (drop n b) :: r) s).
Proof.
  intros Hrx Hlt. unfold Net.recv. rewrite Hrx.
  by rewrite (proj2 (Nat.leb_gt _ _) Hlt).
Qed.

Lemma send_frame data s r s' :
  Net.send data s = (r, s') ->
  Net.rx s' = Net.rx s /\ Net.closed s' = Net.closed s
  /\ (Net.sent s' = Net.sent s
      \/ exists b, data = Some b /\ r = Ok tt /\ Net.sent s' = Net.sent s ++ [b]).
Proof.
  unfold Net.send. destruct data as [b|]; [|intros [= <- <-]; auto].
  destruct (Net.tx s) as [|[e|] t]; intros [= <- <-]; cbn; eauto 10.
Qed.

Lemma send_accepted b s :
  Forall (eq None) (Net.tx s) ->
  exists s', Net.send (Some b) s = (Ok tt, s')
    /\ Net.rx s' = Net.rx s /\ Net.sent s' = Net.sent s ++ [b]
    /\ Forall (eq None) (Net.tx s') /\ Net.closed s' = Net.closed s.
Proof.
  intros Htx. unfold Net.send. destruct (Net.tx s) as [|[e|] t] eqn:E.
  - eexists. split; [done|]. cbn. by rewrite ?E.
  - by inversion Htx.
  - eexists. split; [done|]. cbn. inversion Htx. done.
Qed.

(** ** The server's session *)

Lemma read_flag_true fl :
  Forall (eq true) fl ->
  exists fl', Server.read_flag fl = (true, fl') /\ Forall (eq true) fl'.
Proof.
  intros H. destruct fl as [|b fl]; [by exists []|].
  inversion H; subst. by exists fl.
Qed.

(** The receive loop never runs out of fuel, and leaves the send side of
    the socket alone. *)
Lemma recv_text_data_total fuel :
  forall length_ text_data fl s,
    length_ - length text_data <= fuel ->
    exists r fl' s',
      Server.recv_text_data fuel length_ text_data fl s = Some (r, fl', s')
      /\ Net.sent s' = Net.sent s /\ Net.tx s' = Net.tx s
      /\ Net.closed s' = Net.closed s.
Proof.
  induction fuel as [|fuel IH]; intros length_ text_data fl s Hfuel.
  - cbn [Server.recv_text_data]. rewrite (proj2 (Nat.ltb_ge _ _)) by lia. eauto 10.
  - cbn [Server.recv_text_data].
    destruct (Nat.ltb_spec (length text_data) length_) as [Hlt|Hge]; [|eauto 10].
    destruct (Server.read_flag fl) as [[|] fl1]; [|eauto 10].
    destruct (Net.recv (length_ - length text_data) s) as [[chunk|e] s1] eqn:Hrecv;
      [|apply recv_frame in Hrecv; eauto 10].
    pose proof (recv_frame _ _ _ _ Hrecv) as (Hs & Ht & Hc).
    destruct chunk as [|x chunk]; [eauto 10|].
    destruct (IH length_ (text_data ++ x :: chunk) fl1 s1) as (r & fl' & s' & H & H1 & H2 & H3).
    { rewrite length_app. cbn. lia. }
    exists r, fl', s'. rewrite H. repeat split; congruence.
Qed.

(** Non-empty segments that add up to the missing bytes are collected
    whole, whatever their number. *)
Lemma recv_text_data_segments segs :
  forall length_ text_data fuel fl s r,
    Forall (fun b : bytes => b <> []) segs ->
    Forall (eq true) fl ->
    Net.rx s = map Net.Seg segs ++ r ->
    length_ = length text_data + length (concat segs) ->
    length (concat segs) <= fuel ->
    exists fl',
      Server.recv_text_data fuel length_ text_data fl s
        = Some (Ok (text_data ++ concat segs), fl', Net.set_rx r s)
      /\ Forall (eq true) fl'.
Proof.
  induction segs as [|b segs IH]; intros length_ text_data fuel fl s r Hne Hfl Hrx -> Hfuel.
  - cbn in *. rewrite Nat.add_0_r, app_nil_r. exists fl. split; [|done].
    destruct fuel; cbn [Server.recv_text_data];
      rewrite Nat.ltb_irrefl, <- Hrx, set_rx_rx; done.
  - inversion Hne as [|? ? Hb Hne']; subst.
    cbn [concat] in *. rewrite length_app in *.
    destruct b as [|x b]; [done|].
    destruct fuel as [|fuel]; [cbn in Hfuel; lia|].
    cbn [Server.recv_text_data].
    rewrite (proj2 (Nat.ltb_lt _ _)) by (cbn; lia).
    destruct (read_flag_true fl Hfl) as (fl1 & -> & Hfl1).
    rewrite (recv_seg _ s (x :: b) (map Net.Seg segs ++ r)) by (done || cbn; lia).
    destruct (IH (length text_data + (length (x :: b) + length (concat segs)))
                (text_data ++ x :: b) fuel fl1
                (Net.set_rx (map Net.Seg segs ++ r) s) r)
      as (fl' & Hrun & Hfl'); try done.
    + rewrite length_app. lia.
    + cbn in Hfuel. lia.
    + exists fl'. rewrite Hrun. by rewrite <- app_assoc.
Qed.

Lemma server_parse_request payload :
  forallb (fun x => Ascii7.is_ascii (Byte.to_N x)) payload = true ->
  (N.of_nat (length payload) < 4294967296)%N ->
  Server.parse_packet (Wire.Request payload)
    = Ok (Some REVERSE_REQUEST, VStr (map Byte.to_N payload)).
Proof.
  intros Ha Hl. unfold Wire.Request.
  rewrite server_parse_frame by (done || unfold REVERSE_REQUEST; lia).
  cbn [N.eqb REVERSE_REQUEST INITIALIZATION Pos.eqb].
  rewrite N.leb_refl, Nat2N.id, firstn_all.
  by rewrite (proj1 (decode_ascii_bytes payload Ha)).
Qed.

Lemma client_parse_answer payload :
  forallb (fun x => Ascii7.is_ascii (Byte.to_N x)) payload = true ->
  (N.of_nat (length payload) < 4294967296)%N ->
  Client.parse_packet (Wire.Answer payload)
    = Ok (Some REVERSE_ANSWER, VStr (map Byte.to_N payload)).
Proof.
  intros Ha Hl. unfold Wire.Answer.
  rewrite client_parse_frame by (done || unfold REVERSE_ANSWER; lia).
  cbn [N.eqb REVERSE_ANSWER AGREE Pos.eqb].
  rewrite N.leb_refl, Nat2N.id, firstn_all.
  by rewrite (proj1 (decode_ascii_bytes payload Ha)).
Qed.

(** One iteration of the server's loop on a complete Request: the header
    read has returned the six header bytes and the payload is still to
    come, in the segments [segs]. *)
Lemma serve_block_payload payload segs r fl fl1 s s1 :
  forallb (fun x => Ascii7.is_ascii (Byte.to_N x)) payload = true ->
  (N.of_nat (length payload) < 4294967296)%N ->
  Server.read_flag fl = (true, fl1) ->
  Net.recv 6 s = (Ok (take 6 (Wire.Request payload)), s1) ->
  Net.rx s1 = map Net.Seg segs ++ r ->
  Forall (fun b : bytes => b <> []) segs ->
  concat segs = payload ->
  Forall (eq true) fl1 -> Forall (eq None) (Net.tx s) ->
  exists fl' s',
    Server.serve_block fl s = Some (Server.Next, fl', s')
    /\ Net.rx s' = r
    /\ Net.sent s' = Net.sent s ++ [Wire.Answer (rev payload)]
    /\ Forall (eq true) fl' /\ Forall (eq None) (Net.tx s')
    /\ Net.closed s' = Net.closed s.
Proof.
  intros Ha Hl Hflag Hrecv Hrx Hne Hcat Hfl Htx.
  pose proof (recv_frame _ _ _ _ Hrecv) as (Hsent1 & Htx1 & Hclosed1).
  unfold Server.serve_block. rewrite Hflag, Hrecv.
  change (take 6 (Wire.Request payload))
    with (Wire.be16 REVERSE_REQUEST ++ Wire.be32 (N.of_nat (length payload))).
  change (length (Wire.be16 REVERSE_REQUEST ++ Wire.be32 (N.of_nat (length payload))) <? 6)
    with false.
  cbn iota.
  change (slice (Wire.be16 REVERSE_REQUEST ++ Wire.be32 (N.of_nat (length payload))) 2 6)
    with (Wire.be32 (N.of_nat (length payload))).
  rewrite unpack_I_be32 by done. rewrite Nat2N.id.
  destruct (recv_text_data_segments segs (length payload) [] (length payload) fl1 s1 r)
    as (fl2 & Hbody & Hfl2); try done.
  { by rewrite Hcat. }
  { by rewrite Hcat. }
  rewrite Hbody, Hcat. cbn [app]. rewrite Nat.ltb_irrefl.
  change ((Wire.be16 REVERSE_REQUEST ++ Wire.be32 (N.of_nat (length payload))) ++ payload)
    with (Wire.Request payload).
  rewrite server_parse_request by done.
  cbn [is_type N.eqb REVERSE_REQUEST Pos.eqb negb Server.reverse_text].
  rewrite (proj2 (decode_ascii_bytes payload Ha)). cbn [bind].
  rewrite server_create_answer by (by rewrite length_rev).
  destruct (send_accepted (Wire.Answer (rev payload)) (Net.set_rx r s1))
    as (s3 & Hsend & Hrx3 & Hsent3 & Htx3 & Hclosed3).
  { cbn. by rewrite Htx1. }
  rewrite Hsend. exists fl2, s3. split; [done|].
  cbn [Net.set_rx Net.rx Net.sent Net.closed Net.tx] in Hrx3, Hsent3, Hclosed3.
  repeat split; try done; congruence.
Qed.

Lemma serve_block_request payload segs r fl s :
  forallb (fun x => Ascii7.is_ascii (Byte.to_N x)) payload = true ->
  (N.of_nat (length payload) < 4294967296)%N ->
  fragments (Wire.Request payload) segs ->
  Net.rx s = map Net.Seg segs ++ r ->
  Forall (eq true) fl -> Forall (eq None) (Net.tx s) ->
  exists fl' s',
    Server.serve_block fl s = Some (Server.Next, fl', s')
    /\ Net.rx s' = r
    /\ Net.sent s' = Net.sent s ++ [Wire.Answer (rev payload)]
    /\ Forall (eq true) fl' /\ Forall (eq None) (Net.tx s')
    /\ Net.closed s' = Net.closed s.
Proof.
  intros Ha Hl (Hcat & Hne & Hhd) Hrx Hfl Htx.
  destruct segs as [|first rest]; [cbn in Hhd; lia|]. cbn [hd] in Hhd.
  cbn [concat] in Hcat. inversion Hne as [|? ? Hfirst Hrest]; subst.
  assert (Hhdr : take 6 first = take 6 (Wire.Request payload)).
  { by rewrite <- Hcat, take_app_le. }
  assert (Hbody : drop 6 first ++ concat rest = payload).
  { transitivity (drop 6 (Wire.Request payload)); [|reflexivity].
    by rewrite <- Hcat, drop_app_le. }
  destruct (read_flag_true fl Hfl) as (fl1 & Hflag & Hfl1).
  destruct (Nat.le_gt_cases (length first) 6) as [Hsix|Hmore].
  - apply (serve_block_payload payload rest r fl fl1 s
             (Net.set_rx (map Net.Seg rest ++ r) s)); try done.
    + rewrite <- Hhdr, take_ge by done. by apply recv_seg.
    + rewrite drop_ge in Hbody by done. exact Hbody.
  - apply (serve_block_payload payload (drop 6 first :: rest) r fl fl1 s
             (Net.set_rx (Net.Seg (drop 6 first) :: map Net.Seg rest ++ r) s)); try done.
    + rewrite <- Hhdr. by apply recv_seg_more.
    + constructor; [|done]. intros H. apply (f_equal length) in H.
      rewrite length_drop in H. cbn in H. lia.
Qed.

Lemma serve_blocks_requests payloads :
  forall segss m block_index fl s r,
    Forall carriable payloads ->
    Forall2 fragments (map Wire.Request payloads) segss ->
    Net.rx s = map Net.Seg (concat segss) ++ r ->
    Forall (eq true) fl -> Forall (eq None) (Net.tx s) ->
    exists fl' s',
      Server.serve_blocks (length payloads + m) block_index fl s
        = Server.serve_blocks m (block_index + length payloads) fl' s'
      /\ Net.rx s' = r
      /\ Net.sent s' = Net.sent s ++ map (fun p => Wire.Answer (rev p)) payloads
      /\ Forall (eq true) fl' /\ Forall (eq None) (Net.tx s')
      /\ Net.closed s' = Net.closed s.
Proof.
  induction payloads as [|payload payloads IH];
    intros segss m block_index fl s r Hok Hfrag Hrx Hfl Htx.
  - inversion Hfrag; subst. cbn in Hrx. exists fl, s.
    cbn [length map]. rewrite Nat.add_0_r, app_nil_r. done.
  - cbn [map] in Hfrag. inversion Hfrag as [|? segs ? segss' Hsegs Hrest]; subst.
    inversion Hok as [|? ? [Ha Hl] Hok']; subst.
    cbn [concat] in Hrx. rewrite map_app, <- app_assoc in Hrx.
    destruct (serve_block_request payload segs _ fl s Ha Hl Hsegs Hrx Hfl Htx)
      as (fl1 & s1 & Hstep & Hrx1 & Hsent1 & Hfl1 & Htx1 & Hclosed1).
    destruct (IH segss' m (S block_index) fl1 s1 r Hok' Hrest Hrx1 Hfl1 Htx1)
      as (fl' & s' & Hrun & Hrx' & Hsent' & Hfl' & Htx' & Hclosed').
    exists fl', s'. cbn [length Nat.add Server.serve_blocks]. rewrite Hstep, Hrun.
    replace (block_index + S (length payloads)) with (S block_index + length payloads)
      by lia.
    rewrite Hsent', Hsent1, <- app_assoc. repeat split; try done. congruence.
Qed.

Lemma session_init n fl s r :
  (n < 4294967296)%N ->
  Net.rx s = Net.Seg (Wire.Init n) :: r ->
  Forall (eq None) (Net.tx s) ->
  exists s',
    Server.session fl s = Server.serve_blocks (N.to_nat n) 0 fl s'
    /\ Net.rx s' = r /\ Net.sent s' = Net.sent s ++ [Wire.Agree]
    /\ Forall (eq None) (Net.tx s') /\ Net.closed s' = Net.closed s.
Proof.
  intros Hn Hrx Htx. unfold Server.session.
  rewrite (recv_seg 6 s (Wire.Init n) r) by (done || cbn; lia).
  change (length (Wire.Init n) <? 6) with false. cbn iota.
  unfold Wire.Init. rewrite server_parse_frame by (done || unfold INITIALIZATION; lia).
  cbn [N.eqb INITIALIZATION Pos.eqb is_type negb].
  rewrite server_create_agree.
  destruct (send_accepted Wire.Agree (Net.set_rx r s)) as (s' & Hsend & H1 & H2 & H3 & H4);
    [done|].
  rewrite Hsend. exists s'. done.
Qed.

Lemma session_serves_requests (n : N) (payloads : list bytes)
    (segss : list (list bytes)) (m : nat) (fl : list bool)
    (s : Net.socket) (r : list Net.rx_event) :
  (n < 4294967296)%N ->
  N.to_nat n = length payloads + m ->
  Forall carriable payloads ->
  Forall2 fragments (map Wire.Request payloads) segss ->
  Net.rx s = Net.Seg (Wire.Init n) :: map Net.Seg (concat segss) ++ r ->
  Forall (eq true) fl ->
  Forall (eq None) (Net.tx s) ->
  exists fl' s',
    Server.session fl s = Server.serve_blocks m (length payloads) fl' s'
    /\ Net.sent s'
       = Net.sent s ++ Wire.Agree :: map (fun p => Wire.Answer (rev p)) payloads
    /\ Net.rx s' = r
    /\ (m = 0 ->
        exists p, Server.session fl s = Some (p, length payloads, fl', s')
                  /\ Server.state_of p = Server.Done).
Proof.
  intros Hn Hcount Hok Hfrag Hrx Hfl Htx.
  destruct (session_init n fl s _ Hn Hrx Htx) as (s1 & Hrun1 & Hrx1 & Hsent1 & Htx1 & _).
  destruct (serve_blocks_requests payloads segss m 0 fl s1 r Hok Hfrag Hrx1 Hfl Htx1)
    as (fl' & s' & Hrun & Hrx' & Hsent' & _).
  exists fl', s'. rewrite Hrun1, Hcount, Hrun, Hsent', Hsent1, <- app_assoc.
  repeat split; try done.
  intros ->. by exists Server.Completed.
Qed.




(** *** Every session ends *)

Ltac sent_unchanged :=
  repeat match goal with
  | H : Net.recv _ _ = _ |- _ => apply recv_frame in H as (? & ? & ?)
  end;
  do 3 eexists; split; [reflexivity|]; split; [left; congruence|congruence].

Lemma serve_block_total fl s :
  exists st fl' s',
    Server.serve_block fl s = Some (st, fl', s')
    /\ (Net.sent s' = Net.sent s \/ exists b, Net.sent s' = Net.sent s ++ [b])
    /\ Net.closed s' = Net.closed s.
Proof.
  unfold Server.serve_block.
  destruct (Server.read_flag fl) as [[|] fl1]; [|sent_unchanged].
  destruct (Net.recv 6 s) as [[header|e] s1] eqn:Hrecv; [|sent_unchanged].
  destruct (length header <? 6); [sent_unchanged|].
  destruct (Struct.unpack_I (slice header 2 6)) as [len|e]; [|sent_unchanged].
  destruct (recv_text_data_total (N.to_nat len) (N.to_nat len) [] fl1 s1)
    as (r & fl2 & s2 & -> & Hs & Ht & Hc); [lia|].
  destruct r as [text_data|e]; [|sent_unchanged].
  destruct (length text_data <? N.to_nat len); [sent_unchanged|].
  destruct (Server.parse_packet (header ++ text_data)) as [[packet_type text]|e];
    [|sent_unchanged].
  destruct (negb (is_type packet_type REVERSE_REQUEST)); [sent_unchanged|].
  destruct (let? reversed_text := Server.reverse_text text in
            Server.create_packet REVERSE_ANSWER (VBytes reversed_text)) as [answer|e];
    [|sent_unchanged].
  destruct (Net.send answer s2) as [[[]|e] s3] eqn:Hsend;
    apply send_frame in Hsend as (_ & Hc3 & Hsent);
    apply recv_frame in Hrecv as (? & ? & ?);
    (do 3 eexists; split; [reflexivity|]; split; [|congruence]).
  - destruct Hsent as [Hsent|(b & _ & _ & Hsent)]; [left|right; exists b]; congruence.
  - destruct Hsent as [Hsent|(b & _ & [=] & _)]. left. congruence.
Qed.

Lemma serve_blocks_total todo :
  forall block_index fl s,
    exists p k fl' s' more,
      Server.serve_blocks todo block_index fl s = Some (p, k, fl', s')
      /\ Net.sent s' = Net.sent s ++ more
      /\ Net.closed s' = Net.closed s.
Proof.
  induction todo as [|todo IH]; intros block_index fl s.
  - exists Server.Completed, block_index, fl, s, []. by rewrite app_nil_r.
  - cbn [Server.serve_blocks].
    destruct (serve_block_total fl s) as (st & fl1 & s1 & -> & Hsent & Hclosed).
    assert (Hmore : exists more, Net.sent s1 = Net.sent s ++ more).
    { destruct Hsent as [->|[b ->]]; [exists []; by rewrite app_nil_r|by exists [b]]. }
    destruct Hmore as (more1 & Hmore1).
    destruct st as [|p].
    + destruct (IH (S block_index) fl1 s1) as (p & k & fl' & s' & more & -> & Hs & Hc).
      exists p, k, fl', s', (more1 ++ more). rewrite Hs, Hmore1, <- app_assoc.
      split; [done|]. split; [done|]. congruence.
    + by exists p, block_index, fl1, s1, more1.
Qed.

Lemma send_head_accepted b s :
  hd None (Net.tx s) = None ->
  exists s', Net.send (Some b) s = (Ok tt, s')
    /\ Net.rx s' = Net.rx s /\ Net.sent s' = Net.sent s ++ [b]
    /\ Net.closed s' = Net.closed s.
Proof.
  intros H. unfold Net.send. destruct (Net.tx s) as [|[e|] t]; [|done|]; by eexists.
Qed.

(** *** The initialization read *)

Lemma byte_of_N_eq n b : (n mod 256 = Byte.to_N b)%N -> Struct.byte_of_N n = b.
Proof. intros H. unfold Struct.byte_of_N. by rewrite H, Byte.of_to_N. Qed.

Lemma unpack_H_inv t1 t0 tag :
  Struct.unpack_H [t1; t0] = Ok tag -> (tag < 65536)%N /\ Wire.be16 tag = [t1; t0].
Proof.
  intros [= <-].
  pose proof (Byte.to_N_bounded t1). pose proof (Byte.to_N_bounded t0).
  split; [lia|]. unfold Wire.be16. f_equal; [|f_equal]; apply byte_of_N_eq; euclid.
Qed.

Lemma unpack_I_inv i3 i2 i1 i0 len :
  Struct.unpack_I [i3; i2; i1; i0] = Ok len ->
  (len < 4294967296)%N /\ Wire.be32 len = [i3; i2; i1; i0].
Proof.
  intros [= <-].
  pose proof (Byte.to_N_bounded i3). pose proof (Byte.to_N_bounded i2).
  pose proof (Byte.to_N_bounded i1). pose proof (Byte.to_N_bounded i0).
  split; [lia|]. unfold Wire.be32.
  f_equal; [|f_equal; [|f_equal; [|f_equal]]]; apply byte_of_N_eq; euclid.
Qed.

(** Six bytes that the server takes for an initialization are the frame
    of an Init. *)
Lemma server_parse_init_inv (data : bytes) v :
  length data = 6 ->
  Server.parse_packet data = Ok (Some INITIALIZATION, v) ->
  exists n, (n < 4294967296)%N /\ data = Wire.Init n.
Proof.
  intros Hlen Hparse.
  destruct data as [|t1 [|t0 [|i3 [|i2 [|i1 [|i0 [|]]]]]]]; try done.
  destruct (Struct.unpack_H [t1; t0]) as [tag|] eqn:Ht; [|done].
  destruct (Struct.unpack_I [i3; i2; i1; i0]) as [len|] eqn:Hl; [|done].
  rewrite (server_parse_six _ _ _ _ _ _ [] tag len Ht Hl) in Hparse.
  apply unpack_H_inv in Ht as [_ Ht]. apply unpack_I_inv in Hl as [Hl Hi].
  destruct (N.eqb_spec tag INITIALIZATION) as [->|Hne].
  - exists len. split; [done|]. unfold Wire.Init, Wire.frame. by rewrite Ht, Hi.
  - destruct (tag =? REVERSE_REQUEST)%N eqn:E; [|done].
    apply N.eqb_eq in E. subst tag.
    destruct (len <=? N.of_nat (length (@nil byte)))%N; [|done].
    destruct (Ascii7.decode (take (N.to_nat len) [])); done.
Qed.

Lemma session_total fl s :
  exists p k fl' s' more,
    Server.session fl s = Some (p, k, fl', s')
    /\ Net.sent s' = Net.sent s ++ more
    /\ Net.closed s' = Net.closed s
    /\ ((exists n, (n < 4294967296)%N /\ fst (Net.recv 6 s) = Ok (Wire.Init n))
        \/ (more = [] /\ Server.state_of p = Server.Failed))
    /\ ((exists n, (n < 4294967296)%N /\ fst (Net.recv 6 s) = Ok (Wire.Init n)) ->
        hd None (Net.tx s) = None -> exists more', more = Wire.Agree :: more').
Proof.
  unfold Server.session.
  destruct (Net.recv 6 s) as [[data|e] s1] eqn:Hrecv; cbn [fst].
  2:{ apply recv_frame in Hrecv as (Hs & Ht & Hc).
      exists (Server.Excepted e), 0, fl, s1, []. rewrite app_nil_r.
      repeat split; try done. - by right. - by intros (n & _ & [=]). }
  pose proof (recv_length _ _ _ _ Hrecv) as Hlen.
  apply recv_frame in Hrecv as (Hs & Ht & Hc).
  destruct (Nat.ltb_spec (length data) 6) as [Hshort|Hfull].
  { exists Server.InitIncomplete, 0, fl, s1, []. rewrite app_nil_r.
    repeat split; try done. - by right.
    - intros (n & _ & [= ->]). cbn in Hshort. lia. }
  destruct (Server.parse_packet data) as [[packet_type n_blocks]|e] eqn:Hparse.
  2:{ exists (Server.Excepted e), 0, fl, s1, []. rewrite app_nil_r.
      repeat split; try done. - by right.
      - intros (n & Hn & [= ->]). unfold Wire.Init in Hparse.
        rewrite server_parse_frame in Hparse by (done || unfold INITIALIZATION; lia).
        done. }
  destruct (is_type packet_type INITIALIZATION) eqn:Htype; cbn [negb].
  2:{ exists Server.InitInvalid, 0, fl, s1, []. rewrite app_nil_r.
      repeat split; try done. - by right.
      - intros (n & Hn & [= ->]). unfold Wire.Init in Hparse.
        rewrite server_parse_frame in Hparse by (done || unfold INITIALIZATION; lia).
        injection Hparse as <- <-. done. }
  destruct packet_type as [t|]; [|done]. cbn in Htype. apply N.eqb_eq in Htype. subst t.
  destruct (server_parse_init_inv data n_blocks) as (n & Hn & ->); [lia|done|].
  unfold Wire.Init in Hparse.
  rewrite server_parse_frame in Hparse by (done || unfold INITIALIZATION; lia).
  injection Hparse as <-.
  assert (Hinit : exists n0, (n0 < 4294967296)%N
                    /\ Ok (Wire.frame INITIALIZATION n []) = Ok (Wire.Init n0))
    by (by exists n).
  rewrite server_create_agree.
  destruct (Net.send (Some Wire.Agree) s1) as [[[]|e] s2] eqn:Hsend.
  - pose proof (send_frame _ _ _ _ Hsend) as (_ & Hc2 & Hsent2).
    destruct (serve_blocks_total (N.to_nat n) 0 fl s2)
      as (p & k & fl' & s' & more & -> & Hs' & Hc').
    destruct Hsent2 as [Hsent2|(b & [= <-] & _ & Hsent2)].
    + exists p, k, fl', s', more. repeat split; try congruence. { by left. }
      intros _ Hhd. destruct (send_head_accepted Wire.Agree s1) as (s2' & Hsend' & _ & Hx & _).
      { by rewrite Ht. }
      rewrite Hsend in Hsend'. injection Hsend' as <-.
      rewrite Hsent2 in Hx. apply (f_equal length) in Hx. rewrite length_app in Hx.
      cbn in Hx. lia.
    + exists p, k, fl', s', (Wire.Agree :: more).
      rewrite Hs', Hsent2, Hs, <- app_assoc.
      repeat split; try congruence. { by left. } by exists more.
  - pose proof (send_frame _ _ _ _ Hsend) as (_ & Hc2 & [Hsent2|(b & _ & [=] & _)]).
    exists (Server.Excepted e), 0, fl, s2, []. rewrite app_nil_r.
    repeat split; try congruence. { by left. }
    intros _ Hhd. destruct (send_head_accepted Wire.Agree s1) as (s2' & Hsend' & _).
    { by rewrite Ht. }
    rewrite Hsend in Hsend'. done.
Qed.

(** C8.  A worker always ends with its socket closed.  It sends Agree,
    as the first thing it sends, exactly when the six-byte read returned
    the frame of an Init{n} (and the send is accepted); after any other
    outcome of that read (an error, fewer than six bytes, six bytes that
    are no Init) the session is Failed and nothing at all has been sent. *)
Theorem init_decides_agree (conn thread : nat) (fl : list bool) (s : Net.socket)
    (g : Server.registry) :
  exists p s' g' sent_now,
    Server.handle_client conn thread fl s g = Some (p, s', g')
    /\ Net.closed s' = true
    /\ Net.sent s' = Net.sent s ++ sent_now
    /\ ((exists n, (n < 4294967296)%N /\ fst (Net.recv 6 s) = Ok (Wire.Init n)) ->
        hd None (Net.tx s) = None ->
        exists more, sent_now = Wire.Agree :: more)
    /\ (sent_now <> [] ->
        exists n, (n < 4294967296)%N /\ fst (Net.recv 6 s) = Ok (Wire.Init n))
    /\ (~ (exists n, (n < 4294967296)%N /\ fst (Net.recv 6 s) = Ok (Wire.Init n)) ->
        sent_now = [] /\ Server.state_of p = Server.Failed).
Proof.
  destruct (session_total fl s) as (p & k & fl' & s' & more & Hrun & Hsent & Hclosed & Hcase & Hagree).
  exists p, (Net.close s'), (Server.leave conn thread (Server.enter conn g)), more.
  unfold Server.handle_client. rewrite Hrun.
  split; [done|]. split; [done|]. split; [done|]. split; [done|]. split.
  - intros Hne. by destruct Hcase as [H|[-> _]].
  - intros Hno. by destruct Hcase as [H|H].
Qed.

(** ** The registries *)

Lemma contains_In x l : Server.contains x l = true <-> In x l.
Proof.
  unfold Server.contains. rewrite existsb_exists. split.
  - intros (y & Hy & E). apply Nat.eqb_eq in E. by subst.
  - intros H. exists x. by rewrite Nat.eqb_refl.
Qed.

Lemma list_remove_count x y l :
  count_occ Nat.eq_dec (Server.list_remove x l) y
  = if Nat.eq_dec x y then pred (count_occ Nat.eq_dec l y) else count_occ Nat.eq_dec l y.
Proof.
  induction l as [|z l IH]; cbn [Server.list_remove count_occ].
  - by destruct (Nat.eq_dec x y).
  - destruct (Nat.eqb_spec x z) as [->|Hxz].
    + destruct (Nat.eq_dec z y) as [->|Hzy]; [done|].
      destruct (Nat.eq_dec z y); done.
    + cbn [count_occ]. rewrite IH.
      destruct (Nat.eq_dec z y) as [->|Hzy]; destruct (Nat.eq_dec x y) as [->|Hxy]; done.
Qed.

Lemma leave_enter_connection conn thread g :
  ~ In conn (Server.client_connections g) ->
  ~ In conn (Server.client_connections (Server.leave conn thread (Server.enter conn g))).
Proof.
  intros Hfresh. cbn [Server.leave Server.enter Server.client_connections].
  assert (Hin : Server.contains conn (Server.client_connections g ++ [conn]) = true).
  { apply contains_In, in_or_app. right. by left. }
  rewrite Hin. apply (count_occ_not_In Nat.eq_dec).
  rewrite list_remove_count. destruct (Nat.eq_dec conn conn); [|done].
  rewrite count_occ_app. apply (count_occ_not_In Nat.eq_dec) in Hfresh.
  rewrite Hfresh. cbn. by destruct (Nat.eq_dec conn conn).
Qed.

Lemma leave_thread conn thread g :
  count_occ Nat.eq_dec (Server.client_threads g) thread <= 1 ->
  ~ In thread (Server.client_threads (Server.leave conn thread g)).
Proof.
  intros Honce. cbn [Server.leave Server.client_threads].
  destruct (Server.contains thread (Server.client_threads g)) eqn:Hin.
  - apply (count_occ_not_In Nat.eq_dec). rewrite list_remove_count.
    destruct (Nat.eq_dec thread thread); [lia|done].
  - intros H. apply contains_In in H. congruence.
Qed.

(** Run alone, with its thread registered at most once and its
    connection not yet registered, a worker leaves no trace: on every way
    out of the session the socket is closed and both registries are free
    of it. *)
Lemma handle_client_cleans_up conn thread fl s g :
  ~ In conn (Server.client_connections g) ->
  count_occ Nat.eq_dec (Server.client_threads g) thread <= 1 ->
  exists p s' g',
    Server.handle_client conn thread fl s g = Some (p, s', g')
    /\ Net.closed s' = true
    /\ ~ In conn (Server.client_connections g')
    /\ ~ In thread (Server.client_threads g').
Proof.
  intros Hfresh Honce.
  destruct (session_total fl s) as (p & k & fl' & s' & more & Hrun & _).
  exists p, (Net.close s'), (Server.leave conn thread (Server.enter conn g)).
  unfold Server.handle_client. rewrite Hrun.
  split; [done|]. split; [done|]. split.
  - by apply leave_enter_connection.
  - by apply leave_thread.
Qed.

(** The three steps of the worker are [handle_client]. *)
Lemma worker_steps conn thread st :
  Dispatcher.wpc st = Dispatcher.Entering ->
  exists p s' g',
    Server.handle_client conn thread (Dispatcher.flag_reads st) (Dispatcher.sock st)
      (Dispatcher.registries st) = Some (p, s', g')
    /\ exists st',
         Dispatcher.run conn thread
           [Dispatcher.Worker; Dispatcher.Worker; Dispatcher.Worker] st = Some st'
         /\ Dispatcher.wpc st' = Dispatcher.Terminated p
         /\ Dispatcher.sock st' = s'
         /\ Dispatcher.registries st' = g'
         /\ Dispatcher.mpc st' = Dispatcher.mpc st.
Proof.
  intros Hpc.
  destruct (session_total (Dispatcher.flag_reads st) (Dispatcher.sock st))
    as (p & k & fl' & s' & more & Hrun & _).
  exists p, (Net.close s'),
    (Server.leave conn thread (Server.enter conn (Dispatcher.registries st))).
  unfold Server.handle_client. rewrite Hrun. split; [done|].
  destruct st as [g m w s0 fl0]. cbn in *. subst w.
  destruct m; cbn; rewrite Hrun; cbn; eauto 10.
Qed.

(** C10 fails on the code in this interleaving: the dispatcher starts
    the thread, the worker runs [handle_client] to its end, and only then
    does the dispatcher execute [client_threads.append(client_thread)].
    The worker has terminated with its socket closed, and the registry of
    live threads holds it. *)
Theorem late_registration_keeps_thread (conn thread : nat) (fl : list bool)
    (s : Net.socket) (g : Server.registry) :
  exists st p,
    Dispatcher.run conn thread
      [Dispatcher.Main; Dispatcher.Worker; Dispatcher.Worker; Dispatcher.Worker;
       Dispatcher.Main]
      (Dispatcher.accepted g fl s) = Some st
    /\ Dispatcher.wpc st = Dispatcher.Terminated p
    /\ Dispatcher.mpc st = Dispatcher.Registered
    /\ Net.closed (Dispatcher.sock st) = true
    /\ In thread (Server.client_threads (Dispatcher.registries st)).
Proof.
  destruct (session_total fl s) as (p & k & fl' & s' & more & Hrun & _).
  eexists _, p. cbn. rewrite Hrun. cbn. split; [reflexivity|].
  cbn. repeat split. apply in_or_app. right. by left.
Qed.

(** In the three other interleavings the dispatcher registers the
    thread before the worker reaches its [finally] block, and then no
    registry holds the terminated worker. *)
Lemma early_registration_cleans_up conn thread fl s g schedule :
  ~ In conn (Server.client_connections g) ->
  ~ In thread (Server.client_threads g) ->
  In schedule
    [ [Dispatcher.Main; Dispatcher.Main; Dispatcher.Worker; Dispatcher.Worker;
       Dispatcher.Worker];
      [Dispatcher.Main; Dispatcher.Worker; Dispatcher.Main; Dispatcher.Worker;
       Dispatcher.Worker];
      [Dispatcher.Main; Dispatcher.Worker; Dispatcher.Worker; Dispatcher.Main;
       Dispatcher.Worker] ] ->
  exists st p,
    Dispatcher.run conn thread schedule (Dispatcher.accepted g fl s) = Some st
    /\ Dispatcher.wpc st = Dispatcher.Terminated p
    /\ Net.closed (Dispatcher.sock st) = true
    /\ ~ In conn (Server.client_connections (Dispatcher.registries st))
    /\ ~ In thread (Server.client_threads (Dispatcher.registries st)).
Proof.
  intros Hconn Hthread Hsched.
  destruct (session_total fl s) as (p & k & fl' & s' & more & Hrun & _).
  assert (Honce : count_occ Nat.eq_dec (Server.client_threads g ++ [thread]) thread <= 1).
  { rewrite count_occ_app. apply (count_occ_not_In Nat.eq_dec) in Hthread.
    rewrite Hthread. cbn. destruct (Nat.eq_dec thread thread); lia. }
  destruct Hsched as [<-|[<-|[<-|[]]]]; eexists _, p; cbn; rewrite Hrun; cbn;
    (split; [reflexivity|]); cbn [Dispatcher.wpc Dispatcher.sock Dispatcher.registries Net.close Net.closed];
    (split; [reflexivity|]); (split; [reflexivity|]); split.
  all: try (by apply (leave_enter_connection conn thread
              {| Server.client_threads := Server.client_threads g ++ [thread];
                 Server.client_connections := Server.client_connections g |})).
  all: try (by apply (leave_thread conn thread
              {| Server.client_threads := Server.client_threads g ++ [thread];
                 Server.client_connections := Server.client_connections g ++ [conn] |})).
Qed.

(** ** The client's exchanges *)

Lemma send_ok_inv data s u s' :
  Net.send data s = (Ok u, s') ->
  exists b, data = Some b /\ Net.sent s' = Net.sent s ++ [b]
    /\ Net.rx s' = Net.rx s /\ Net.closed s' = Net.closed s.
Proof.
  unfold Net.send. destruct data as [b|]; [|done].
  destruct (Net.tx s) as [|[e|] t]; intros H; inversion H; subst; by exists b.
Qed.

Lemma send_raise_inv data s e s' :
  Net.send data s = (Raise e, s') ->
  Net.sent s' = Net.sent s /\ Net.rx s' = Net.rx s /\ Net.closed s' = Net.closed s.
Proof.
  unfold Net.send. destruct data as [b|]; [|by intros [= <- <-]].
  destruct (Net.tx s) as [|[e'|] t]; intros H; inversion H; subst; done.
Qed.

Lemma recv_same_rx n s1 s :
  Net.rx s1 = Net.rx s -> fst (Net.recv n s1) = fst (Net.recv n s).
Proof.
  intros H. unfold Net.recv. rewrite H.
  destruct (Net.rx s) as [|[b|e] r]; [done| |done].
  by destruct (length b <=? n).
Qed.

Lemma recv_reversed_data_total fuel :
  forall length_ reversed_data s,
    length_ - length reversed_data <= fuel ->
    exists r s',
      Client.recv_reversed_data fuel length_ reversed_data s = Some (r, s')
      /\ Net.sent s' = Net.sent s /\ Net.tx s' = Net.tx s
      /\ Net.closed s' = Net.closed s.
Proof.
  induction fuel as [|fuel IH]; intros length_ reversed_data s Hfuel.
  - cbn [Client.recv_reversed_data]. rewrite (proj2 (Nat.ltb_ge _ _)) by lia. eauto 10.
  - cbn [Client.recv_reversed_data].
    destruct (Nat.ltb_spec (length reversed_data) length_) as [Hlt|Hge]; [|eauto 10].
    destruct (Net.recv (length_ - length reversed_data) s) as [[chunk|e] s1] eqn:Hrecv;
      [|apply recv_frame in Hrecv; eauto 10].
    pose proof (recv_frame _ _ _ _ Hrecv) as (Hs & Ht & Hc).
    destruct chunk as [|x chunk]; [eauto 10|].
    destruct (IH length_ (reversed_data ++ x :: chunk) s1) as (r & s' & H & H1 & H2 & H3).
    { rewrite length_app. cbn. lia. }
    exists r, s'. rewrite H. repeat split; congruence.
Qed.

Lemma recv_reversed_data_segments segs :
  forall length_ reversed_data fuel s r,
    Forall (fun b : bytes => b <> []) segs ->
    Net.rx s = map Net.Seg segs ++ r ->
    length_ = length reversed_data + length (concat segs) ->
    length (concat segs) <= fuel ->
    Client.recv_reversed_data fuel length_ reversed_data s
      = Some (Ok (reversed_data ++ concat segs), Net.set_rx r s).
Proof.
  induction segs as [|b segs IH]; intros length_ reversed_data fuel s r Hne Hrx -> Hfuel.
  - cbn in *. rewrite Nat.add_0_r, app_nil_r.
    destruct fuel; cbn [Client.recv_reversed_data];
      rewrite Nat.ltb_irrefl, <- Hrx, set_rx_rx; done.
  - inversion Hne as [|? ? Hb Hne']; subst.
    cbn [concat] in *. rewrite length_app in *.
    destruct b as [|x b]; [done|].
    destruct fuel as [|fuel]; [cbn in Hfuel; lia|].
    cbn [Client.recv_reversed_data].
    rewrite (proj2 (Nat.ltb_lt _ _)) by (cbn; lia).
    rewrite (recv_seg _ s (x :: b) (map Net.Seg segs ++ r)) by (done || cbn; lia).
    rewrite (IH (length reversed_data + (length (x :: b) + length (concat segs)))
               (reversed_data ++ x :: b) fuel
               (Net.set_rx (map Net.Seg segs ++ r) s) r); try done.
    + by rewrite <- app_assoc.
    + rewrite length_app. lia.
    + cbn in Hfuel. lia.
Qed.

Lemma client_parse_answer_inv (data : bytes) packet_type v :
  Client.parse_packet data = Ok (packet_type, v) ->
  is_type packet_type REVERSE_ANSWER = true ->
  exists text, v = VStr text.
Proof.
  unfold Client.parse_packet. destruct (length data <? 2); [by intros [= <- <-]|].
  destruct (Struct.unpack_H (slice data 0 2)) as [t|]; [|done]. cbn [bind].
  destruct (N.eqb_spec t AGREE) as [->|_]; [by intros [= <- <-]|].
  destruct ((t =? REVERSE_ANSWER)%N && (6 <=? length data)); [|by intros [= <- <-]].
  destruct (Struct.unpack_I (slice data 2 6)) as [len|]; [|done]. cbn [bind].
  destruct (6 + len <=? N.of_nat (length data))%N; [|by intros [= <- <-]].
  destruct (Ascii7.decode _) as [text|]; [|done]. cbn [bind].
  intros [= <- <-] _. by exists text.
Qed.

(** What one exchange does to the list of results and to the log of
    sent buffers: a [Break] leaves the results as they were, a [Continue]
    has stored a text at index [i]; at most one buffer is sent. *)
Lemma exchange_total i block reversed_blocks s :
  exists c reversed_blocks' s' more,
    Client.exchange i block reversed_blocks s = Some (c, reversed_blocks', s')
    /\ Net.sent s' = Net.sent s ++ more
    /\ Net.closed s' = Net.closed s
    /\ (c = Break -> reversed_blocks' = reversed_blocks)
    /\ (c = Continue ->
        i < length reversed_blocks
        /\ exists text, reversed_blocks' = <[i:=VStr text]> reversed_blocks).
Proof.
  unfold Client.exchange.
  destruct (let? payload := Ascii7.encode block in
            Client.create_packet REVERSE_REQUEST (VBytes payload)) as [request_data|e].
  2:{ exists Break, reversed_blocks, s, []. by rewrite app_nil_r. }
  destruct (Net.sendall request_data s) as [[[]|e] s1] eqn:Hsend.
  2:{ apply send_raise_inv in Hsend as (Hs & _ & Hc).
      exists Break, reversed_blocks, s1, []. by rewrite app_nil_r. }
  apply send_ok_inv in Hsend as (b & _ & Hsent1 & _ & Hclosed1).
  assert (Hbreak : forall s', Net.sent s' = Net.sent s1 -> Net.closed s' = Net.closed s1 ->
    exists c reversed_blocks' s'' more,
      Some (Break, reversed_blocks, s') = Some (c, reversed_blocks', s'')
      /\ Net.sent s'' = Net.sent s ++ more
      /\ Net.closed s'' = Net.closed s
      /\ (c = Break -> reversed_blocks' = reversed_blocks)
      /\ (c = Continue ->
          i < length reversed_blocks
          /\ exists text, reversed_blocks' = <[i:=VStr text]> reversed_blocks)).
  { intros s' Hs' Hc'. exists Break, reversed_blocks, s', [b].
    repeat split; try done; congruence. }
  destruct (Net.recv 6 s1) as [[header|e] s2] eqn:Hrecv;
    apply recv_frame in Hrecv as (Hs2 & Ht2 & Hc2); [|by apply Hbreak].
  destruct (length header <? 6); [by apply Hbreak|].
  destruct (Struct.unpack_I (slice header 2 6)) as [len|e]; [|by apply Hbreak].
  destruct (recv_reversed_data_total (N.to_nat len) (N.to_nat len) [] s2)
    as (r & s3 & -> & Hs3 & Ht3 & Hc3); [lia|].
  destruct r as [reversed_data|e]; [|apply Hbreak; congruence].
  destruct (length reversed_data <? N.to_nat len); [apply Hbreak; congruence|].
  destruct (Client.parse_packet (header ++ reversed_data)) as [[packet_type v]|e] eqn:Hparse;
    [|apply Hbreak; congruence].
  destruct (is_type packet_type REVERSE_ANSWER) eqn:Htype; cbn [negb];
    [|apply Hbreak; congruence].
  destruct (client_parse_answer_inv _ _ _ Hparse Htype) as (text & ->).
  unfold Client.setitem.
  destruct (Nat.ltb_spec i (length reversed_blocks)) as [Hi|Hi];
    [|apply Hbreak; congruence].
  exists Continue, (<[i:=VStr text]> reversed_blocks), s3, [b].
  repeat split; try done; try congruence. by exists text.
Qed.

(** The state of the result list after the loop: the texts received
    before the first failed exchange, each at the index of its block, and
    [None] from there on. *)
Lemma chunk_loop_spec blocks :
  forall i done s,
    length done = i ->
    exists c results s' more,
      Client.chunk_loop i blocks (done ++ replicate (length blocks) VNone) s
        = Some (c, done ++ map VStr results
                     ++ replicate (length blocks - length results) VNone, s')
      /\ Net.sent s' = Net.sent s ++ more
      /\ Net.closed s' = Net.closed s
      /\ (c = Continue -> length results = length blocks)
      /\ (c = Break -> length results < length blocks).
Proof.
  induction blocks as [|block blocks IH]; intros i done s Hi.
  - exists Continue, [], s, []. cbn. rewrite !app_nil_r. done.
  - cbn [Client.chunk_loop].
    destruct (exchange_total i block (done ++ replicate (length (block :: blocks)) VNone) s)
      as (c & rb & s1 & more1 & -> & Hsent1 & Hclosed1 & Hbreak & Hcont).
    destruct c.
    + destruct Hcont as (_ & text & ->); [done|].
      rewrite insert_app_r_alt by lia. replace (i - length done) with 0 by lia.
      cbn [length replicate]. cbn [insert list_insert].
      change (done ++ VStr text :: replicate (length blocks) VNone)
        with (done ++ [VStr text] ++ replicate (length blocks) VNone).
      rewrite app_assoc.
      destruct (IH (S i) (done ++ [VStr text]) s1)
        as (c & results & s' & more & -> & Hsent & Hclosed & Hc & Hb).
      { rewrite length_app. cbn. lia. }
      exists c, (text :: results), s', (more1 ++ more).
      cbn [map length Nat.sub]. rewrite <- !app_assoc. cbn [app].
      split; [done|]. split; [by rewrite Hsent, Hsent1, <- app_assoc|].
      split; [congruence|]. split; intros H; [rewrite Hc | specialize (Hb H)]; done || lia.
    + rewrite Hbreak by done. exists Break, [], s1, more1.
      cbn [map app length Nat.sub]. repeat split; try done. cbn. lia.
Qed.

Lemma forallb_results results k :
  forallb Client.is_not_None (map VStr results ++ replicate k VNone)
  = match k with 0 => true | S _ => false end.
Proof.
  induction results as [|t results IH]; [by destruct k|]. exact IH.
Qed.

Lemma write_blocks_results results :
  Client.write_blocks (map VStr results) = Ok (concat results).
Proof.
  induction results as [|t results IH]; [done|].
  cbn [map Client.write_blocks concat]. by rewrite IH.
Qed.

Lemma client_create_init_overflow n :
  (4294967296 <= n)%N ->
  Client.create_packet INITIALIZATION (VInt n) = Raise struct_error.
Proof.
  intros H. unfold Client.create_packet, Struct.pack_HI.
  cbn [N.eqb INITIALIZATION Pos.eqb].
  change (Struct.pack_H 1) with (Ok (Wire.be16 1)). cbn [bind].
  by rewrite pack_I_overflow.
Qed.

Lemma client_parse_agree : Client.parse_packet Wire.Agree = Ok (Some AGREE, VNone).
Proof. reflexivity. Qed.

Lemma client_parse_agree_inv (data : bytes) packet_type v :
  length data = 2 ->
  Client.parse_packet data = Ok (packet_type, v) ->
  is_type packet_type AGREE = true ->
  data = Wire.Agree.
Proof.
  intros Hlen Hparse Htype.
  destruct data as [|t1 [|t0 [|]]]; try done.
  unfold Client.parse_packet in Hparse. rewrite slice_0_2 in Hparse.
  change (length [t1; t0] <? 2) with false in Hparse. cbn iota in Hparse.
  destruct (Struct.unpack_H [t1; t0]) as [tag|] eqn:Ht; [|done]. cbn [bind] in Hparse.
  destruct (N.eqb_spec tag AGREE) as [->|Hne].
  - apply unpack_H_inv in Ht as [_ <-]. reflexivity.
  - rewrite andb_false_r in Hparse. injection Hparse as <- <-. done.
Qed.

Lemma is_request_init n : is_request (Wire.Init n) = false.
Proof. reflexivity. Qed.

(** ** The client's run *)

(** [converse] either stops during the handshake, having sent nothing
    or the Init alone, or goes through the exchanges and decides on the
    output by what they left in the result list. *)
Ltac handshake_fails n s2 :=
  exists (Client.Returned None), s2, [Wire.Init n];
  split; [done|]; split; [congruence|]; split; [congruence|];
  left; split; [|auto]; intros (_ & _ & ?).

Lemma converse_spec blocks s :
  exists o s' newly,
    Client.converse blocks s = Some (o, s')
    /\ Net.sent s' = Net.sent s ++ newly
    /\ Net.closed s' = Net.closed s
    /\ ((~ handshake_completes (length blocks) s
         /\ (newly = [] \/ newly = [Wire.Init (N.of_nat (length blocks))])
         /\ o = Client.Returned None)
        \/ (handshake_completes (length blocks) s
            /\ exists s1 s2 c results more,
                 Net.sendall (Some (Wire.Init (N.of_nat (length blocks)))) s = (Ok tt, s1)
                 /\ Net.recv 2 s1 = (Ok Wire.Agree, s2)
                 /\ Client.chunk_loop 0 blocks (replicate (length blocks) VNone) s2
                    = Some (c, map VStr results
                                 ++ replicate (length blocks - length results) VNone, s')
                 /\ newly = Wire.Init (N.of_nat (length blocks)) :: more
                 /\ ((c = Continue /\ length results = length blocks
                      /\ o = Client.Returned (Some (concat results)))
                     \/ (c = Break /\ length results < length blocks
                         /\ o = Client.Returned None)))).
Proof.
  unfold Client.converse, handshake_completes.
  set (n := N.of_nat (length blocks)).
  destruct (N.lt_ge_cases n 4294967296) as [Hn|Hn].
  2:{ rewrite client_create_init_overflow by done.
      exists (Client.Returned None), s, []. rewrite app_nil_r.
      repeat split; try done. left. split; [lia|auto]. }
  rewrite client_create_init by done.
  destruct (Net.sendall (Some (Wire.Init n)) s) as [[[]|e] s1] eqn:Hsend.
  2:{ pose proof (send_raise_inv _ _ _ _ Hsend) as (Hs & _ & Hc).
      exists (Client.Returned None), s1, []. rewrite app_nil_r.
      repeat split; try done. left. split; [|auto].
      intros (_ & Hhd & _).
      destruct (send_head_accepted (Wire.Init n) s Hhd) as (s1' & Hsend' & _).
      unfold Net.sendall in Hsend. congruence. }
  pose proof (send_ok_inv _ _ _ _ Hsend) as (b & [= <-] & Hsent1 & Hrx1 & Hclosed1).
  pose proof (recv_same_rx 2 s1 s Hrx1) as Hfst.
  destruct (Net.recv 2 s1) as [[data|e] s2] eqn:Hrecv; cbn [fst] in Hfst;
    pose proof (recv_frame _ _ _ _ Hrecv) as (Hs2 & _ & Hc2).
  2:{ handshake_fails n s2. congruence. }
  pose proof (recv_length _ _ _ _ Hrecv) as Hlen.
  destruct (Nat.ltb_spec (length data) 2) as [Hshort|Hfull].
  { handshake_fails n s2. assert (data = Wire.Agree) as -> by congruence.
    cbn in Hshort. lia. }
  destruct (Client.parse_packet data) as [[packet_type v]|e] eqn:Hparse.
  2:{ handshake_fails n s2. assert (data = Wire.Agree) as -> by congruence.
      rewrite client_parse_agree in Hparse. done. }
  destruct (is_type packet_type AGREE) eqn:Htype; cbn [negb].
  2:{ handshake_fails n s2. assert (data = Wire.Agree) as -> by congruence.
      rewrite client_parse_agree in Hparse. injection Hparse as <- <-. done. }
  assert (data = Wire.Agree) as -> by (apply (client_parse_agree_inv _ packet_type v); lia || done).
  destruct (chunk_loop_spec blocks 0 [] s2 eq_refl)
    as (c & results & s3 & more & Hloop & Hsent3 & Hclosed3 & Hc & Hb).
  cbn [app] in Hloop. rewrite Hloop, forallb_results.
  assert (Hhd : hd None (Net.tx s) = None).
  { unfold Net.sendall, Net.send in Hsend. by destruct (Net.tx s) as [|[?|] ?]. }
  destruct c.
  - specialize (Hc eq_refl). rewrite Hc, Nat.sub_diag. cbn [replicate].
    rewrite app_nil_r, write_blocks_results.
    exists (Client.Returned (Some (concat results))), s3, (Wire.Init n :: more).
    split; [done|]. split; [rewrite Hsent3, Hs2, Hsent1, <- app_assoc; done|].
    split; [congruence|]. right. split; [by rewrite <- Hfst|].
    exists s1, s2, Continue, results, more. split; [done|]. split; [done|].
    rewrite Hloop, Hc, Nat.sub_diag. cbn [replicate]. rewrite app_nil_r.
    repeat split; try done. by left.
  - specialize (Hb eq_refl).
    destruct (length blocks - length results) as [|k] eqn:Hk; [lia|].
    exists (Client.Returned None), s3, (Wire.Init n :: more).
    split; [done|]. split; [rewrite Hsent3, Hs2, Hsent1, <- app_assoc; done|].
    split; [congruence|]. right. split; [by rewrite <- Hfst|].
    exists s1, s2, Break, results, more. split; [done|]. split; [done|].
    rewrite Hloop, Hk. repeat split; try done. by right.
Qed.

Lemma main_valid draws a content connect_error s :
  valid_args a content ->
  exists blocks,
    Client.split draws content (Z.to_nat (Client.Lmin a)) (Z.to_nat (Client.Lmax a))
      = Some blocks
    /\ Client.main draws a connect_error s =
       match connect_error with
       | Some _ => Some (Client.Returned None, Net.close s)
       | None =>
           match Client.converse blocks s with
           | None => None
           | Some (o, s') => Some (o, Net.close s')
           end
       end.
Proof.
  intros (Hport & Hl & Hfile & Hprint).
  destruct (split_total draws content (Z.to_nat (Client.Lmin a)) (Z.to_nat (Client.Lmax a)))
    as (blocks & Hsplit); [lia|].
  exists blocks. split; [done|]. unfold Client.main.
  rewrite (proj2 (Z.ltb_ge _ _)), (proj2 (Z.ltb_ge _ _)) by lia.
  rewrite (proj2 (Z.leb_gt _ _)), (proj2 (Z.leb_gt _ _)), (proj2 (Z.ltb_ge _ _)) by lia.
  cbn [orb]. by rewrite Hfile, Hprint, Hsplit.
Qed.

Lemma main_cases draws a connect_error s :
  Client.main draws a connect_error s = Some (Client.Exit 1, s)
  \/ exists content, valid_args a content.
Proof.
  unfold Client.main, valid_args.
  destruct (Z.ltb_spec (Client.server_port a) 1024); [by left|].
  destruct (Z.ltb_spec 65535 (Client.server_port a)); [by left|].
  destruct (Z.leb_spec (Client.Lmin a) 0); [by left|].
  destruct (Z.leb_spec (Client.Lmax a) 0); [by left|].
  destruct (Z.ltb_spec (Client.Lmax a) (Client.Lmin a)); [by left|].
  cbn [orb]. destruct (Client.input_file a) as [content|]; [|by left].
  destruct (forallb Client.printable content) eqn:E; [|by left].
  right. exists content. repeat split; done || lia.
Qed.

(** C7.  Every run returns.  When the connection is refused or times
    out, or the two-byte read after the Init raises, comes back short, or
    brings anything but an Agree, the run has sent at most the Init and
    writes no output.  If any Request was sent, the connection was made,
    the Init carrying the number of blocks was the first buffer sent, and
    the two-byte read had returned a well-formed Agree. *)
Theorem no_request_without_agree (draws : nat -> nat) (a : Client.args)
    (connect_error : option exn) (s : Net.socket) :
  exists o s' newly,
    Client.main draws a connect_error s = Some (o, s')
    /\ Net.sent s' = Net.sent s ++ newly
    /\ (connect_error <> None \/ fst (Net.recv 2 s) <> Ok Wire.Agree ->
        (newly = [] \/ exists n, newly = [Wire.Init n])
        /\ forall text, o <> Client.Returned (Some text))
    /\ (Exists (fun p => is_request p = true) newly ->
        connect_error = None
        /\ fst (Net.recv 2 s) = Ok Wire.Agree
        /\ exists content blocks more,
             Client.input_file a = Some content
             /\ Client.split draws content
                  (Z.to_nat (Client.Lmin a)) (Z.to_nat (Client.Lmax a)) = Some blocks
             /\ newly = Wire.Init (N.of_nat (length blocks)) :: more).
Proof.
  destruct (main_cases draws a connect_error s) as [Hexit|(content & Hvalid)].
  { exists (Client.Exit 1), s, []. rewrite app_nil_r.
    split; [done|]. split; [done|]. split.
    - intros _. split; [by left|done].
    - intros Hreq. by apply Exists_nil in Hreq. }
  destruct (main_valid draws a content connect_error s Hvalid) as (blocks & Hsplit & ->).
  destruct connect_error as [e|].
  { exists (Client.Returned None), (Net.close s), []. rewrite app_nil_r.
    split; [done|]. split; [done|]. split.
    - intros _. split; [by left|done].
    - intros Hreq. by apply Exists_nil in Hreq. }
  destruct (converse_spec blocks s) as (o & s' & newly & -> & Hsent & _ & Hcase).
  exists o, (Net.close s'), newly. split; [done|]. split; [done|].
  destruct Hcase as [(Hno & Hnew & ->)
                    |((_ & _ & Hagree) & s1 & s2 & c & results & more & _ & _ & _ & -> & Ho)].
  - split.
    + intros _. split; [|done]. destruct Hnew as [->| ->]; eauto.
    + intros Hreq. destruct Hnew as [->| ->].
      * by apply Exists_nil in Hreq.
      * apply Exists_cons in Hreq as [Hreq|Hreq].
        -- by rewrite is_request_init in Hreq.
        -- by apply Exists_nil in Hreq.
  - split.
    + intros [H|H]; done.
    + intros _. split; [done|]. split; [done|].
      exists content, blocks, more. by destruct Hvalid as (_ & _ & -> & _).
Qed.

(** C9.  With an empty input file and arguments that pass the checks,
    the split yields no block; once connected, with the first send
    accepted and an Agree coming back, the run sends Init{0} and nothing
    else, and writes an empty output file.  The Agree is what the server
    answers to Init{0}: it sends Agree and nothing else, and its session
    completes with no block served. *)
Theorem empty_input_run (draws : nat -> nat) (a : Client.args) (s : Net.socket) :
  valid_args a [] ->
  hd None (Net.tx s) = None ->
  fst (Net.recv 2 s) = Ok Wire.Agree ->
  Client.split draws [] (Z.to_nat (Client.Lmin a)) (Z.to_nat (Client.Lmax a)) = Some []
  /\ (exists s',
        Client.main draws a None s = Some (Client.Returned (Some []), s')
        /\ Net.sent s' = Net.sent s ++ [Wire.Init 0]
        /\ Net.closed s' = true)
  /\ (exists srv,
        Server.session [] (Net.fresh [Net.Seg (Wire.Init 0)] [])
          = Some (Server.Completed, 0, [], srv)
        /\ Net.sent srv = [Wire.Agree]).
Proof.
  intros Hvalid Hhd Hagree. split; [reflexivity|]. split.
  - destruct (main_valid draws a [] None s Hvalid) as (blocks & Hsplit & ->).
    assert (blocks = []) as -> by (by injection Hsplit).
    destruct (converse_spec [] s) as (o & s' & newly & -> & Hsent & Hclosed & Hcase).
    destruct Hcase as [(Hno & _)|(_ & s1 & s2 & c & results & more & Hs1 & Hs2 & Hloop & -> & Ho)].
    { exfalso. apply Hno. repeat split; done. }
    cbn [Client.chunk_loop length replicate] in Hloop. injection Hloop as <- Hrb <-.
    destruct results; [|done].
    apply send_ok_inv in Hs1 as (b & [= <-] & Hsent1 & _).
    apply recv_frame in Hs2 as (Hsent2 & _).
    exists (Net.close s2). split; [|split; [exact (eq_trans Hsent2 Hsent1)|done]].
    by destruct Ho as [(_ & _ & ->)|(_ & H & _)]; [|cbn in H; lia].
  - eexists. split; reflexivity.
Qed.

Lemma empty_input_run_witness :
  Client.split (fun _ => 0) [] (Z.to_nat 5) (Z.to_nat 5) = Some []
  /\ (exists s',
        Client.main (fun _ => 0)
          {| Client.server_port := 5000; Client.input_file := Some [];
             Client.Lmin := 5; Client.Lmax := 5 |}
          None (Net.fresh [Net.Seg Wire.Agree] [])
          = Some (Client.Returned (Some []), s')
        /\ Net.sent s' = Net.sent (Net.fresh [Net.Seg Wire.Agree] []) ++ [Wire.Init 0]
        /\ Net.closed s' = true)
  /\ (exists srv,
        Server.session [] (Net.fresh [Net.Seg (Wire.Init 0)] [])
          = Some (Server.Completed, 0, [], srv)
        /\ Net.sent srv = [Wire.Agree]).
Proof.
  apply (empty_input_run (fun _ => 0)
           {| Client.server_port := 5000; Client.input_file := Some [];
              Client.Lmin := 5; Client.Lmax := 5 |}
           (Net.fresh [Net.Seg Wire.Agree] [])).
  - repeat split; vm_compute; congruence.
  - reflexivity.
  - reflexivity.
Defined.

(** *** Exchanges with a peer that answers *)

Lemma ascii_round_trip (t : str) :
  forallb Ascii7.is_ascii t = true -> map Byte.to_N (map Struct.byte_of_N t) = t.
Proof.
  intros H. induction t as [|c t IH]; [done|]. cbn in *.
  apply andb_true_iff in H as [Hc Ht]. rewrite (IH Ht), to_N_byte_of_N.
  unfold Ascii7.is_ascii in Hc. apply N.ltb_lt in Hc.
  by rewrite N.mod_small by lia.
Qed.

Lemma encode_ascii (t : str) :
  forallb Ascii7.is_ascii t = true -> Ascii7.encode t = Ok (map Struct.byte_of_N t).
Proof. intros H. unfold Ascii7.encode. by rewrite H. Qed.

(** The bytes of an ASCII text, reversed, are a payload the protocol can
    carry, and decode to the reversed text. *)
Lemma reversed_carriable (t : str) :
  forallb Ascii7.is_ascii t = true ->
  (N.of_nat (length t) < 4294967296)%N ->
  carriable (rev (map Struct.byte_of_N t))
  /\ map Byte.to_N (rev (map Struct.byte_of_N t)) = rev t.
Proof.
  intros Ha Hl. split; [split|].
  - apply forallb_forall. intros x Hx. apply in_rev, in_map_iff in Hx as (c & <- & Hc).
    rewrite forallb_forall in Ha. specialize (Ha c Hc).
    unfold Ascii7.is_ascii in *. apply N.ltb_lt in Ha. apply N.ltb_lt.
    rewrite to_N_byte_of_N, N.mod_small; lia.
  - by rewrite length_rev, length_map.
  - by rewrite map_rev, ascii_round_trip.
Qed.

(** One exchange whose Request is accepted and whose Answer arrives
    complete: the header read has returned the six header bytes and the
    payload is still to come, in the segments [segs]. *)
Lemma exchange_payload i block payload segs r reversed_blocks s s1 s2 :
  forallb Ascii7.is_ascii block = true ->
  (N.of_nat (length block) < 4294967296)%N ->
  carriable payload ->
  i < length reversed_blocks ->
  Net.sendall (Some (Wire.Request (map Struct.byte_of_N block))) s = (Ok tt, s1) ->
  Net.recv 6 s1 = (Ok (take 6 (Wire.Answer payload)), s2) ->
  Net.rx s2 = map Net.Seg segs ++ r ->
  Forall (fun b : bytes => b <> []) segs ->
  concat segs = payload ->
  Client.exchange i block reversed_blocks s
    = Some (Continue, <[i:=VStr (map Byte.to_N payload)]> reversed_blocks, Net.set_rx r s2).
Proof.
  intros Ha Hl [Hpa Hpl] Hi Hsend Hrecv Hrx Hne Hcat.
  unfold Client.exchange. rewrite encode_ascii by done. cbn [bind].
  rewrite client_create_request by (by rewrite length_map).
  rewrite Hsend, Hrecv.
  change (take 6 (Wire.Answer payload))
    with (Wire.be16 REVERSE_ANSWER ++ Wire.be32 (N.of_nat (length payload))).
  change (length (Wire.be16 REVERSE_ANSWER ++ Wire.be32 (N.of_nat (length payload))) <? 6)
    with false.
  cbn iota.
  change (slice (Wire.be16 REVERSE_ANSWER ++ Wire.be32 (N.of_nat (length payload))) 2 6)
    with (Wire.be32 (N.of_nat (length payload))).
  rewrite unpack_I_be32 by done. rewrite Nat2N.id.
  rewrite (recv_reversed_data_segments segs (length payload) [] (length payload) s2 r);
    try done; try (by rewrite Hcat).
  rewrite Hcat. cbn [app]. rewrite Nat.ltb_irrefl.
  change ((Wire.be16 REVERSE_ANSWER ++ Wire.be32 (N.of_nat (length payload))) ++ payload)
    with (Wire.Answer payload).
  rewrite client_parse_answer by done.
  cbn [is_type N.eqb REVERSE_ANSWER Pos.eqb negb]. unfold Client.setitem.
  by rewrite (proj2 (Nat.ltb_lt _ _) Hi).
Qed.

Lemma exchange_answer i block payload segs r reversed_blocks s :
  forallb Ascii7.is_ascii block = true ->
  (N.of_nat (length block) < 4294967296)%N ->
  carriable payload ->
  i < length reversed_blocks ->
  fragments (Wire.Answer payload) segs ->
  Net.rx s = map Net.Seg segs ++ r ->
  Forall (eq None) (Net.tx s) ->
  exists s',
    Client.exchange i block reversed_blocks s
      = Some (Continue, <[i:=VStr (map Byte.to_N payload)]> reversed_blocks, s')
    /\ Net.rx s' = r
    /\ Net.sent s' = Net.sent s ++ [Wire.Request (map Struct.byte_of_N block)]
    /\ Forall (eq None) (Net.tx s')
    /\ Net.closed s' = Net.closed s.
Proof.
  intros Ha Hl Hp Hi (Hcat & Hne & Hhd) Hrx Htx.
  destruct segs as [|first rest]; [cbn in Hhd; lia|]. cbn [hd] in Hhd.
  cbn [concat] in Hcat. inversion Hne as [|? ? Hfirst Hrest]; subst.
  assert (Hhdr : take 6 first = take 6 (Wire.Answer payload)).
  { by rewrite <- Hcat, take_app_le. }
  assert (Hbody : drop 6 first ++ concat rest = payload).
  { transitivity (drop 6 (Wire.Answer payload)); [|reflexivity].
    by rewrite <- Hcat, drop_app_le. }
  destruct (send_accepted (Wire.Request (map Struct.byte_of_N block)) s Htx)
    as (s1 & Hsend & Hrx1 & Hsent1 & Htx1 & Hclosed1).
  rewrite Hrx in Hrx1. cbn [map app] in Hrx1.
  destruct (Nat.le_gt_cases (length first) 6) as [Hsix|Hmore].
  - eexists. split.
    + apply (exchange_payload i block payload rest r reversed_blocks s s1
               (Net.set_rx (map Net.Seg rest ++ r) s1)); try done.
      * rewrite <- Hhdr, take_ge by done. by apply recv_seg.
      * rewrite drop_ge in Hbody by done. exact Hbody.
    + done.
  - eexists. split.
    + apply (exchange_payload i block payload (drop 6 first :: rest) r reversed_blocks s s1
               (Net.set_rx (Net.Seg (drop 6 first) :: map Net.Seg rest ++ r) s1)); try done.
      * rewrite <- Hhdr. by apply recv_seg_more.
      * constructor; [|done]. intros H. apply (f_equal length) in H.
        rewrite length_drop in H. cbn in H. lia.
    + done.
Qed.

Lemma chunk_loop_answers blocks :
  forall i done s segss r,
    Forall sendable blocks ->
    Forall2 fragments
      (map (fun b => Wire.Answer (rev (map Struct.byte_of_N b))) blocks) segss ->
    Net.rx s = map Net.Seg (concat segss) ++ r ->
    Forall (eq None) (Net.tx s) ->
    length done = i ->
    exists s',
      Client.chunk_loop i blocks (done ++ replicate (length blocks) VNone) s
        = Some (Continue, done ++ map VStr (map (@rev N) blocks), s')
      /\ Net.rx s' = r
      /\ Net.sent s'
         = Net.sent s ++ map (fun b => Wire.Request (map Struct.byte_of_N b)) blocks
      /\ Net.closed s' = Net.closed s.
Proof.
  induction blocks as [|block blocks IH]; intros i done s segss r Hok Hfrag Hrx Htx Hi.
  - inversion Hfrag; subst. cbn in Hrx. exists s. cbn. rewrite !app_nil_r. done.
  - cbn [map] in Hfrag. inversion Hfrag as [|? segs ? segss' Hsegs Hrest]; subst.
    inversion Hok as [|? ? [Ha Hl] Hok']; subst.
    cbn [concat] in Hrx. rewrite map_app, <- app_assoc in Hrx.
    destruct (reversed_carriable block Ha Hl) as [Hcarry Htext].
    destruct (exchange_answer (length done) block (rev (map Struct.byte_of_N block)) segs
                (map Net.Seg (concat segss') ++ r)
                (done ++ replicate (length (block :: blocks)) VNone) s
                Ha Hl Hcarry) as (s1 & Hstep & Hrx1 & Hsent1 & Htx1 & Hclosed1); try done.
    { rewrite length_app, length_replicate. cbn. lia. }
    cbn [Client.chunk_loop]. rewrite Hstep, Htext.
    rewrite insert_app_r_alt by lia. rewrite Nat.sub_diag.
    cbn [length replicate]. cbn [insert list_insert].
    change (done ++ VStr (rev block) :: replicate (length blocks) VNone)
      with (done ++ [VStr (rev block)] ++ replicate (length blocks) VNone).
    rewrite app_assoc.
    destruct (IH (S (length done)) (done ++ [VStr (rev block)]) s1 segss' r)
      as (s' & Hrun & Hrx' & Hsent' & Hclosed'); try done.
    { rewrite length_app. cbn. lia. }
    exists s'. rewrite Hrun, Hsent', Hsent1. cbn [map]. rewrite <- !app_assoc.
    repeat split; try done. congruence.
Qed.

(** ** The client against the server *)

Lemma split_facts draws content Lmin Lmax blocks :
  0 < Lmin <= Lmax ->
  Client.split draws content Lmin Lmax = Some blocks ->
  concat blocks = content /\ Forall (fun b : str => b <> []) blocks.
Proof.
  intros Hb Hsplit.
  destruct (split_loop_spec draws content Lmin Lmax Hb (length content) 0 0 [])
    as (bs & Hrun & Hcat & _ & Hblk); [lia..|].
  unfold Client.split in Hsplit. rewrite Hrun in Hsplit. injection Hsplit as <-.
  rewrite drop_0 in Hcat. split; [done|].
  apply Forall_lookup. intros i b Hi ->. destruct (Hblk i [] Hi) as [H _]. cbn in H. lia.
Qed.

Lemma length_concat_nonempty {A} (l : list (list A)) :
  Forall (fun b => b <> []) l -> length l <= length (concat l).
Proof.
  induction 1 as [|b l Hb _ IH]; [done|].
  cbn [concat length]. rewrite length_app. destruct b; [done|]. cbn. lia.
Qed.

Lemma blocks_sendable (blocks : list str) :
  forallb Client.printable (concat blocks) = true ->
  (N.of_nat (length (concat blocks)) < 4294967296)%N ->
  Forall sendable blocks.
Proof.
  induction blocks as [|b blocks IH]; intros Hp Hl; [constructor|].
  cbn [concat] in *. rewrite forallb_app in Hp. apply andb_true_iff in Hp as [Hb Hrest].
  rewrite length_app in Hl. constructor; [|apply IH; done || lia].
  split; [|lia]. apply forallb_forall. intros c Hc.
  rewrite forallb_forall in Hb. specialize (Hb c Hc).
  unfold Client.printable in Hb. apply andb_true_iff in Hb as [_ Hhi].
  apply N.leb_le in Hhi. apply N.ltb_lt. lia.
Qed.

Lemma encoded_carriable (block : str) :
  sendable block -> carriable (map Struct.byte_of_N block).
Proof.
  intros [Ha Hl]. split; [|by rewrite length_map].
  apply forallb_forall. intros x Hx. apply in_map_iff in Hx as (c & <- & Hc).
  rewrite forallb_forall in Ha. specialize (Ha c Hc).
  unfold Ascii7.is_ascii in *. apply N.ltb_lt in Ha. apply N.ltb_lt.
  rewrite to_N_byte_of_N, N.mod_small; lia.
Qed.

Lemma whole_message (tag len : N) (body : bytes) :
  fragments (Wire.frame tag len body) [Wire.frame tag len body].
Proof.
  split; [cbn; by rewrite app_nil_r|]. split; [by repeat constructor|]. cbn. lia.
Qed.

Lemma whole_messages (msgs : list bytes) :
  Forall (fun m => exists tag len body, m = Wire.frame tag len body) msgs ->
  Forall2 fragments msgs (map (fun m => [m]) msgs)
  /\ concat (map (fun m => [m]) msgs) = msgs.
Proof.
  induction 1 as [|m msgs (tag & len & body & ->) _ [IH1 IH2]]; [by split; constructor|].
  split; [constructor; [apply whole_message|done]|]. cbn. by rewrite IH2.
Qed.

Lemma sendall_fresh b r :
  Net.sendall (Some b) (Net.fresh r [])
  = (Ok tt, {| Net.rx := r; Net.tx := []; Net.sent := [b]; Net.closed := false |}).
Proof. reflexivity. Qed.

(** The server fed with what the client sends, and the client fed with
    what the server sends, one segment per send: the server completes all
    blocks, the client has sent the Init and one Request per block, and
    writes the reversed blocks in the order of the blocks. *)
Lemma run_against_server draws a content :
  valid_args a content ->
  (N.of_nat (length content) < 4294967296)%N ->
  exists blocks fl' srv cli,
    Client.split draws content (Z.to_nat (Client.Lmin a)) (Z.to_nat (Client.Lmax a))
      = Some blocks
    /\ Server.session []
         (Net.fresh
            (map Net.Seg
               (Wire.Init (N.of_nat (length blocks))
                  :: map (fun b => Wire.Request (map Struct.byte_of_N b)) blocks)) [])
       = Some (Server.Completed, length blocks, fl', srv)
    /\ Net.sent srv
       = Wire.Agree :: map (fun b => Wire.Answer (rev (map Struct.byte_of_N b))) blocks
    /\ Client.main draws a None (Net.fresh (map Net.Seg (Net.sent srv)) [])
       = Some (Client.Returned (Some (concat (map (@rev N) blocks))), cli)
    /\ Net.sent cli
       = Wire.Init (N.of_nat (length blocks))
           :: map (fun b => Wire.Request (map Struct.byte_of_N b)) blocks.
Proof.
  intros Hvalid Hlen.
  destruct (split_total draws content (Z.to_nat (Client.Lmin a)) (Z.to_nat (Client.Lmax a)))
    as (blocks & Hsplit); [destruct Hvalid as (_ & ? & _); lia|].
  destruct (main_valid draws a content None
              (Net.fresh (map Net.Seg
                 (Wire.Agree
                    :: map (fun b => Wire.Answer (rev (map Struct.byte_of_N b))) blocks)) [])
              Hvalid) as (blocks' & Hsplit' & Hmain).
  assert (blocks' = blocks) as -> by congruence.
  destruct Hvalid as (_ & Hl & _ & Hprint).
  destruct (split_facts draws content (Z.to_nat (Client.Lmin a)) (Z.to_nat (Client.Lmax a))
              blocks) as [Hcat Hne]; [lia|done|].
  pose proof (length_concat_nonempty blocks Hne) as Hcount. rewrite Hcat in Hcount.
  assert (Hsend : Forall sendable blocks) by (apply blocks_sendable; by rewrite Hcat).
  set (n := N.of_nat (length blocks)) in *.
  set (payloads := map (map Struct.byte_of_N) blocks).
  assert (Hn : (n < 4294967296)%N).
  { unfold n. change (@length str blocks) with (@length (list N) blocks). lia. }
  (* the server *)
  destruct (whole_messages (map Wire.Request payloads)) as [Hfrag Hconcat].
  { apply List.Forall_forall. intros m Hm. apply in_map_iff in Hm as (p & <- & _).
    by exists REVERSE_REQUEST, (N.of_nat (length p)), p. }
  destruct (session_serves_requests n payloads
              (map (fun m => [m]) (map Wire.Request payloads)) 0 []
              (Net.fresh (map Net.Seg (Wire.Init n :: map Wire.Request payloads)) []) [])
    as (fl' & srv & Hsession & Hsent & _ & _); try done.
  { unfold n, payloads. rewrite length_map, Nat2N.id. symmetry. apply Nat.add_0_r. }
  { unfold payloads. apply List.Forall_forall. intros p Hp.
    apply in_map_iff in Hp as (b & <- & Hb). apply encoded_carriable.
    rewrite List.Forall_forall in Hsend. by apply Hsend. }
  { cbn [Net.rx Net.fresh map]. by rewrite Hconcat, app_nil_r. }
  cbn [Server.serve_blocks] in Hsession.
  unfold payloads in Hsession, Hsent. rewrite !map_map in Hsent.
  rewrite length_map, map_map in Hsession. cbn [Net.fresh Net.sent app] in Hsent.
  (* the client *)
  destruct (whole_messages (map (fun b => Wire.Answer (rev (map Struct.byte_of_N b))) blocks))
    as [Hfrag' Hconcat'].
  { apply List.Forall_forall. intros m Hm. apply in_map_iff in Hm as (b & <- & _).
    by eexists REVERSE_ANSWER, _, _. }
  destruct (chunk_loop_answers blocks 0 []
              {| Net.rx := map Net.Seg
                             (map (fun b => Wire.Answer (rev (map Struct.byte_of_N b))) blocks);
                 Net.tx := []; Net.sent := [Wire.Init n]; Net.closed := false |}
              _ [] Hsend Hfrag')
    as (cli & Hloop & _ & Hsent' & _); try done.
  { cbn [Net.rx]. by rewrite Hconcat', app_nil_r. }
  cbn [app Net.sent] in Hloop, Hsent'.
  exists blocks, fl', srv, (Net.close cli).
  split; [done|]. split; [done|]. split; [done|]. split; [|done].
  rewrite Hsent, Hmain. unfold Client.converse. fold n.
  rewrite client_create_init, sendall_fresh by done.
  cbn [map]. erewrite recv_seg; [|reflexivity|cbn; lia].
  change (length Wire.Agree <? 2) with false. cbn iota.
  rewrite client_parse_agree. cbn [is_type AGREE N.eqb Pos.eqb negb].
  unfold Net.set_rx. cbn [Net.rx Net.tx Net.sent Net.closed].
  rewrite Hloop.
  rewrite <- (app_nil_r (map VStr _)).
  change (@nil value) with (replicate 0 VNone) at 1.
  rewrite forallb_results. cbn [replicate]. rewrite app_nil_r.
  by rewrite write_blocks_results.
Qed.

(** *** What the client writes *)







(** ** The model on concrete runs *)

(** A peer that connects and closes at once, under the late registration:
    the worker leaves at the short initialization read, and the thread
    registry ends up holding thread 9. *)
Example peer_closes_at_once :
  Dispatcher.run 7 9
    [Dispatcher.Main; Dispatcher.Worker; Dispatcher.Worker; Dispatcher.Worker;
     Dispatcher.Main]
    (Dispatcher.accepted
       {| Server.client_threads := []; Server.client_connections := [] |}
       [] (Net.fresh [] []))
  = Some {| Dispatcher.registries :=
              {| Server.client_threads := [9]; Server.client_connections := [] |};
            Dispatcher.mpc := Dispatcher.Registered;
            Dispatcher.wpc := Dispatcher.Terminated Server.InitIncomplete;
            Dispatcher.sock := Net.close (Net.fresh [] []);
            Dispatcher.flag_reads := [] |}.
Proof. reflexivity. Qed.

(** Six bytes with an unknown tag get no reply. *)
Example unknown_tag_gets_no_reply :
  Server.handle_client 7 9 [] (Net.fresh [Net.Seg Scenario.unknown_tag] [])
    {| Server.client_threads := [9]; Server.client_connections := [] |}
  = Some (Server.InitInvalid, Net.close (Net.fresh [] []),
          {| Server.client_threads := []; Server.client_connections := [] |}).
Proof. reflexivity. Qed.

(** A Request with a byte above 127 ends the session in the exception
    handler, after the Agree and without an Answer. *)
Example non_ascii_request_fails :
  exists s',
    Server.session [] (Net.fresh [Net.Seg (Wire.Init 1);
                                  Net.Seg (Wire.Request Scenario.high_byte)] [])
    = Some (Server.Excepted UnicodeDecodeError, 0, [], s')
    /\ Net.sent s' = [Wire.Agree].
Proof. by eexists. Qed.

(** The shutdown flag found cleared at the second block: one Answer is
    sent, the second Request is left unread. *)
Example shutdown_between_blocks :
  exists s',
    Server.session [true; true; false]
      (Net.fresh [Net.Seg (Wire.Init 2);
                  Net.Seg (Wire.Request (Scenario.ascii_bytes "ab"));
                  Net.Seg (Wire.Request (Scenario.ascii_bytes "cd"))] [])
    = Some (Server.ShuttingDown, 1, [], s')
    /\ Net.sent s' = [Wire.Agree; Wire.Answer (Scenario.ascii_bytes "ba")]
    /\ Net.rx s' = [Net.Seg (Wire.Request (Scenario.ascii_bytes "cd"))].
Proof. by eexists. Qed.

(** An Answer whose header arrives in two pieces makes the client give
    up on the block (the header is read by a single [recv(6)]), although
    all its bytes do arrive. *)
Example split_header_fails_the_run :
  exists s',
    Client.main (fun _ => 0) (Scenario.args_5_5 (str_of_string "hello")) None
      (Net.fresh [Net.Seg Wire.Agree;
                  Net.Seg (take 3 (Wire.Answer (Scenario.ascii_bytes "olleh")));
                  Net.Seg (drop 3 (Wire.Answer (Scenario.ascii_bytes "olleh")))] [])
    = Some (Client.Returned None, s').
Proof. by eexists. Qed.

(** A receive timeout while waiting for the Agree: the Init is all that
    was sent. *)
Example agree_timeout :
  exists s',
    Client.main (fun _ => 0) (Scenario.args_5_5 Scenario.hello_world) None
      (Net.fresh [Net.RxRaise socket_timeout] [])
    = Some (Client.Returned None, s')
    /\ Net.sent s' = [Wire.Init 3].
Proof. by eexists. Qed.

(** * Further properties of the two programs *)

(** ** What a session reads and what it sends *)

Lemma recv_stream n s r s' :
  Net.recv n s = (r, s') ->
  byte_stream (Net.rx s)
  = match r with Ok data => data | Raise _ => [] end ++ byte_stream (Net.rx s').
Proof.
  unfold Net.recv. destruct (Net.rx s) as [|[b|e] rest] eqn:E.
  - intros [= <- <-]. by rewrite E.
  - destruct (length b <=? n); intros [= <- <-]; cbn; [done|].
    by rewrite app_assoc, take_drop.
  - by intros [= <- <-].
Qed.

(** The server's receive loop only ever appends what it reads, and
    never reads beyond the declared length. *)
Lemma recv_text_data_inv fuel :
  forall length_ text_data fl s r fl' s',
    Server.recv_text_data fuel length_ text_data fl s = Some (r, fl', s') ->
    length text_data <= length_ ->
    Net.sent s' = Net.sent s /\ Net.tx s' = Net.tx s /\ Net.closed s' = Net.closed s
    /\ match r with
       | Ok text_data' =>
           exists got, text_data' = text_data ++ got /\ length text_data' <= length_
             /\ byte_stream (Net.rx s) = got ++ byte_stream (Net.rx s')
       | Raise _ => True
       end.
Proof.
  induction fuel as [|fuel IH]; intros length_ text_data fl s r fl' s' Hrun Hle;
    cbn [Server.recv_text_data] in Hrun;
    destruct (Nat.ltb_spec (length text_data) length_) as [Hlt|Hge]; try done;
    try (injection Hrun as <- <- <-; repeat split; try done;
         exists []; by rewrite app_nil_r).
  destruct (Server.read_flag fl) as [[|] fl1].
  2:{ injection Hrun as <- <- <-. repeat split; try done. exists []. by rewrite app_nil_r. }
  destruct (Net.recv (length_ - length text_data) s) as [[chunk|e] s1] eqn:Hrecv.
  2:{ injection Hrun as <- <- <-. apply recv_frame in Hrecv as (? & ? & ?). done. }
  pose proof (recv_frame _ _ _ _ Hrecv) as (Hs & Ht & Hc).
  pose proof (recv_length _ _ _ _ Hrecv) as Hlen.
  pose proof (recv_stream _ _ _ _ Hrecv) as Hstream. cbn beta iota in Hstream.
  destruct chunk as [|x chunk].
  { injection Hrun as <- <- <-. repeat split; try done. exists []. by rewrite app_nil_r. }
  apply IH in Hrun as (Hs' & Ht' & Hc' & Hr); [|rewrite length_app; lia].
  repeat split; try congruence.
  destruct r as [text_data'|e]; [|done].
  destruct Hr as (got & -> & Hle' & Hgot).
  exists ((x :: chunk) ++ got). rewrite Hstream, Hgot, !app_assoc. done.
Qed.

(** One iteration of the server's loop, read backwards from its result:
    an iteration that goes on has taken exactly one Request frame off the
    byte stream and sent the Answer to it; an iteration that stops has
    sent nothing. *)
Lemma serve_block_inv fl s st fl' s' :
  Server.serve_block fl s = Some (st, fl', s') ->
  Net.closed s' = Net.closed s
  /\ match st with
     | Server.Next =>
         exists payload, carriable payload
           /\ byte_stream (Net.rx s) = Wire.Request payload ++ byte_stream (Net.rx s')
           /\ Net.sent s' = Net.sent s ++ [answer_to payload]
     | Server.Stop p => Net.sent s' = Net.sent s /\ p <> Server.Completed
     end.
Proof.
  unfold Server.serve_block.
  destruct (Server.read_flag fl) as [[|] fl1]; [|by intros [= <- <- <-]].
  destruct (Net.recv 6 s) as [[header|e] s1] eqn:Hrecv;
    pose proof (recv_frame _ _ _ _ Hrecv) as (Hs1 & Ht1 & Hc1);
    [|by intros [= <- <- <-]].
  pose proof (recv_length _ _ _ _ Hrecv) as Hlen.
  pose proof (recv_stream _ _ _ _ Hrecv) as Hstream. cbn beta iota in Hstream.
  destruct (Nat.ltb_spec (length header) 6) as [Hshort|Hfull]; [by intros [= <- <- <-]|].
  destruct header as [|t1 [|t0 [|i3 [|i2 [|i1 [|i0 [|]]]]]]]; cbn in Hlen, Hfull; try lia.
  rewrite slice_2_6.
  destruct (Struct.unpack_I [i3; i2; i1; i0]) as [len|e] eqn:Hl; [|by intros [= <- <- <-]].
  destruct (Server.recv_text_data (N.to_nat len) (N.to_nat len) [] fl1 s1)
    as [[[r fl2] s2]|] eqn:Hbody; [|done].
  apply recv_text_data_inv in Hbody as (Hs2 & Ht2 & Hc2 & Hr); [|cbn; lia].
  destruct r as [text_data|e]; [|intros [= <- <- <-]; split; [|split]; congruence].
  destruct Hr as (got & Hgot & Hle & Hstream2). cbn [app] in Hgot. subst got.
  destruct (Nat.ltb_spec (length text_data) (N.to_nat len)) as [Hlt|Hge];
    [intros [= <- <- <-]; split; [|split]; congruence|].
  assert (Hlen' : len = N.of_nat (length text_data)) by lia.
  destruct (Struct.unpack_H [t1; t0]) as [tag|] eqn:Ht; [|done].
  cbn [app]. rewrite (server_parse_six _ _ _ _ _ _ text_data tag len Ht Hl).
  apply unpack_H_inv in Ht as [_ Htag]. apply unpack_I_inv in Hl as [Hbound Hlenb].
  destruct (N.eqb_spec tag INITIALIZATION) as [->|_].
  { cbn [is_type negb N.eqb INITIALIZATION REVERSE_REQUEST Pos.eqb].
    intros [= <- <- <-]. split; [|split]; congruence. }
  destruct (N.eqb_spec tag REVERSE_REQUEST) as [->|Hne].
  2:{ cbn [is_type negb]. intros [= <- <- <-]. split; [|split]; congruence. }
  rewrite Hlen', N.leb_refl, Nat2N.id, firstn_all.
  destruct (forallb (fun x => Ascii7.is_ascii (Byte.to_N x)) text_data) eqn:Hascii.
  2:{ rewrite (decode_non_ascii _ Hascii). cbn [bind].
      intros [= <- <- <-]. split; [|split]; congruence. }
  destruct (decode_ascii_bytes text_data Hascii) as [Hdec Henc].
  rewrite Hdec. cbn [bind is_type N.eqb REVERSE_REQUEST Pos.eqb negb Server.reverse_text].
  rewrite Henc. cbn [bind].
  rewrite server_create_answer by (rewrite length_rev; lia).
  destruct (Net.send (Some (Wire.Answer (rev text_data))) s2) as [[[]|e] s3] eqn:Hsend.
  - apply send_ok_inv in Hsend as (b & [= <-] & Hsent3 & Hrx3 & Hc3).
    intros [= <- <- <-]. split; [congruence|].
    exists text_data. split; [split; [done|lia]|]. split.
    + rewrite Hstream, Hstream2, Hrx3.
      change (Wire.Request text_data)
        with ((Wire.be16 REVERSE_REQUEST ++ Wire.be32 (N.of_nat (length text_data)))
                ++ text_data).
      rewrite <- Hlen'. unfold Wire.be16 in Htag. injection Htag as <- <-.
      unfold Wire.be32 in Hlenb. injection Hlenb as <- <- <- <-.
      by rewrite <- app_assoc.
    + unfold answer_to. congruence.
  - apply send_raise_inv in Hsend as (Hsent3 & _ & Hc3).
    intros [= <- <- <-]. split; [|split]; congruence.
Qed.

Lemma serve_blocks_inv todo :
  forall block_index fl s p k fl' s',
    Server.serve_blocks todo block_index fl s = Some (p, k, fl', s') ->
    exists payloads rest,
      k = block_index + length payloads
      /\ length payloads <= todo
      /\ Forall carriable payloads
      /\ byte_stream (Net.rx s) = concat (map Wire.Request payloads) ++ rest
      /\ Net.sent s' = Net.sent s ++ map answer_to payloads
      /\ Net.closed s' = Net.closed s
      /\ (p = Server.Completed <-> length payloads = todo)
      /\ (p = Server.Completed -> rest = byte_stream (Net.rx s')).
Proof.
  induction todo as [|todo IH]; intros i fl s p k fl' s' Hrun;
    cbn [Server.serve_blocks] in Hrun.
  - injection Hrun as <- <- <- <-. exists [], (byte_stream (Net.rx s)). cbn.
    rewrite app_nil_r. repeat split; auto.
  - destruct (Server.serve_block fl s) as [[[st fl1] s1]|] eqn:Hstep; [|done].
    apply serve_block_inv in Hstep as (Hc & Hst).
    destruct st as [|q].
    + destruct Hst as (payload & Hok & Hstream & Hsent).
      apply IH in Hrun
        as (payloads & rest & -> & Hlen & Hall & Hstream' & Hsent' & Hc' & Hp & Hrest).
      exists (payload :: payloads), rest. cbn [length map concat].
      split; [lia|]. split; [lia|]. split; [by constructor|]. split.
      { by rewrite Hstream, Hstream', <- app_assoc. }
      split. { by rewrite Hsent', Hsent, <- app_assoc. }
      split; [congruence|]. split; [rewrite Hp; lia|done].
    + destruct Hst as (Hsent & Hq). injection Hrun as <- <- <- <-.
      exists [], (byte_stream (Net.rx s)). cbn. rewrite app_nil_r.
      split; [lia|]. split; [lia|]. split; [constructor|]. split; [done|].
      split; [done|]. split; [done|]. split; [|done]. split; [done|lia].
Qed.

Lemma session_inv fl s p k fl' s' :
  Server.session fl s = Some (p, k, fl', s') ->
  Net.closed s' = Net.closed s
  /\ ((Net.sent s' = Net.sent s /\ k = 0 /\ p <> Server.Completed)
      \/ exists n payloads rest,
           byte_stream (Net.rx s)
           = Wire.Init n ++ concat (map Wire.Request payloads) ++ rest
           /\ Forall carriable payloads
           /\ k = length payloads /\ length payloads <= N.to_nat n
           /\ Net.sent s' = Net.sent s ++ Wire.Agree :: map answer_to payloads
           /\ (p = Server.Completed <-> length payloads = N.to_nat n)
           /\ (p = Server.Completed -> rest = byte_stream (Net.rx s'))).
Proof.
  unfold Server.session.
  destruct (Net.recv 6 s) as [[data|e] s1] eqn:Hrecv;
    pose proof (recv_frame _ _ _ _ Hrecv) as (Hs1 & Ht1 & Hc1).
  2:{ intros [= <- <- <- <-]. split; [done|]. by left. }
  pose proof (recv_length _ _ _ _ Hrecv) as Hlen.
  pose proof (recv_stream _ _ _ _ Hrecv) as Hstream. cbn beta iota in Hstream.
  destruct (Nat.ltb_spec (length data) 6) as [Hshort|Hfull].
  { intros [= <- <- <- <-]. split; [done|]. by left. }
  destruct (Server.parse_packet data) as [[packet_type n_blocks]|e] eqn:Hparse.
  2:{ intros [= <- <- <- <-]. split; [done|]. by left. }
  destruct (is_type packet_type INITIALIZATION) eqn:Htype; cbn [negb].
  2:{ intros [= <- <- <- <-]. split; [done|]. by left. }
  destruct packet_type as [t|]; [|done]. cbn in Htype. apply N.eqb_eq in Htype. subst t.
  destruct (server_parse_init_inv data n_blocks) as (n & Hn & ->); [lia|done|].
  unfold Wire.Init in Hparse.
  rewrite server_parse_frame in Hparse by (done || unfold INITIALIZATION; lia).
  injection Hparse as <-.
  rewrite server_create_agree.
  destruct (Net.send (Some Wire.Agree) s1) as [[[]|e] s2] eqn:Hsend.
  - apply send_ok_inv in Hsend as (b & [= <-] & Hsent2 & Hrx2 & Hc2).
    intros Hrun.
    apply serve_blocks_inv in Hrun
      as (payloads & rest & -> & Hle & Hall & Hst & Hsent & Hc & Hp & Hrest).
    split; [congruence|]. right. exists n, payloads, rest.
    split. { by rewrite Hstream, <- Hrx2, Hst. }
    split; [done|]. split; [done|]. split; [done|]. split; [|done].
    by rewrite Hsent, Hsent2, Hs1, <- app_assoc.
  - apply send_raise_inv in Hsend as (Hsent2 & _ & Hc2).
    intros [= <- <- <- <-]. split; [congruence|]. left. split; [congruence|done].
Qed.

(** X1.  What a session has sent is accounted for by what has arrived.
    Of a session that is left (every [recv] of it has returned: the
    accepted socket has no timeout, and nothing is said here of a worker
    that a silent peer keeps waiting), whatever arrived, in whatever
    segments, and whatever the flag reads and the sends did: either it
    has sent nothing and answered no block, or the incoming bytes begin
    with an Init{n} followed by [k <= n] Requests with ASCII payloads, and
    it has sent Agree followed by exactly one Answer per Request, in
    order, each the reversal of its Request's payload.  The loop is
    completed exactly when [k = n], and then nothing beyond these
    messages has been read. *)
Theorem session_sound (fl : list bool) (s : Net.socket) (p : Server.exit_path)
    (k : nat) (fl' : list bool) (s' : Net.socket) :
  Server.session fl s = Some (p, k, fl', s') ->
  (Net.sent s' = Net.sent s /\ k = 0 /\ p <> Server.Completed)
  \/ exists n payloads rest,
       byte_stream (Net.rx s)
       = Wire.Init n ++ concat (map Wire.Request payloads) ++ rest
       /\ Forall carriable payloads
       /\ k = length payloads /\ length payloads <= N.to_nat n
       /\ Net.sent s' = Net.sent s ++ Wire.Agree :: map answer_to payloads
       /\ (p = Server.Completed <-> length payloads = N.to_nat n)
       /\ (p = Server.Completed -> rest = byte_stream (Net.rx s')).
Proof.
  intros Hrun. by apply session_inv in Hrun as [_ H].
Qed.

Lemma session_sound_witness :
  exists p k fl' s',
    Server.session [] Scenario.server_socket = Some (p, k, fl', s')
    /\ ((Net.sent s' = Net.sent Scenario.server_socket /\ k = 0 /\ p <> Server.Completed)
        \/ exists n payloads rest,
             byte_stream (Net.rx Scenario.server_socket)
             = Wire.Init n ++ concat (map Wire.Request payloads) ++ rest
             /\ Forall carriable payloads
             /\ k = length payloads /\ length payloads <= N.to_nat n
             /\ Net.sent s'
                = Net.sent Scenario.server_socket ++ Wire.Agree :: map answer_to payloads
             /\ (p = Server.Completed <-> length payloads = N.to_nat n)
             /\ (p = Server.Completed -> rest = byte_stream (Net.rx s'))).
Proof.
  eexists _, _, _, _. split; [vm_compute; reflexivity|].
  eapply (session_sound [] Scenario.server_socket). vm_compute. reflexivity.
Defined.

(** ** Shutdown seen by a worker *)

(** The flag reads of the receive loop: either every read saw the flag
    set, or the read that saw it cleared ended the loop with the payload
    incomplete. *)
Lemma recv_text_data_flags fuel :
  forall length_ text_data j rest s r fl' s',
    Server.recv_text_data fuel length_ text_data (replicate j true ++ false :: rest) s
      = Some (r, fl', s') ->
    (exists c, c <= j /\ fl' = replicate (j - c) true ++ false :: rest)
    \/ (exists text_data', r = Ok text_data' /\ length text_data' < length_).
Proof.
  induction fuel as [|fuel IH]; intros length_ text_data j rest s r fl' s' Hrun;
    cbn [Server.recv_text_data] in Hrun;
    destruct (Nat.ltb_spec (length text_data) length_) as [Hlt|Hge]; try done;
    try (injection Hrun as <- <- <-; left; exists 0;
         split; [lia|by rewrite Nat.sub_0_r]).
  destruct j as [|j]; cbn [replicate app Server.read_flag] in Hrun.
  { injection Hrun as <- <- <-. right. by exists text_data. }
  assert (Hone : exists c, c <= S j
            /\ replicate j true ++ false :: rest
               = replicate (S j - c) true ++ false :: rest).
  { exists 1. split; [lia|]. by replace (S j - 1) with j by lia. }
  destruct (Net.recv (length_ - length text_data) s) as [[[|x chunk]|e] s1].
  - injection Hrun as <- <- <-. by left.
  - apply IH in Hrun as [(c & Hc & ->)|Hshort]; [left|by right].
    exists (S c). split; [lia|]. by replace (S j - S c) with (j - c) by lia.
  - injection Hrun as <- <- <-. by left.
Qed.

(** An iteration that answers a block has read the flag at least once,
    and only ever seen it set. *)
Lemma serve_block_flags j rest s fl' s' :
  Server.serve_block (replicate j true ++ false :: rest) s = Some (Server.Next, fl', s') ->
  exists c, 1 <= c <= j /\ fl' = replicate (j - c) true ++ false :: rest.
Proof.
  unfold Server.serve_block.
  destruct j as [|j]; cbn [replicate app Server.read_flag]; [done|].
  destruct (Net.recv 6 s) as [[header|e] s1]; [|done].
  destruct (length header <? 6); [done|].
  destruct (Struct.unpack_I (slice header 2 6)) as [len|e]; [|done].
  destruct (Server.recv_text_data (N.to_nat len) (N.to_nat len) [] (replicate j true ++ false :: rest) s1)
    as [[[r fl2] s2]|] eqn:Hbody; [|done].
  apply recv_text_data_flags in Hbody.
  destruct r as [text_data|e]; [|done].
  destruct (Nat.ltb_spec (length text_data) (N.to_nat len)) as [Hlt|Hge]; [done|].
  destruct Hbody as [(c & Hc & ->)|(td & [= <-] & Hshort)]; [|lia].
  destruct (Server.parse_packet (header ++ text_data)) as [[packet_type text]|e]; [|done].
  destruct (negb (is_type packet_type REVERSE_REQUEST)); [done|].
  destruct (let? reversed_text := Server.reverse_text text in
            Server.create_packet REVERSE_ANSWER (VBytes reversed_text)) as [answer|e];
    [|done].
  destruct (Net.send answer s2) as [[[]|e] s3]; [|done].
  intros [= <- <-]. exists (S c). split; [lia|].
  by replace (S j - S c) with (j - c) by lia.
Qed.

Lemma serve_blocks_flags todo :
  forall block_index j rest s p k fl' s',
    Server.serve_blocks todo block_index (replicate j true ++ false :: rest) s
      = Some (p, k, fl', s') ->
    k <= block_index + j /\ (p = Server.Completed -> todo <= j).
Proof.
  induction todo as [|todo IH]; intros i j rest s p k fl' s' Hrun;
    cbn [Server.serve_blocks] in Hrun.
  - injection Hrun as <- <- <- <-. split; lia.
  - destruct (Server.serve_block (replicate j true ++ false :: rest) s)
      as [[[[|q] fl1] s1]|] eqn:Hstep; [| |done].
    + apply serve_block_flags in Hstep as (c & Hc & ->).
      apply IH in Hrun as (Hk & Hp). split; [lia|]. intros H. specialize (Hp H). lia.
    + apply serve_block_inv in Hstep as (_ & _ & Hq).
      injection Hrun as <- <- <- <-. split; [lia|done].
Qed.

(** X2.  When the worker's reads of [server_running] see it set [j]
    times and cleared at the next read, the session answers at most [j]
    blocks: it sends at most Agree and [j] Answers, and the loop is
    completed only if the Init asked for at most [j] blocks. *)
Theorem shutdown_bounds_session (j : nat) (rest : list bool) (s : Net.socket) :
  exists p k fl' s' more,
    Server.session (replicate j true ++ false :: rest) s = Some (p, k, fl', s')
    /\ k <= j
    /\ Net.sent s' = Net.sent s ++ more
    /\ length more <= S j
    /\ (p = Server.Completed ->
        exists n, take 6 (byte_stream (Net.rx s)) = Wire.Init n /\ N.to_nat n <= j).
Proof.
  destruct (session_total (replicate j true ++ false :: rest) s)
    as (p & k & fl' & s' & more0 & Hrun & _).
  assert (Hk : k <= j).
  { revert Hrun. unfold Server.session.
    destruct (Net.recv 6 s) as [[data|e] s1]; [|intros [= <- <- <- <-]; lia].
    destruct (length data <? 6); [intros [= <- <- <- <-]; lia|].
    destruct (Server.parse_packet data) as [[packet_type n_blocks]|e];
      [|intros [= <- <- <- <-]; lia].
    destruct (negb (is_type packet_type INITIALIZATION)); [intros [= <- <- <- <-]; lia|].
    destruct (Server.create_packet AGREE VNone) as [agree|e];
      [|intros [= <- <- <- <-]; lia].
    destruct (Net.send agree s1) as [[[]|e] s2]; [|intros [= <- <- <- <-]; lia].
    destruct n_blocks as [|n| |]; try (intros [= <- <- <- <-]; lia).
    intros Hrun. by apply serve_blocks_flags in Hrun as [Hk _]. }
  destruct (session_inv _ _ _ _ _ _ Hrun)
    as (_ & [(Hsent & -> & Hp)|(n & payloads & tl & Hst & _ & -> & Hle & Hsent & Hp & _)]).
  - exists p, 0, fl', s', []. rewrite app_nil_r. cbn [length].
    split; [done|]. split; [lia|]. split; [done|]. split; [lia|done].
  - exists p, (length payloads), fl', s', (Wire.Agree :: map answer_to payloads).
    split; [done|]. split; [done|]. split; [done|]. split.
    + cbn [length]. rewrite length_map. lia.
    + intros Hdone. exists n. split; [|apply Hp in Hdone; lia].
      rewrite Hst. by rewrite take_app_length' by done.
Qed.

(** ** What the client reads and what it sends *)

Lemma client_create_request_overflow payload :
  (4294967296 <= N.of_nat (length payload))%N ->
  Client.create_packet REVERSE_REQUEST (VBytes payload) = Raise struct_error.
Proof.
  intros H. unfold Client.create_packet, Struct.pack_HI.
  cbn [N.eqb INITIALIZATION REVERSE_REQUEST Pos.eqb].
  change (Struct.pack_H 3) with (Ok (Wire.be16 3)). cbn [bind].
  by rewrite pack_I_overflow.
Qed.

(** The client's receive loop only ever appends what it reads, and
    never reads beyond the announced length. *)
Lemma recv_reversed_data_inv fuel :
  forall length_ reversed_data s r s',
    Client.recv_reversed_data fuel length_ reversed_data s = Some (r, s') ->
    length reversed_data <= length_ ->
    Net.sent s' = Net.sent s /\ Net.closed s' = Net.closed s
    /\ match r with
       | Ok reversed_data' =>
           exists got, reversed_data' = reversed_data ++ got
             /\ length reversed_data' <= length_
             /\ byte_stream (Net.rx s) = got ++ byte_stream (Net.rx s')
       | Raise _ => True
       end.
Proof.
  induction fuel as [|fuel IH]; intros length_ rd s r s' Hrun Hle;
    cbn [Client.recv_reversed_data] in Hrun;
    destruct (Nat.ltb_spec (length rd) length_) as [Hlt|Hge]; try done;
    try (injection Hrun as <- <-; repeat split; try done;
         exists []; by rewrite app_nil_r).
  destruct (Net.recv (length_ - length rd) s) as [[chunk|e] s1] eqn:Hrecv.
  2:{ injection Hrun as <- <-. apply recv_frame in Hrecv as (? & ? & ?). done. }
  pose proof (recv_frame _ _ _ _ Hrecv) as (Hs & Ht & Hc).
  pose proof (recv_length _ _ _ _ Hrecv) as Hlen.
  pose proof (recv_stream _ _ _ _ Hrecv) as Hstream. cbn beta iota in Hstream.
  destruct chunk as [|x chunk].
  { injection Hrun as <- <-. repeat split; try done. exists []. by rewrite app_nil_r. }
  apply IH in Hrun as (Hs' & Hc' & Hr); [|rewrite length_app; lia].
  repeat split; try congruence.
  destruct r as [rd'|e]; [|done].
  destruct Hr as (got & -> & Hle' & Hgot).
  exists ((x :: chunk) ++ got). rewrite Hstream, Hgot, !app_assoc. done.
Qed.

Ltac broke_after_send :=
  intros [= <- <- <-]; split; [congruence|]; split; [done|];
  right; split; [done|]; unfold request_of; congruence.

(** One exchange, read backwards from its result: an exchange that goes
    on has sent the Request for its block, taken exactly one Answer frame
    off the byte stream and stored its payload at index [i]; an exchange
    that breaks has stored nothing. *)
Lemma exchange_inv i block reversed_blocks s c reversed_blocks' s' :
  Client.exchange i block reversed_blocks s = Some (c, reversed_blocks', s') ->
  Net.closed s' = Net.closed s
  /\ match c with
     | Continue =>
         sendable block
         /\ Net.sent s' = Net.sent s ++ [request_of block]
         /\ i < length reversed_blocks
         /\ exists payload, carriable payload
              /\ byte_stream (Net.rx s) = Wire.Answer payload ++ byte_stream (Net.rx s')
              /\ reversed_blocks' = <[i:=VStr (map Byte.to_N payload)]> reversed_blocks
     | Break =>
         reversed_blocks' = reversed_blocks
         /\ (Net.sent s' = Net.sent s
             \/ (sendable block /\ Net.sent s' = Net.sent s ++ [request_of block]))
     end.
Proof.
  unfold Client.exchange.
  destruct (forallb Ascii7.is_ascii block) eqn:Hascii.
  2:{ unfold Ascii7.encode. rewrite Hascii. cbn [bind].
      intros [= <- <- <-]. split; [done|]. split; [done|]. by left. }
  rewrite (encode_ascii block Hascii). cbn [bind].
  destruct (N.lt_ge_cases (N.of_nat (length block)) 4294967296) as [Hfit|Hbig].
  2:{ rewrite client_create_request_overflow by (rewrite length_map; lia).
      intros [= <- <- <-]. split; [done|]. split; [done|]. by left. }
  rewrite client_create_request by (rewrite length_map; lia).
  assert (Hok : sendable block) by done.
  destruct (Net.sendall (Some (Wire.Request (map Struct.byte_of_N block))) s)
    as [[[]|e] s1] eqn:Hsend.
  2:{ apply send_raise_inv in Hsend as (Hs & _ & Hc).
      intros [= <- <- <-]. split; [done|]. split; [done|]. by left. }
  apply send_ok_inv in Hsend as (b & [= <-] & Hsent1 & Hrx1 & Hc1).
  destruct (Net.recv 6 s1) as [[header|e] s2] eqn:Hrecv;
    pose proof (recv_frame _ _ _ _ Hrecv) as (Hs2 & Ht2 & Hc2);
    [|broke_after_send].
  pose proof (recv_length _ _ _ _ Hrecv) as Hlen.
  pose proof (recv_stream _ _ _ _ Hrecv) as Hstream. cbn beta iota in Hstream.
  destruct (Nat.ltb_spec (length header) 6) as [Hshort|Hfull]; [broke_after_send|].
  destruct header as [|t1 [|t0 [|i3 [|i2 [|i1 [|i0 [|]]]]]]]; cbn in Hlen, Hfull; try lia.
  rewrite slice_2_6.
  destruct (Struct.unpack_I [i3; i2; i1; i0]) as [len|e] eqn:Hl; [|broke_after_send].
  destruct (Client.recv_reversed_data (N.to_nat len) (N.to_nat len) [] s2)
    as [[r s3]|] eqn:Hbody; [|done].
  apply recv_reversed_data_inv in Hbody as (Hs3 & Hc3 & Hr); [|cbn; lia].
  destruct r as [reversed_data|e]; [|broke_after_send].
  destruct Hr as (got & Hgot & Hle & Hstream2). cbn [app] in Hgot. subst got.
  destruct (Nat.ltb_spec (length reversed_data) (N.to_nat len)) as [Hlt|Hge];
    [broke_after_send|].
  assert (Hlen' : len = N.of_nat (length reversed_data)) by lia.
  destruct (Struct.unpack_H [t1; t0]) as [tag|] eqn:Ht; [|done].
  cbn [app]. rewrite (client_parse_six _ _ _ _ _ _ reversed_data tag len Ht Hl).
  apply unpack_H_inv in Ht as [_ Htag]. apply unpack_I_inv in Hl as [Hbound Hlenb].
  destruct (N.eqb_spec tag AGREE) as [->|_].
  { cbn [is_type negb N.eqb AGREE REVERSE_ANSWER Pos.eqb]. broke_after_send. }
  destruct (N.eqb_spec tag REVERSE_ANSWER) as [->|Hne].
  2:{ cbn [is_type negb]. broke_after_send. }
  rewrite Hlen', N.leb_refl, Nat2N.id, firstn_all.
  destruct (forallb (fun x => Ascii7.is_ascii (Byte.to_N x)) reversed_data) eqn:Hasc.
  2:{ rewrite (decode_non_ascii _ Hasc). cbn [bind]. broke_after_send. }
  destruct (decode_ascii_bytes reversed_data Hasc) as [Hdec _].
  rewrite Hdec. cbn [bind is_type N.eqb REVERSE_ANSWER Pos.eqb negb].
  unfold Client.setitem.
  destruct (Nat.ltb_spec i (length reversed_blocks)) as [Hi|Hi]; [|broke_after_send].
  intros [= <- <- <-]. split; [congruence|]. split; [done|].
  split; [unfold request_of; congruence|]. split; [done|].
  exists reversed_data. split; [split; [done|lia]|]. split; [|done].
  rewrite <- Hrx1, Hstream, Hstream2.
  change (Wire.Answer reversed_data)
    with ((Wire.be16 REVERSE_ANSWER ++ Wire.be32 (N.of_nat (length reversed_data)))
            ++ reversed_data).
  rewrite <- Hlen'. unfold Wire.be16 in Htag. injection Htag as <- <-.
  unfold Wire.be32 in Hlenb. injection Hlenb as <- <- <- <-.
  by rewrite <- app_assoc.
Qed.

(** The loop over the blocks, read backwards from its result. *)
Lemma chunk_loop_inv blocks :
  forall i done s c reversed_blocks' s',
    length done = i ->
    Client.chunk_loop i blocks (done ++ replicate (length blocks) VNone) s
      = Some (c, reversed_blocks', s') ->
    exists payloads m rest,
      reversed_blocks'
      = done ++ map (fun p => VStr (map Byte.to_N p)) payloads
          ++ replicate (length blocks - length payloads) VNone
      /\ Forall carriable payloads
      /\ length payloads <= m <= S (length payloads) /\ m <= length blocks
      /\ Forall sendable (take m blocks)
      /\ Net.sent s' = Net.sent s ++ map request_of (take m blocks)
      /\ Net.closed s' = Net.closed s
      /\ byte_stream (Net.rx s) = concat (map Wire.Answer payloads) ++ rest
      /\ match c with
         | Continue =>
             length payloads = length blocks /\ rest = byte_stream (Net.rx s')
         | Break => length payloads < length blocks
         end.
Proof.
  induction blocks as [|block blocks IH]; intros i done s c rb' s' Hi Hrun;
    cbn [Client.chunk_loop] in Hrun.
  - injection Hrun as <- <- <-. exists [], 0, (byte_stream (Net.rx s)).
    cbn. rewrite !app_nil_r. repeat split; auto.
  - destruct (Client.exchange i block (done ++ replicate (length (block :: blocks)) VNone) s)
      as [[[c1 rb1] s1]|] eqn:Hstep; [|done].
    apply exchange_inv in Hstep as (Hc1 & Hstep).
    destruct c1.
    + destruct Hstep as (Hok & Hsent1 & _ & payload & Hpay & Hstream & ->).
      rewrite insert_app_r_alt in Hrun by lia.
      replace (i - length done) with 0 in Hrun by lia.
      cbn [length replicate] in Hrun. cbn [insert list_insert] in Hrun.
      change (done ++ VStr (map Byte.to_N payload) :: replicate (length blocks) VNone)
        with (done ++ [VStr (map Byte.to_N payload)] ++ replicate (length blocks) VNone)
        in Hrun.
      rewrite app_assoc in Hrun.
      apply IH in Hrun
        as (payloads & m & rest & -> & Hall & Hm & Hmb & Hsend & Hsent & Hclosed
            & Hst & Hc); [|rewrite length_app; cbn; lia].
      exists (payload :: payloads), (S m), rest.
      cbn [map length Nat.sub firstn concat]. rewrite <- !app_assoc. cbn [app].
      split; [done|]. split; [by constructor|]. split; [lia|]. split; [lia|].
      split; [by constructor|]. split; [by rewrite Hsent, Hsent1, <- app_assoc|].
      split; [congruence|]. split; [by rewrite Hstream, Hst|].
      destruct c; [split; [lia|tauto]|lia].
    + destruct Hstep as (-> & Hsent1). injection Hrun as <- <- <-.
      destruct Hsent1 as [Hsent1|(Hok & Hsent1)].
      * exists [], 0, (byte_stream (Net.rx s)).
        cbn [map app length Nat.sub firstn concat]. rewrite app_nil_r.
        split; [done|]. split; [constructor|]. split; [lia|]. split; [lia|].
        split; [constructor|]. split; [done|]. split; [done|]. split; [done|lia].
      * exists [], 1, (byte_stream (Net.rx s)).
        cbn [map app length Nat.sub firstn concat].
        split; [done|]. split; [constructor|]. split; [lia|]. split; [lia|].
        split; [constructor; [exact Hok|apply List.Forall_nil]|].
        split; [done|]. split; [done|].
        split; [done|lia].
Qed.

(** Steps 5 to 8, read backwards from their result. *)
Lemma converse_inv blocks s o s' :
  Client.converse blocks s = Some (o, s') ->
  Net.closed s' = Net.closed s
  /\ (((Net.sent s' = Net.sent s
        \/ Net.sent s' = Net.sent s ++ [Wire.Init (N.of_nat (length blocks))])
       /\ o = Client.Returned None)
      \/ exists payloads m rest,
           byte_stream (Net.rx s)
           = Wire.Agree ++ concat (map Wire.Answer payloads) ++ rest
           /\ Forall carriable payloads
           /\ length payloads <= m <= S (length payloads) /\ m <= length blocks
           /\ Forall sendable (take m blocks)
           /\ Net.sent s'
              = Net.sent s ++ Wire.Init (N.of_nat (length blocks))
                  :: map request_of (take m blocks)
           /\ (length payloads = length blocks ->
               o = Client.Returned (Some (concat (map (map Byte.to_N) payloads)))
               /\ rest = byte_stream (Net.rx s'))
           /\ (length payloads < length blocks -> o = Client.Returned None)).
Proof.
  unfold Client.converse.
  set (n := N.of_nat (length blocks)).
  destruct (N.lt_ge_cases n 4294967296) as [Hn|Hn].
  2:{ rewrite client_create_init_overflow by done.
      intros [= <- <-]. split; [done|]. left. split; [by left|done]. }
  rewrite client_create_init by done.
  destruct (Net.sendall (Some (Wire.Init n)) s) as [[[]|e] s1] eqn:Hsend.
  2:{ apply send_raise_inv in Hsend as (Hs & _ & Hc).
      intros [= <- <-]. split; [done|]. left. split; [by left|done]. }
  apply send_ok_inv in Hsend as (b & [= <-] & Hsent1 & Hrx1 & Hclosed1).
  destruct (Net.recv 2 s1) as [[data|e] s2] eqn:Hrecv;
    pose proof (recv_frame _ _ _ _ Hrecv) as (Hs2 & _ & Hc2).
  2:{ intros [= <- <-]. split; [congruence|]. left. split; [right; congruence|done]. }
  pose proof (recv_length _ _ _ _ Hrecv) as Hlen.
  pose proof (recv_stream _ _ _ _ Hrecv) as Hstream. cbn beta iota in Hstream.
  destruct (Nat.ltb_spec (length data) 2) as [Hshort|Hfull].
  { intros [= <- <-]. split; [congruence|]. left. split; [right; congruence|done]. }
  destruct (Client.parse_packet data) as [[packet_type v]|e] eqn:Hparse.
  2:{ intros [= <- <-]. split; [congruence|]. left. split; [right; congruence|done]. }
  destruct (is_type packet_type AGREE) eqn:Htype; cbn [negb].
  2:{ intros [= <- <-]. split; [congruence|]. left. split; [right; congruence|done]. }
  assert (data = Wire.Agree) as ->
    by (apply (client_parse_agree_inv _ packet_type v); lia || done).
  destruct (Client.chunk_loop 0 blocks (replicate (length blocks) VNone) s2)
    as [[[c rb] s3]|] eqn:Hloop; [|done].
  apply (chunk_loop_inv blocks 0 [] s2 c rb s3 eq_refl) in Hloop
    as (payloads & m & rest & -> & Hall & Hm & Hmb & Hsend & Hsent & Hclosed & Hst & Hc).
  cbn [app]. rewrite <- (map_map (map Byte.to_N) VStr), forallb_results.
  assert (Hout : forall o',
            (length payloads = length blocks ->
             o' = Client.Returned (Some (concat (map (map Byte.to_N) payloads)))) ->
            (length payloads < length blocks -> o' = Client.Returned None) ->
            Some (o', s3) = Some (o, s') ->
            Net.closed s' = Net.closed s
            /\ (((Net.sent s' = Net.sent s \/ Net.sent s' = Net.sent s ++ [Wire.Init n])
                 /\ o = Client.Returned None)
                \/ exists payloads m rest,
                     byte_stream (Net.rx s)
                     = Wire.Agree ++ concat (map Wire.Answer payloads) ++ rest
                     /\ Forall carriable payloads
                     /\ length payloads <= m <= S (length payloads) /\ m <= length blocks
                     /\ Forall sendable (take m blocks)
                     /\ Net.sent s'
                        = Net.sent s ++ Wire.Init n :: map request_of (take m blocks)
                     /\ (length payloads = length blocks ->
                         o = Client.Returned (Some (concat (map (map Byte.to_N) payloads)))
                         /\ rest = byte_stream (Net.rx s'))
                     /\ (length payloads < length blocks -> o = Client.Returned None))).
  { intros o' Hwrote Hnone [= <- <-]. split; [congruence|].
    right. exists payloads, m, rest.
    split; [by rewrite <- Hrx1, Hstream, Hst|]. split; [done|]. split; [done|].
    split; [done|]. split; [done|].
    split; [by rewrite Hsent, Hs2, Hsent1, <- app_assoc|].
    split; [|done]. intros Hq. split; [by apply Hwrote|].
    destruct c; [tauto|]. unfold bytes, str in *. lia. }
  destruct (length blocks - length payloads) as [|k] eqn:Hk.
  - cbn [replicate]. rewrite app_nil_r, write_blocks_results.
    apply Hout; [done|lia].
  - apply Hout; [lia|done].
Qed.

(** X3.  Every run of the client returns, and an output file is
    accounted for by what arrived: when [main] writes a text, the
    arguments passed the checks, the connection was made, the bytes that
    arrived, however segmented, are an Agree followed by one Answer with
    an ASCII payload per block, nothing more was read, the text written is
    the concatenation of these payloads in order of arrival, and the
    client sent the Init and the Request of every block. *)
Theorem output_accounted (draws : nat -> nat) (a : Client.args)
    (connect_error : option exn) (s : Net.socket) :
  exists o s',
    Client.main draws a connect_error s = Some (o, s')
    /\ forall text, o = Client.Returned (Some text) ->
         connect_error = None
         /\ exists content blocks payloads,
              valid_args a content
              /\ Client.split draws content
                   (Z.to_nat (Client.Lmin a)) (Z.to_nat (Client.Lmax a)) = Some blocks
              /\ length payloads = length blocks
              /\ Forall carriable payloads
              /\ byte_stream (Net.rx s)
                 = Wire.Agree ++ concat (map Wire.Answer payloads)
                     ++ byte_stream (Net.rx s')
              /\ text = concat (map (map Byte.to_N) payloads)
              /\ Net.sent s'
                 = Net.sent s ++ Wire.Init (N.of_nat (length blocks))
                     :: map request_of blocks.
Proof.
  destruct (main_cases draws a connect_error s) as [Hexit|(content & Hvalid)].
  { exists (Client.Exit 1), s. split; [done|]. intros text [=]. }
  destruct (main_valid draws a content connect_error s Hvalid) as (blocks & Hsplit & ->).
  destruct connect_error as [e|].
  { exists (Client.Returned None), (Net.close s). split; [done|]. intros text [=]. }
  destruct (converse_spec blocks s) as (o & s' & newly & Hconv & _).
  rewrite Hconv. exists o, (Net.close s'). split; [done|].
  intros text ->. split; [done|].
  apply converse_inv in Hconv
    as (_ & [(_ & [=])|(payloads & m & rest & Hst & Hall & Hm & Hmb & _ & Hsent & Hfull & Hpart)]).
  destruct (Nat.lt_ge_cases (length payloads) (length blocks)) as [Hlt|Hge].
  { by specialize (Hpart Hlt). }
  assert (Hq : length payloads = length blocks) by lia.
  destruct (Hfull Hq) as ([= ->] & ->).
  exists content, blocks, payloads.
  split; [done|]. split; [done|]. split; [done|]. split; [done|]. split; [done|].
  split; [done|]. cbn [Net.close Net.sent]. rewrite Hsent.
  by rewrite firstn_all2 by lia.
Qed.

(** X4.  The client never sends ahead of the answers.  What a run sends
    is nothing, or the Init carrying the number of blocks followed by the
    Requests of the first [m] blocks, in order and one buffer each; and
    if [m > 0] then the bytes that arrived begin with an Agree followed
    by at least [m - 1] complete Answers with ASCII payloads. *)
Theorem requests_in_lockstep (draws : nat -> nat) (a : Client.args)
    (connect_error : option exn) (s : Net.socket) :
  exists o s' newly,
    Client.main draws a connect_error s = Some (o, s')
    /\ Net.sent s' = Net.sent s ++ newly
    /\ (newly = []
        \/ exists content blocks m,
             Client.input_file a = Some content
             /\ Client.split draws content
                  (Z.to_nat (Client.Lmin a)) (Z.to_nat (Client.Lmax a)) = Some blocks
             /\ m <= length blocks
             /\ newly = Wire.Init (N.of_nat (length blocks))
                          :: map request_of (take m blocks)
             /\ Forall sendable (take m blocks)
             /\ (0 < m ->
                 exists payloads rest,
                   length payloads <= m <= S (length payloads)
                   /\ Forall carriable payloads
                   /\ byte_stream (Net.rx s)
                      = Wire.Agree ++ concat (map Wire.Answer payloads) ++ rest)).
Proof.
  destruct (main_cases draws a connect_error s) as [Hexit|(content & Hvalid)].
  { exists (Client.Exit 1), s, []. rewrite app_nil_r. split; [done|]. split; [done|]. by left. }
  destruct (main_valid draws a content connect_error s Hvalid) as (blocks & Hsplit & ->).
  destruct connect_error as [e|].
  { exists (Client.Returned None), (Net.close s), []. rewrite app_nil_r.
    split; [done|]. split; [done|]. by left. }
  destruct (converse_spec blocks s) as (o & s' & newly & Hconv & _).
  rewrite Hconv.
  destruct Hvalid as (_ & _ & Hfile & _).
  apply converse_inv in Hconv
    as (_ & [([Hsent|Hsent] & _)
            |(payloads & m & rest & Hst & Hall & Hm & Hmb & Hsend & Hsent & _)]).
  - exists o, (Net.close s'), []. rewrite app_nil_r.
    split; [done|]. split; [done|]. by left.
  - exists o, (Net.close s'), [Wire.Init (N.of_nat (length blocks))].
    split; [done|]. split; [done|]. right. exists content, blocks, 0.
    split; [done|]. split; [done|]. split; [lia|]. split; [done|].
    split; [apply List.Forall_nil|lia].
  - exists o, (Net.close s'),
      (Wire.Init (N.of_nat (length blocks)) :: map request_of (take m blocks)).
    split; [done|]. split; [done|]. right. exists content, blocks, m.
    split; [done|]. split; [done|]. split; [done|]. split; [done|]. split; [done|].
    intros _. by exists payloads, rest.
Qed.

(** On the arguments alone, [Client.main] leaves through [exit(1)] when
    they fail its checks, and returns with its socket closed when they
    pass. *)
Lemma main_checks_or_returns (draws : nat -> nat) (a : Client.args)
    (connect_error : option exn) (s : Net.socket) :
  exists o s',
    Client.main draws a connect_error s = Some (o, s')
    /\ ((o = Client.Exit 1 /\ s' = s /\ ~ (exists content, valid_args a content))
        \/ ((exists content, valid_args a content)
            /\ (exists output, o = Client.Returned output)
            /\ Net.closed s' = true)).
Proof.
  assert (Hvalid_returns : forall content, valid_args a content ->
            exists output s', Client.main draws a connect_error s
                              = Some (Client.Returned output, s')
                              /\ Net.closed s' = true).
  { intros content Hvalid.
    destruct (main_valid draws a content connect_error s Hvalid) as (blocks & _ & ->).
    destruct connect_error as [e|]; [by exists None, (Net.close s)|].
    destruct (converse_spec blocks s) as (o & s' & newly & -> & _ & _ & Hcase).
    destruct Hcase as [(_ & _ & ->)|(_ & _ & _ & c & results & _ & _ & _ & _ & _ & Ho)].
    - by exists None, (Net.close s').
    - destruct Ho as [(_ & _ & ->)|(_ & _ & ->)]; by eexists _, (Net.close s'). }
  destruct (main_cases draws a connect_error s) as [Hexit|(content & Hvalid)].
  - exists (Client.Exit 1), s. split; [done|]. left. split; [done|]. split; [done|].
    intros (content & Hvalid).
    destruct (Hvalid_returns content Hvalid) as (output & s' & Hrun & _). congruence.
  - destruct (Hvalid_returns content Hvalid) as (output & s' & Hrun & Hclosed).
    exists (Client.Returned output), s'. split; [done|]. right.
    split; [by exists content|]. split; [by exists output|done].
Qed.

Lemma forallb_false_In {A} (f : A -> bool) (l : list A) :
  forallb f l = false -> exists x, In x l /\ f x = false.
Proof.
  induction l as [|x l IH]; [done|]. cbn [forallb].
  destruct (f x) eqn:Hx.
  - intros H. destruct (IH H) as (y & Hy & Hf). exists y. split; [by right|done].
  - intros _. exists x. split; [by left|done].
Qed.

Lemma printable_range (c : N) : Client.printable c = true <-> (32 <= c <= 126)%N.
Proof. unfold Client.printable. rewrite andb_true_iff, !N.leb_le. done. Qed.

(** X5.  [main] leaves through [exit(1)] exactly when one of its checks
    fails: the port is outside 1024..65535, a block size is not positive,
    [Lmin > Lmax], the input file does not exist, or the text read holds a
    character outside 32..126; and then the socket has not been touched.
    A file that exists and cannot be read (an exception from [open] or
    [f.read()]) makes [main] return normally, without output and before
    any socket is created.  When the text is read and all checks pass,
    the run returns normally, with or without an output, and its socket
    is closed whether or not the connection was made. *)
Theorem main_exits_iff_check_fails (draws : nat -> nat) (server_port : Z)
    (path : input_path) (Lmin Lmax : Z) (connect_error : option exn)
    (s : Net.socket) :
  exists o s',
    main_reading draws server_port path Lmin Lmax connect_error s = Some (o, s')
    /\ ((o = Client.Exit 1 /\ s' = s
         /\ ((server_port < 1024)%Z \/ (65535 < server_port)%Z
             \/ (Lmin <= 0)%Z \/ (Lmax <= 0)%Z \/ (Lmax < Lmin)%Z
             \/ path = Absent
             \/ exists content c,
                  path = Holds content /\ In c content /\ ((c < 32)%N \/ (126 < c)%N)))
        \/ ((1024 <= server_port <= 65535)%Z /\ (0 < Lmin <= Lmax)%Z
            /\ ((exists e, path = Unreadable e /\ o = Client.Returned None /\ s' = s)
                \/ (exists content,
                      path = Holds content
                      /\ (forall c, In c content -> (32 <= c <= 126)%N)
                      /\ (exists output, o = Client.Returned output)
                      /\ Net.closed s' = true)))).
Proof.
  unfold main_reading.
  destruct (Z.ltb_spec server_port 1024) as [Hp1|Hp1].
  { exists (Client.Exit 1), s. split; [done|]. left. auto. }
  destruct (Z.ltb_spec 65535 server_port) as [Hp2|Hp2].
  { exists (Client.Exit 1), s. split; [done|]. left. auto. }
  destruct (Z.leb_spec Lmin 0) as [Hl1|Hl1].
  { exists (Client.Exit 1), s. split; [done|]. left. auto 6. }
  destruct (Z.leb_spec Lmax 0) as [Hl2|Hl2].
  { exists (Client.Exit 1), s. split; [done|]. left. auto 7. }
  destruct (Z.ltb_spec Lmax Lmin) as [Hl3|Hl3].
  { exists (Client.Exit 1), s. split; [done|]. left. auto 8. }
  cbn [orb].
  destruct path as [|e|content].
  - exists (Client.Exit 1), s. split; [done|]. left. auto 10.
  - exists (Client.Returned None), s. split; [done|]. right.
    split; [lia|]. split; [lia|]. left. by exists e.
  - set (a := {| Client.server_port := server_port; Client.input_file := Some content;
                 Client.Lmin := Lmin; Client.Lmax := Lmax |}).
    destruct (main_checks_or_returns draws a connect_error s)
      as (o & s' & Hrun & [(-> & -> & Hinvalid)|((content' & Hvalid) & Hout & Hclosed)]).
    + exists (Client.Exit 1), s. split; [done|]. left. split; [done|]. split; [done|].
      do 6 right.
      destruct (forallb Client.printable content) eqn:Hprint.
      * exfalso. apply Hinvalid. exists content. unfold valid_args, a.
        cbn [Client.server_port Client.Lmin Client.Lmax Client.input_file].
        split; [lia|]. split; [lia|]. done.
      * apply forallb_false_In in Hprint as (c & Hc & Hno).
        exists content, c. split; [done|]. split; [done|].
        destruct (N.lt_ge_cases c 32) as [?|Hlo]; [by left|].
        destruct (N.lt_ge_cases 126 c) as [?|Hhi]; [by right|].
        assert (Hyes : Client.printable c = true) by (apply printable_range; lia).
        congruence.
    + exists o, s'. split; [done|]. right. split; [lia|]. split; [lia|]. right.
      exists content. split; [done|].
      destruct Hvalid as (_ & _ & Hfile & Hprint).
      unfold a in Hfile. cbn [Client.input_file] in Hfile. injection Hfile as <-.
      split; [|done]. intros c Hc. apply printable_range.
      rewrite forallb_forall in Hprint. by apply Hprint.
Qed.

(** ** The decoders, read backwards *)

(** A buffer of six bytes or more starts with the frame of its own
    header fields. *)
Lemma header_fields t1 t0 i3 i2 i1 i0 tag len :
  Struct.unpack_H [t1; t0] = Ok tag ->
  Struct.unpack_I [i3; i2; i1; i0] = Ok len ->
  [t1; t0; i3; i2; i1; i0] = Wire.be16 tag ++ Wire.be32 len
  /\ (tag < 65536)%N /\ (len < 4294967296)%N.
Proof.
  intros Ht Hl. apply unpack_H_inv in Ht as [Htag Ht]. apply unpack_I_inv in Hl as [Hlen Hl].
  by rewrite Ht, Hl.
Qed.

Lemma take_body {A} (h1 h2 h3 h4 h5 h6 : A) body n :
  take (6 + n) (h1 :: h2 :: h3 :: h4 :: h5 :: h6 :: body)
  = [h1; h2; h3; h4; h5; h6] ++ take n body.
Proof. reflexivity. Qed.

(** X6.  The server's [parse_packet] on an arbitrary buffer.  A packet
    type it returns is INITIALIZATION or REVERSE_REQUEST, and the value
    beside it is what the buffer starts with: the block count of an Init
    frame, or the text of a Request frame whose payload is ASCII; bytes
    after the frame are ignored.  Without a packet type the value is
    [None].  The only exception it raises is [UnicodeDecodeError], on a
    buffer that starts with a Request frame whose payload is not ASCII. *)
Theorem server_parse_packet_sound (data : bytes) :
  match Server.parse_packet data with
  | Ok (Some packet_type, v) =>
      (packet_type = INITIALIZATION
       /\ exists n, (n < 4294967296)%N /\ v = VInt n /\ take 6 data = Wire.Init n)
      \/ (packet_type = REVERSE_REQUEST
          /\ exists payload, carriable payload
               /\ v = VStr (map Byte.to_N payload)
               /\ take (6 + length payload) data = Wire.Request payload)
  | Ok (None, v) => v = VNone
  | Raise e =>
      e = UnicodeDecodeError
      /\ exists payload,
           forallb (fun x => Ascii7.is_ascii (Byte.to_N x)) payload = false
           /\ take (6 + length payload) data = Wire.Request payload
  end.
Proof.
  destruct (Nat.lt_ge_cases (length data) 6) as [Hshort|Hfull].
  { by rewrite server_parse_below_6. }
  destruct data as [|t1 [|t0 [|i3 [|i2 [|i1 [|i0 body]]]]]]; cbn in Hfull; try lia.
  destruct (Struct.unpack_H [t1; t0]) as [tag|] eqn:Ht; [|done].
  destruct (Struct.unpack_I [i3; i2; i1; i0]) as [len|] eqn:Hl; [|done].
  rewrite (server_parse_six _ _ _ _ _ _ body tag len Ht Hl).
  destruct (header_fields _ _ _ _ _ _ _ _ Ht Hl) as (Hhead & Htag & Hlen).
  destruct (N.eqb_spec tag INITIALIZATION) as [->|_].
  { left. split; [done|]. exists len. split; [done|]. split; [done|].
    change (take 6 (t1 :: t0 :: i3 :: i2 :: i1 :: i0 :: body))
      with [t1; t0; i3; i2; i1; i0].
    rewrite Hhead. unfold Wire.Init, Wire.frame. by rewrite app_nil_r. }
  destruct (N.eqb_spec tag REVERSE_REQUEST) as [->|_]; [|done].
  destruct (N.leb_spec len (N.of_nat (length body))) as [Hle|Hgt]; [|done].
  set (payload := take (N.to_nat len) body).
  assert (Hpl : length payload = N.to_nat len).
  { unfold payload. rewrite length_take. lia. }
  assert (Hframe : take (6 + length payload) (t1 :: t0 :: i3 :: i2 :: i1 :: i0 :: body)
                   = Wire.Request payload).
  { rewrite take_body, Hhead, Hpl. unfold Wire.Request, Wire.frame.
    rewrite Hpl, N2Nat.id. fold payload. by rewrite <- app_assoc. }
  destruct (forallb (fun x => Ascii7.is_ascii (Byte.to_N x)) payload) eqn:Hascii.
  - destruct (decode_ascii_bytes payload Hascii) as [-> _]. cbn [bind].
    right. split; [done|]. exists payload. split; [|done]. split; [done|lia].
  - rewrite (decode_non_ascii payload Hascii). cbn [bind]. split; [done|].
    by exists payload.
Qed.

(** X7.  The client's [parse_packet] on an arbitrary buffer.  A packet
    type it returns is AGREE, for a buffer that starts with the two
    bytes of an Agree, or REVERSE_ANSWER, with the text of the Answer
    frame the buffer starts with, whose payload is ASCII; bytes after the
    message are ignored.  Without a packet type the value is [None].  The
    only exception it raises is [UnicodeDecodeError], on a buffer that
    starts with an Answer frame whose payload is not ASCII. *)
Theorem client_parse_packet_sound (data : bytes) :
  match Client.parse_packet data with
  | Ok (Some packet_type, v) =>
      (packet_type = AGREE /\ v = VNone /\ take 2 data = Wire.Agree)
      \/ (packet_type = REVERSE_ANSWER
          /\ exists payload, carriable payload
               /\ v = VStr (map Byte.to_N payload)
               /\ take (6 + length payload) data = Wire.Answer payload)
  | Ok (None, v) => v = VNone
  | Raise e =>
      e = UnicodeDecodeError
      /\ exists payload,
           forallb (fun x => Ascii7.is_ascii (Byte.to_N x)) payload = false
           /\ take (6 + length payload) data = Wire.Answer payload
  end.
Proof.
  destruct data as [|t1 [|t0 rest]]; [done..|].
  destruct (Struct.unpack_H [t1; t0]) as [tag|] eqn:Ht; [|done].
  pose proof (unpack_H_inv _ _ _ Ht) as [Htag Hbe].
  destruct (N.eqb_spec tag AGREE) as [->|Hne].
  { assert (Hagree : Client.parse_packet (t1 :: t0 :: rest) = Ok (Some AGREE, VNone)).
    { unfold Client.parse_packet. rewrite slice_0_2, Ht. done. }
    rewrite Hagree. left. split; [done|]. split; [done|].
    change (take 2 (t1 :: t0 :: rest)) with [t1; t0]. by rewrite <- Hbe. }
  destruct (Nat.lt_ge_cases (length (t1 :: t0 :: rest)) 6) as [Hshort|Hfull].
  { by rewrite (client_parse_below_6 _ tag Hshort Ht Hne). }
  destruct rest as [|i3 [|i2 [|i1 [|i0 body]]]]; cbn in Hfull; try lia.
  destruct (Struct.unpack_I [i3; i2; i1; i0]) as [len|] eqn:Hl; [|done].
  rewrite (client_parse_six _ _ _ _ _ _ body tag len Ht Hl).
  destruct (header_fields _ _ _ _ _ _ _ _ Ht Hl) as (Hhead & _ & Hlen).
  rewrite (proj2 (N.eqb_neq _ _) Hne).
  destruct (N.eqb_spec tag REVERSE_ANSWER) as [->|_]; [|done].
  destruct (N.leb_spec len (N.of_nat (length body))) as [Hle|Hgt]; [|done].
  set (payload := take (N.to_nat len) body).
  assert (Hpl : length payload = N.to_nat len).
  { unfold payload. rewrite length_take. lia. }
  assert (Hframe : take (6 + length payload) (t1 :: t0 :: i3 :: i2 :: i1 :: i0 :: body)
                   = Wire.Answer payload).
  { rewrite take_body, Hhead, Hpl. unfold Wire.Answer, Wire.frame.
    rewrite Hpl, N2Nat.id. fold payload. by rewrite <- app_assoc. }
  destruct (forallb (fun x => Ascii7.is_ascii (Byte.to_N x)) payload) eqn:Hascii.
  - destruct (decode_ascii_bytes payload Hascii) as [-> _]. cbn [bind].
    right. split; [done|]. exists payload. split; [|done]. split; [done|lia].
  - rewrite (decode_non_ascii payload Hascii). cbn [bind]. split; [done|].
    by exists payload.
Qed.

(** ** Framing of the byte stream *)

Lemma be16_inj tag tag' :
  (tag < 65536)%N -> (tag' < 65536)%N -> Wire.be16 tag = Wire.be16 tag' -> tag = tag'.
Proof.
  intros H H' E. apply (f_equal Struct.unpack_H) in E.
  rewrite !unpack_H_be16 in E by done. by injection E.
Qed.

Lemma be32_inj len len' :
  (len < 4294967296)%N -> (len' < 4294967296)%N ->
  Wire.be32 len = Wire.be32 len' -> len = len'.
Proof.
  intros H H' E. apply (f_equal Struct.unpack_I) in E.
  rewrite !unpack_I_be32 in E by done. by injection E.
Qed.

Lemma frame_app_inv tag len body r tag' len' body' :
  (tag < 65536)%N -> (tag' < 65536)%N ->
  (len < 4294967296)%N -> (len' < 4294967296)%N ->
  Wire.frame tag len body ++ r = Wire.frame tag' len' body' ->
  tag = tag' /\ len = len' /\ body ++ r = body'.
Proof.
  intros Ht Ht' Hl Hl' E. unfold Wire.frame in E.
  rewrite <- !app_assoc in E.
  assert (E16 : Wire.be16 tag = Wire.be16 tag').
  { apply (f_equal (take 2)) in E. exact E. }
  assert (E32 : Wire.be32 len = Wire.be32 len').
  { apply (f_equal (fun l => take 4 (drop 2 l))) in E. exact E. }
  split; [by apply be16_inj|]. split; [by apply be32_inj|].
  apply (f_equal (drop 6)) in E. exact E.
Qed.

Lemma agree_app_inv r tag len body :
  (tag < 65536)%N -> Wire.Agree ++ r = Wire.frame tag len body -> tag = AGREE.
Proof.
  intros Ht E. apply (f_equal (take 2)) in E.
  symmetry. apply be16_inj; [done|done|]. exact E.
Qed.

(** No message is a strict prefix of another. *)
Lemma encoded_prefix_free (p r : bytes) :
  Wire.encoded p -> Wire.encoded (p ++ r) -> r = [].
Proof.
  intros Hp Hq.
  assert (Hsame : forall tag len body tag' len' body',
            (tag < 65536)%N -> (tag' < 65536)%N ->
            (len < 4294967296)%N -> (len' < 4294967296)%N ->
            len = N.of_nat (length body) -> len' = N.of_nat (length body') ->
            Wire.frame tag len body ++ r = Wire.frame tag' len' body' -> r = []).
  { intros tag len body tag' len' body' Ht Ht' Hl Hl' -> -> E.
    apply frame_app_inv in E as (_ & Hlen & Hbody); try done.
    apply (f_equal length) in Hbody. rewrite length_app in Hbody.
    apply length_zero_iff_nil. lia. }
  apply encoded_inv in Hp as [(n & Hn & ->)|[->|[(b & Hb & ->)|(b & Hb & ->)]]];
    apply encoded_inv in Hq as [(n' & Hn' & E)|[E|[(b' & Hb' & E)|(b' & Hb' & E)]]];
    unfold Wire.Init, Wire.Request, Wire.Answer in E;
    try (apply frame_app_inv in E as (Htag & Hlen & Hbody); try done;
         try discriminate Htag;
         apply (f_equal length) in Hbody; rewrite length_app in Hbody;
         cbn [length] in Hbody; apply length_zero_iff_nil; lia);
    try (apply agree_app_inv in E; done);
    try (apply (f_equal length) in E; rewrite !length_app in E; cbn in E;
         apply length_zero_iff_nil; lia).
Qed.

Lemma encoded_nonempty (p : bytes) : Wire.encoded p -> p <> [].
Proof.
  intros Hp.
  by apply encoded_inv in Hp as [(n & _ & ->)|[->|[(b & _ & ->)|(b & _ & ->)]]].
Qed.

(** X8.  The byte stream determines the messages: two sequences of
    messages, each built by one of the [create_packet] functions, that
    concatenate to the same bytes are the same sequence. *)
Theorem stream_parses_uniquely (ms ms' : list bytes) :
  Forall Wire.encoded ms -> Forall Wire.encoded ms' ->
  concat ms = concat ms' -> ms = ms'.
Proof.
  intros Hms. revert ms'.
  induction Hms as [|m ms Hm Hms IH]; intros ms' Hms' E.
  - destruct Hms' as [|m' ms' Hm' _]; [done|].
    apply encoded_nonempty in Hm'. cbn in E. symmetry in E.
    by apply app_eq_nil in E as [-> _].
  - destruct Hms' as [|m' ms' Hm' Hms'].
    { apply encoded_nonempty in Hm. cbn in E. by apply app_eq_nil in E as [-> _]. }
    cbn [concat] in E.
    apply app_eq_app in E as (l & [(-> & E)|(-> & E)]).
    + apply encoded_prefix_free in Hm as ->; [|done].
      rewrite app_nil_r. cbn [app] in E. f_equal. by apply IH.
    + apply encoded_prefix_free in Hm' as ->; [|done].
      rewrite app_nil_r. cbn [app] in E. f_equal. by apply IH.
Qed.

Lemma stream_parses_uniquely_witness :
  Forall Wire.encoded [Wire.Init 3; Wire.Agree]
  /\ [Wire.Init 3; Wire.Agree] = [Wire.Init 3; Wire.Agree].
Proof.
  assert (H : Forall Wire.encoded [Wire.Init 3; Wire.Agree]).
  { constructor; [|constructor; [|constructor]].
    - exists INITIALIZATION, (VInt 3). by left.
    - exists AGREE, VNone. by right. }
  split; [exact H|].
  exact (stream_parses_uniquely [Wire.Init 3; Wire.Agree] [Wire.Init 3; Wire.Agree]
           H H eq_refl).
Defined.

(** ** The number of blocks *)

(** The blocks the split returns: they tile the text, none is empty or
    longer than [Lmax], and every block but the last has the length drawn
    for it, which is at least [Lmin]. *)
Lemma split_shape draws content Lmin Lmax blocks :
  0 < Lmin <= Lmax ->
  Client.split draws content Lmin Lmax = Some blocks ->
  concat blocks = content
  /\ forall i (b : str), blocks !! i = Some b ->
       0 < length b <= Lmax
       /\ (S i < length blocks ->
           length b = randint Lmin Lmax (draws i) /\ Lmin <= length b).
Proof.
  intros Hb Hsplit.
  destruct (split_loop_spec draws content Lmin Lmax Hb (length content) 0 0 [])
    as (bs & Hrun & Hcat & _ & Hblk); [lia..|].
  unfold Client.split in Hsplit. rewrite Hrun in Hsplit. injection Hsplit as <-.
  rewrite drop_0 in Hcat. split; [done|].
  intros i b Hi. destruct (Hblk i b Hi) as [Hlen Hdraw]. split; [done|].
  intros Hmore. specialize (Hdraw Hmore). cbn in Hdraw. split; [done|].
  rewrite Hdraw. apply randint_bounds. lia.
Qed.

Lemma concat_length_le {A} (bs : list (list A)) M :
  (forall i b, bs !! i = Some b -> length b <= M) ->
  length (concat bs) <= length bs * M.
Proof.
  induction bs as [|b bs IH]; intros Hall; [done|].
  cbn [concat length]. rewrite length_app.
  pose proof (Hall 0 b eq_refl).
  specialize (IH (fun i b' H => Hall (S i) b' H)). lia.
Qed.

Lemma concat_length_gt {A} (bs : list (list A)) m :
  bs <> [] ->
  (forall i b, bs !! i = Some b ->
     0 < length b /\ (S i < length bs -> m <= length b)) ->
  (length bs - 1) * m < length (concat bs).
Proof.
  induction bs as [|b bs IH]; intros Hne Hall; [done|].
  cbn [concat length]. rewrite length_app.
  destruct (Hall 0 b eq_refl) as [Hpos Hfull].
  destruct bs as [|b' bs].
  - cbn. lia.
  - assert (IH' : (length (b' :: bs) - 1) * m < length (concat (b' :: bs))).
    { apply IH; [done|]. intros i x Hi. destruct (Hall (S i) x Hi) as [Hx Hm].
      split; [done|]. intros Hlt. apply Hm. cbn [length] in *. lia. }
    cbn [length] in *. specialize (Hfull ltac:(lia)).
    replace (S (S (length bs)) - 1) with (S (S (length bs) - 1)) by lia.
    cbn [Nat.mul]. lia.
Qed.

(** X9.  The number of blocks the client announces in its Init lies
    between the text length divided by [Lmax], rounded up, and the text
    length divided by [Lmin], rounded up: the blocks cover the text with
    at most [Lmax] characters each, and all but the last hold at least
    [Lmin].  No block is announced for an empty text and at least one for
    any other. *)
Theorem block_count_bounds (draws : nat -> nat) (content : str) (Lmin Lmax : nat)
    (blocks : list str) :
  0 < Lmin <= Lmax ->
  Client.split draws content Lmin Lmax = Some blocks ->
  length content <= length blocks * Lmax
  /\ (content <> [] -> (length blocks - 1) * Lmin < length content)
  /\ (content = [] <-> blocks = []).
Proof.
  intros Hb Hsplit.
  destruct (split_shape draws content Lmin Lmax blocks Hb Hsplit) as [Hcat Hblk].
  assert (Hupper : length content <= length blocks * Lmax).
  { rewrite <- Hcat. apply concat_length_le. intros i b Hi.
    destruct (Hblk i b Hi) as [H _]. lia. }
  assert (Hempty : content = [] <-> blocks = []).
  { split.
    - intros ->. destruct blocks as [|b blocks]; [done|].
      destruct (Hblk 0 b eq_refl) as [Hpos _].
      apply (f_equal length) in Hcat. cbn in Hcat. rewrite length_app in Hcat. lia.
    - intros ->. by rewrite <- Hcat. }
  split; [done|]. split; [|done].
  intros Hne. rewrite <- Hcat. apply concat_length_gt.
  - intros E. apply Hne. by apply Hempty.
  - intros i b Hi. destruct (Hblk i b Hi) as [Hlen Hm].
    split; [lia|]. intros Hlt. by destruct (Hm Hlt).
Qed.

Lemma block_count_bounds_witness :
  length Scenario.hello_world <= length Scenario.hello_blocks * 5
  /\ (Scenario.hello_world <> [] ->
      (length Scenario.hello_blocks - 1) * 5 < length Scenario.hello_world)
  /\ (Scenario.hello_world = [] <-> Scenario.hello_blocks = []).
Proof.
  apply (block_count_bounds (fun _ => 0) Scenario.hello_world 5 5 Scenario.hello_blocks).
  - lia.
  - reflexivity.
Defined.

(** ** Runs against the server of this repository *)

(** A run against the server, in the vocabulary of [served] and
    [answered]. *)
Lemma served_run draws a content :
  valid_args a content ->
  (N.of_nat (length content) < 4294967296)%N ->
  exists blocks fl' srv cli,
    Client.split draws content (Z.to_nat (Client.Lmin a)) (Z.to_nat (Client.Lmax a))
      = Some blocks
    /\ Server.session [] (served blocks) = Some (Server.Completed, length blocks, fl', srv)
    /\ Net.sent srv = Wire.Agree :: map (fun b => answer_to (map Struct.byte_of_N b)) blocks
    /\ Client.main draws a None (answered srv)
       = Some (Client.Returned (Some (concat (map (@rev N) blocks))), cli).
Proof.
  intros Hvalid Hlen.
  destruct (run_against_server draws a content Hvalid Hlen)
    as (blocks & fl' & srv & cli & Hsplit & Hsrv & Hsent & Hcli & _).
  by exists blocks, fl', srv, cli.
Qed.

Lemma lookup_map_Some {A B} (f : A -> B) (l : list A) i y :
  map f l !! i = Some y -> exists x, l !! i = Some x /\ y = f x.
Proof.
  revert i. induction l as [|x l IH]; intros [|i] H; try done.
  - injection H as <-. by exists x.
  - by apply IH.
Qed.

Lemma concat_map_rev_In {A} (bs : list (list A)) x :
  In x (concat (map (@rev A) bs)) <-> In x (concat bs).
Proof.
  induction bs as [|b bs IH]; [done|].
  cbn [map concat]. rewrite !in_app_iff, IH, <- in_rev. done.
Qed.

Lemma concat_map_rev_length {A} (bs : list (list A)) :
  length (concat (map (@rev A) bs)) = length (concat bs).
Proof.
  induction bs as [|b bs IH]; [done|].
  cbn [map concat]. by rewrite !length_app, length_rev, IH.
Qed.

Lemma concat_map_rev_printable (bs : list str) :
  forallb Client.printable (concat bs) = true ->
  forallb Client.printable (concat (map (@rev N) bs)) = true.
Proof.
  rewrite !forallb_forall. intros H x Hx. apply H. by apply concat_map_rev_In.
Qed.

(** A text has one decomposition into blocks of [c] characters with a
    shorter, non-empty last block. *)
Lemma fixed_chunks_unique {A} (c : nat) (bs : list (list A)) :
  forall bs',
    (forall i b, bs !! i = Some b ->
       0 < length b <= c /\ (S i < length bs -> length b = c)) ->
    (forall i b, bs' !! i = Some b ->
       0 < length b <= c /\ (S i < length bs' -> length b = c)) ->
    concat bs = concat bs' -> bs = bs'.
Proof.
  induction bs as [|b t IH]; intros [|b' t'] H H' E; [done| | |].
  - destruct (H' 0 b' eq_refl) as [Hp _].
    apply (f_equal length) in E. cbn in E. rewrite length_app in E. lia.
  - destruct (H 0 b eq_refl) as [Hp _].
    apply (f_equal length) in E. cbn in E. rewrite length_app in E. lia.
  - destruct (H 0 b eq_refl) as [Hb Hbf]. destruct (H' 0 b' eq_refl) as [Hb' Hbf'].
    cbn [concat] in E.
    assert (Hlen : length b = length b').
    { pose proof (f_equal length E) as El. rewrite !length_app in El.
      destruct t as [|x t], t' as [|x' t'].
      - cbn in El. lia.
      - destruct (H' 1 x' eq_refl) as [Hx' _].
        cbn [concat length] in *. rewrite length_app in El.
        specialize (Hbf' ltac:(lia)). lia.
      - destruct (H 1 x eq_refl) as [Hx _].
        cbn [concat length] in *. rewrite length_app in El.
        specialize (Hbf ltac:(lia)). lia.
      - cbn [length] in *. specialize (Hbf ltac:(lia)). specialize (Hbf' ltac:(lia)).
        lia. }
    destruct (app_inj_1 _ _ _ _ Hlen E) as [-> Et]. f_equal.
    apply IH; [| |done].
    + intros i x Hi. destruct (H (S i) x Hi) as [Hx Hf]. split; [done|].
      intros Hlt. apply Hf. cbn [length]. lia.
    + intros i x Hi. destruct (H' (S i) x Hi) as [Hx Hf]. split; [done|].
      intros Hlt. apply Hf. cbn [length]. lia.
Qed.

Lemma valid_with_input a content text :
  valid_args a content ->
  forallb Client.printable text = true ->
  valid_args (with_input a text) text.
Proof.
  intros (Hport & Hl & _ & _) Hprint. unfold valid_args, with_input.
  cbn [Client.server_port Client.Lmin Client.Lmax Client.input_file].
  split; [exact Hport|]. split; [exact Hl|]. split; [reflexivity|exact Hprint].
Qed.

(** X10.  With [Lmin = Lmax], running the client twice against the
    server restores the text.  The first run writes the block-wise
    reversal of the text; given that output as its input file, a second
    run with the same block size, whatever its random draws, cuts it into
    the reversed blocks of the first run, has each of them reversed again
    by the server, and writes the original text. *)
Theorem fixed_size_twice_restores (draws draws' : nat -> nat) (a : Client.args)
    (content : str) :
  valid_args a content ->
  Client.Lmin a = Client.Lmax a ->
  (N.of_nat (length content) < 4294967296)%N ->
  exists blocks text fl1 srv cli fl2 srv' cli',
    Client.split draws content (Z.to_nat (Client.Lmin a)) (Z.to_nat (Client.Lmax a))
      = Some blocks
    /\ Server.session [] (served blocks) = Some (Server.Completed, length blocks, fl1, srv)
    /\ Client.main draws a None (answered srv) = Some (Client.Returned (Some text), cli)
    /\ text = concat (map (@rev N) blocks)
    /\ Client.split draws' text (Z.to_nat (Client.Lmin a)) (Z.to_nat (Client.Lmax a))
       = Some (map (@rev N) blocks)
    /\ Server.session [] (served (map (@rev N) blocks))
       = Some (Server.Completed, length blocks, fl2, srv')
    /\ Client.main draws' (with_input a text) None (answered srv')
       = Some (Client.Returned (Some content), cli').
Proof.
  intros Hvalid Heq Hlen.
  destruct (served_run draws a content Hvalid Hlen)
    as (blocks & fl1 & srv & cli & Hsplit & Hsrv & Hsent & Hcli).
  pose proof Hvalid as (Hport & Hl & Hfile & Hprint).
  assert (Hb : 0 < Z.to_nat (Client.Lmin a) <= Z.to_nat (Client.Lmax a)) by lia.
  destruct (split_shape draws content _ _ blocks Hb Hsplit) as [Hcat Hblk].
  set (text := concat (map (@rev N) blocks)) in *.
  assert (Hprint' : forallb Client.printable text = true).
  { apply concat_map_rev_printable. by rewrite Hcat. }
  assert (Hlen' : (N.of_nat (length text) < 4294967296)%N).
  { unfold text. by rewrite concat_map_rev_length, Hcat. }
  destruct (served_run draws' (with_input a text) text
              (valid_with_input a content text Hvalid Hprint') Hlen')
    as (blocks' & fl2 & srv' & cli' & Hsplit' & Hsrv' & Hsent' & Hcli').
  cbn [with_input Client.Lmin Client.Lmax] in Hsplit'.
  destruct (split_shape draws' text _ _ blocks' Hb Hsplit') as [Hcat' Hblk'].
  assert (blocks' = map (@rev N) blocks) as ->.
  { apply (fixed_chunks_unique (Z.to_nat (Client.Lmin a))); [| |exact Hcat'].
    - intros i b Hi. destruct (Hblk' i b Hi) as [Hp Hf]. split; [lia|].
      intros Hlt. destruct (Hf Hlt) as [_ Hmin]. lia.
    - intros i b Hi. apply lookup_map_Some in Hi as (b0 & Hi & ->).
      rewrite length_rev, length_map. destruct (Hblk i b0 Hi) as [Hp Hf].
      split; [lia|]. intros Hlt. destruct (Hf Hlt) as [_ Hmin]. lia. }
  rewrite length_map in Hsrv'.
  rewrite List.map_map in Hcli'.
  rewrite (List.map_ext (fun x => rev (rev x)) (fun x => x)) in Hcli'
    by (intros x; apply rev_involutive).
  rewrite List.map_id, Hcat in Hcli'.
  by exists blocks, text, fl1, srv, cli, fl2, srv', cli'.
Qed.

Lemma fixed_size_twice_restores_witness :
  exists blocks text fl1 srv cli fl2 srv' cli',
    Client.split (fun _ => 0) Scenario.hello_world 5 5 = Some blocks
    /\ Server.session [] (served blocks) = Some (Server.Completed, length blocks, fl1, srv)
    /\ Client.main (fun _ => 0) (Scenario.args_5_5 Scenario.hello_world) None (answered srv)
       = Some (Client.Returned (Some text), cli)
    /\ text = concat (map (@rev N) blocks)
    /\ Client.split (fun _ => 1) text 5 5 = Some (map (@rev N) blocks)
    /\ Server.session [] (served (map (@rev N) blocks))
       = Some (Server.Completed, length blocks, fl2, srv')
    /\ Client.main (fun _ => 1) (with_input (Scenario.args_5_5 Scenario.hello_world) text)
         None (answered srv')
       = Some (Client.Returned (Some Scenario.hello_world), cli').
Proof.
  apply (fixed_size_twice_restores (fun _ => 0) (fun _ => 1)
           (Scenario.args_5_5 Scenario.hello_world) Scenario.hello_world).
  - repeat split; vm_compute; congruence.
  - reflexivity.
  - vm_compute. reflexivity.
Defined.

(** X11.  A text that fits in one block of the smallest size comes back
    reversed as a whole: the split returns the text as its only block,
    whatever is drawn, the server answers the one Request with the
    reversed text, and that is what the client writes. *)
Theorem single_block_reverses_text (draws : nat -> nat) (a : Client.args)
    (content : str) :
  valid_args a content ->
  content <> [] ->
  (Z.of_nat (length content) <= Client.Lmin a)%Z ->
  (N.of_nat (length content) < 4294967296)%N ->
  exists fl srv cli,
    Client.split draws content (Z.to_nat (Client.Lmin a)) (Z.to_nat (Client.Lmax a))
      = Some [content]
    /\ Server.session [] (served [content]) = Some (Server.Completed, 1, fl, srv)
    /\ Net.sent srv = [Wire.Agree; answer_to (map Struct.byte_of_N content)]
    /\ Client.main draws a None (answered srv)
       = Some (Client.Returned (Some (rev content)), cli).
Proof.
  intros Hvalid Hne Hfits Hlen.
  destruct (served_run draws a content Hvalid Hlen)
    as (blocks & fl1 & srv & cli & Hsplit & Hsrv & Hsent & Hcli).
  pose proof Hvalid as (Hport & Hl & Hfile & Hprint).
  assert (Hb : 0 < Z.to_nat (Client.Lmin a) <= Z.to_nat (Client.Lmax a)) by lia.
  destruct (split_shape draws content _ _ blocks Hb Hsplit) as [Hcat Hblk].
  assert (blocks = [content]) as ->.
  { destruct blocks as [|b [|b' t]].
    - by cbn in Hcat.
    - cbn in Hcat. rewrite app_nil_r in Hcat. by subst.
    - destruct (Hblk 0 b eq_refl) as [_ Hf]. destruct (Hblk 1 b' eq_refl) as [Hp _].
      cbn [length] in Hf. destruct (Hf ltac:(lia)) as [_ Hmin].
      apply (f_equal length) in Hcat. cbn [concat] in Hcat.
      rewrite !length_app in Hcat. lia. }
  cbn [map concat] in Hcli. rewrite app_nil_r in Hcli.
  by exists fl1, srv, cli.
Qed.

Lemma single_block_reverses_text_witness :
  exists fl srv cli,
    Client.split (fun _ => 7) Scenario.hello_world 11 20 = Some [Scenario.hello_world]
    /\ Server.session [] (served [Scenario.hello_world])
       = Some (Server.Completed, 1, fl, srv)
    /\ Net.sent srv = [Wire.Agree; answer_to (map Struct.byte_of_N Scenario.hello_world)]
    /\ Client.main (fun _ => 7)
         {| Client.server_port := 5000; Client.input_file := Some Scenario.hello_world;
            Client.Lmin := 11; Client.Lmax := 20 |} None (answered srv)
       = Some (Client.Returned (Some (rev Scenario.hello_world)), cli).
Proof.
  apply (single_block_reverses_text (fun _ => 7)
           {| Client.server_port := 5000; Client.input_file := Some Scenario.hello_world;
              Client.Lmin := 11; Client.Lmax := 20 |} Scenario.hello_world).
  - repeat split; vm_compute; congruence.
  - discriminate.
  - vm_compute. discriminate.
  - vm_compute. reflexivity.
Defined.

(** ** The registries, whatever they hold *)

(** X12.  When [handle_client] returns (its session was left; a worker
    that a silent peer keeps waiting in [recv] does not return, and keeps
    its connection registered), its socket is closed and the books of the
    two registries are kept, whatever they held before: every connection
    is registered as many times as it was, the worker's own included
    (appended on entry, one occurrence removed in [finally]); the
    worker's thread loses one registration if it had any; and no other
    thread's registrations are touched. *)
Theorem handle_client_accounting (conn thread : nat) (fl : list bool)
    (s : Net.socket) (g : Server.registry) (p : Server.exit_path)
    (s' : Net.socket) (g' : Server.registry) :
  Server.handle_client conn thread fl s g = Some (p, s', g') ->
  Net.closed s' = true
  /\ (forall c, count_occ Nat.eq_dec (Server.client_connections g') c
                = count_occ Nat.eq_dec (Server.client_connections g) c)
  /\ (forall t, count_occ Nat.eq_dec (Server.client_threads g') t
                = if Nat.eq_dec thread t
                  then pred (count_occ Nat.eq_dec (Server.client_threads g) t)
                  else count_occ Nat.eq_dec (Server.client_threads g) t).
Proof.
  unfold Server.handle_client.
  destruct (Server.session fl s) as [[[[p0 k] fl'] s0]|]; [|done].
  intros [= <- <- <-].
  split; [done|]. split.
  - intros c. cbn [Server.leave Server.enter Server.client_connections].
    assert (Hin : Server.contains conn (Server.client_connections g ++ [conn]) = true).
    { apply contains_In, in_or_app. right. by left. }
    rewrite Hin, list_remove_count, count_occ_app. cbn [count_occ].
    destruct (Nat.eq_dec conn c); lia.
  - intros t. cbn [Server.leave Server.enter Server.client_threads].
    destruct (Server.contains thread (Server.client_threads g)) eqn:Hin.
    + apply list_remove_count.
    + destruct (Nat.eq_dec thread t) as [<-|_]; [|done].
      assert (Hnot : ~ In thread (Server.client_threads g)).
      { intros H. apply contains_In in H. congruence. }
      apply (count_occ_not_In Nat.eq_dec) in Hnot. by rewrite Hnot.
Qed.

Lemma handle_client_accounting_witness :
  exists p s' g',
    Server.handle_client 7 1 [] Scenario.hello_server_socket
      {| Server.client_threads := [2; 1; 1]; Server.client_connections := [7; 3] |}
    = Some (p, s', g')
    /\ Net.closed s' = true
    /\ (forall c, count_occ Nat.eq_dec (Server.client_connections g') c
                  = count_occ Nat.eq_dec [7; 3] c)
    /\ (forall t, count_occ Nat.eq_dec (Server.client_threads g') t
                  = if Nat.eq_dec 1 t
                    then pred (count_occ Nat.eq_dec [2; 1; 1] t)
                    else count_occ Nat.eq_dec [2; 1; 1] t).
Proof.
  eexists _, _, _. split; [vm_compute; reflexivity|].
  eapply (handle_client_accounting 7 1 [] Scenario.hello_server_socket
            {| Server.client_threads := [2; 1; 1]; Server.client_connections := [7; 3] |}).
  vm_compute. reflexivity.
Defined.

(** X13.  The race between [client_thread.start()] and
    [client_threads.append(client_thread)], over all interleavings.  A
    schedule of the dispatcher and one worker that runs both to their end
    has five steps and leaves the worker's socket closed; the terminated
    worker's thread stays in [client_threads] in exactly one of them, the
    one in which the worker runs from start to finish between the two
    statements of the dispatcher. *)
Theorem thread_left_iff_late_append (conn thread : nat) (fl : list bool)
    (s : Net.socket) (g : Server.registry) (schedule : list Dispatcher.actor)
    (st : Dispatcher.state) (p : Server.exit_path) :
  ~ In thread (Server.client_threads g) ->
  Dispatcher.run conn thread schedule (Dispatcher.accepted g fl s) = Some st ->
  Dispatcher.mpc st = Dispatcher.Registered ->
  Dispatcher.wpc st = Dispatcher.Terminated p ->
  length schedule = 5
  /\ Net.closed (Dispatcher.sock st) = true
  /\ (In thread (Server.client_threads (Dispatcher.registries st))
      <-> schedule = [Dispatcher.Main; Dispatcher.Worker; Dispatcher.Worker;
                      Dispatcher.Worker; Dispatcher.Main]).
Proof.
  intros Hfresh Hrun Hm Hw.
  destruct (session_total fl s) as (p0 & k & fl' & s' & more & Hsession & _).
  assert (Honce : forall conns,
            ~ In thread
                (Server.client_threads
                   (Server.leave conn thread
                      {| Server.client_threads := Server.client_threads g ++ [thread];
                         Server.client_connections := conns |}))).
  { intros conns. apply leave_thread. cbn [Server.client_threads].
    rewrite count_occ_app. apply (count_occ_not_In Nat.eq_dec) in Hfresh.
    rewrite Hfresh. cbn. destruct (Nat.eq_dec thread thread); lia. }
  unfold Dispatcher.accepted in Hrun.
  repeat (match type of Hrun with
          | Dispatcher.run _ _ ?l _ = Some _ =>
              destruct l as [|[] ?];
              cbn -[Server.leave Server.enter In] in Hrun;
              rewrite ?Hsession in Hrun;
              cbn -[Server.leave Server.enter In] in Hrun;
              try discriminate Hrun
          end).
  all: injection Hrun as <-; cbn -[Server.leave Server.enter In] in Hm, Hw;
    try discriminate.
  all: cbn -[Server.leave Server.enter In];
    split; [reflexivity|]; split; [reflexivity|].
  - split; [|discriminate]. intros H. exfalso. revert H. apply Honce.
  - split; [|discriminate]. intros H. exfalso. revert H. apply Honce.
  - split; [|discriminate]. intros H. exfalso. revert H. apply Honce.
  - split; [reflexivity|]. intros _. apply in_or_app. right. by left.
Qed.

Lemma thread_left_iff_late_append_witness :
  exists st,
    Dispatcher.run 7 1
      [Dispatcher.Main; Dispatcher.Worker; Dispatcher.Worker; Dispatcher.Worker;
       Dispatcher.Main]
      (Dispatcher.accepted
         {| Server.client_threads := []; Server.client_connections := [] |}
         [] Scenario.hello_server_socket) = Some st
    /\ length [Dispatcher.Main; Dispatcher.Worker; Dispatcher.Worker; Dispatcher.Worker;
               Dispatcher.Main] = 5
    /\ Net.closed (Dispatcher.sock st) = true
    /\ (In 1 (Server.client_threads (Dispatcher.registries st))
        <-> [Dispatcher.Main; Dispatcher.Worker; Dispatcher.Worker; Dispatcher.Worker;
             Dispatcher.Main]
            = [Dispatcher.Main; Dispatcher.Worker; Dispatcher.Worker;
               Dispatcher.Worker; Dispatcher.Main]).
Proof.
  eexists. split; [vm_compute; reflexivity|].
  apply (thread_left_iff_late_append 7 1 [] Scenario.hello_server_socket
           {| Server.client_threads := []; Server.client_connections := [] |}
           _ _ Server.Completed).
  - intros [].
  - vm_compute. reflexivity.
  - reflexivity.
  - reflexivity.
Defined.

(** ** Messages that arrive coalesced *)

(** A read of [length a] bytes from a head segment that starts with [a]
    returns [a] and leaves the rest of the segment at the head. *)
Lemma recv_pending (a b : bytes) r s :
  a <> [] ->
  Net.rx s = pending (a ++ b) r ->
  Net.recv (length a) s = (Ok a, Net.set_rx (pending b r) s).
Proof.
  intros Ha Hrx. destruct a as [|x a]; [done|]. cbn [app pending] in Hrx.
  destruct b as [|y b].
  - rewrite app_nil_r in Hrx. by apply recv_seg.
  - rewrite (recv_seg_more _ s ((x :: a) ++ y :: b) r).
    + by rewrite take_app_length, drop_app_length.
    + done.
    + rewrite length_app. cbn. lia.
Qed.

Lemma recv_text_data_pending (payload b : bytes) r fl s fuel :
  Forall (eq true) fl ->
  Net.rx s = pending (payload ++ b) r ->
  length payload <= fuel ->
  exists fl',
    Server.recv_text_data fuel (length payload) [] fl s
      = Some (Ok payload, fl', Net.set_rx (pending b r) s)
    /\ Forall (eq true) fl'.
Proof.
  intros Hfl Hrx Hfuel. destruct payload as [|x payload].
  - exists fl. split; [|done]. cbn [app] in Hrx.
    destruct fuel; cbn [Server.recv_text_data length]; by rewrite <- Hrx, set_rx_rx.
  - destruct fuel as [|fuel]; [cbn in Hfuel; lia|].
    cbn [Server.recv_text_data].
    change (length (@nil byte) <? length (x :: payload)) with true. cbn iota.
    destruct (read_flag_true fl Hfl) as (fl1 & -> & Hfl1).
    change (length (x :: payload) - length (@nil byte)) with (length (x :: payload)).
    rewrite (recv_pending (x :: payload) b r s) by done.
    exists fl1. split; [|done]. cbn [app].
    destruct fuel; cbn [Server.recv_text_data]; by rewrite Nat.ltb_irrefl.
Qed.

Lemma serve_block_pending payload b r fl s :
  carriable payload ->
  Net.rx s = pending (Wire.Request payload ++ b) r ->
  Forall (eq true) fl -> Forall (eq None) (Net.tx s) ->
  exists fl' s',
    Server.serve_block fl s = Some (Server.Next, fl', s')
    /\ Net.rx s' = pending b r
    /\ Net.sent s' = Net.sent s ++ [answer_to payload]
    /\ Forall (eq true) fl' /\ Forall (eq None) (Net.tx s')
    /\ Net.closed s' = Net.closed s.
Proof.
  intros [Ha Hl] Hrx Hfl Htx.
  set (header := Wire.be16 REVERSE_REQUEST ++ Wire.be32 (N.of_nat (length payload))).
  assert (Hrx0 : Net.rx s = pending (header ++ payload ++ b) r).
  { rewrite Hrx. unfold Wire.Request, Wire.frame, header. by rewrite <- !app_assoc. }
  pose proof (recv_pending header (payload ++ b) r s ltac:(done) Hrx0) as Hrecv.
  change (length header) with 6 in Hrecv.
  destruct (read_flag_true fl Hfl) as (fl1 & Hflag & Hfl1).
  unfold Server.serve_block. rewrite Hflag, Hrecv.
  change (length header <? 6) with false. cbn iota.
  change (slice header 2 6) with (Wire.be32 (N.of_nat (length payload))).
  rewrite unpack_I_be32 by done. rewrite Nat2N.id.
  destruct (recv_text_data_pending payload b r fl1
              (Net.set_rx (pending (payload ++ b) r) s) (length payload))
    as (fl2 & Hbody & Hfl2); [done|done|done|].
  rewrite Hbody. rewrite Nat.ltb_irrefl.
  change (header ++ payload) with (Wire.Request payload).
  rewrite server_parse_request by done.
  cbn [is_type N.eqb REVERSE_REQUEST Pos.eqb negb Server.reverse_text].
  rewrite (proj2 (decode_ascii_bytes payload Ha)). cbn [bind].
  rewrite server_create_answer by (by rewrite length_rev).
  destruct (send_accepted (Wire.Answer (rev payload))
              (Net.set_rx (pending b r) (Net.set_rx (pending (payload ++ b) r) s)))
    as (s3 & Hsend & Hrx3 & Hsent3 & Htx3 & Hclosed3); [done|].
  rewrite Hsend. exists fl2, s3. split; [done|].
  cbn [Net.set_rx Net.rx Net.sent Net.closed Net.tx] in Hrx3, Hsent3, Hclosed3.
  repeat split; try done.
Qed.

Lemma serve_blocks_pending payloads :
  forall m block_index b r fl s,
    Forall carriable payloads ->
    Net.rx s = pending (concat (map Wire.Request payloads) ++ b) r ->
    Forall (eq true) fl -> Forall (eq None) (Net.tx s) ->
    exists fl' s',
      Server.serve_blocks (length payloads + m) block_index fl s
        = Server.serve_blocks m (block_index + length payloads) fl' s'
      /\ Net.rx s' = pending b r
      /\ Net.sent s' = Net.sent s ++ map answer_to payloads
      /\ Net.closed s' = Net.closed s
      /\ Forall (eq true) fl' /\ Forall (eq None) (Net.tx s').
Proof.
  induction payloads as [|payload payloads IH]; intros m i b r fl s Hok Hrx Hfl Htx.
  - exists fl, s. cbn [length map concat app Nat.add] in *.
    rewrite Nat.add_0_r, app_nil_r. done.
  - inversion Hok as [|? ? Hp Hok']; subst.
    cbn [map concat] in Hrx. rewrite <- app_assoc in Hrx.
    destruct (serve_block_pending payload _ r fl s Hp Hrx Hfl Htx)
      as (fl1 & s1 & Hstep & Hrx1 & Hsent1 & Hfl1 & Htx1 & Hclosed1).
    destruct (IH m (S i) b r fl1 s1 Hok' Hrx1 Hfl1 Htx1)
      as (fl' & s' & Hrun & Hrx' & Hsent' & Hclosed' & Hfl' & Htx').
    exists fl', s'. cbn [length Nat.add Server.serve_blocks]. rewrite Hstep, Hrun.
    replace (i + S (length payloads)) with (S i + length payloads) by lia.
    cbn [map]. rewrite Hsent', Hsent1, <- app_assoc.
    split; [done|]. split; [done|]. split; [done|]. split; [congruence|done].
Qed.

(** X14.  The server reads its messages off the byte stream: when the
    Init and all the Requests it announces arrive coalesced in one
    segment, followed by anything, the session (flag set, sends accepted)
    still answers every Request in order, completes with all [n] blocks
    served, and leaves unread what follows the last Request. *)
Theorem session_serves_coalesced (n : N) (payloads : list bytes) (b : bytes)
    (r : list Net.rx_event) (fl : list bool) (s : Net.socket) :
  (n < 4294967296)%N ->
  N.to_nat n = length payloads ->
  Forall carriable payloads ->
  Net.rx s = Net.Seg (Wire.Init n ++ concat (map Wire.Request payloads) ++ b) :: r ->
  Forall (eq true) fl ->
  Forall (eq None) (Net.tx s) ->
  exists fl' s',
    Server.session fl s = Some (Server.Completed, length payloads, fl', s')
    /\ Net.sent s' = Net.sent s ++ Wire.Agree :: map answer_to payloads
    /\ Net.rx s' = pending b r
    /\ Net.closed s' = Net.closed s.
Proof.
  intros Hn Hcount Hok Hrx Hfl Htx.
  assert (Hrx0 : Net.rx s
                 = pending (Wire.Init n ++ concat (map Wire.Request payloads) ++ b) r)
    by exact Hrx.
  pose proof (recv_pending (Wire.Init n) _ r s ltac:(done) Hrx0) as Hrecv.
  change (length (Wire.Init n)) with 6 in Hrecv.
  unfold Server.session. rewrite Hrecv.
  change (length (Wire.Init n) <? 6) with false. cbn iota.
  unfold Wire.Init at 1.
  rewrite server_parse_frame by (done || unfold INITIALIZATION; lia).
  cbn [N.eqb INITIALIZATION Pos.eqb is_type negb].
  rewrite server_create_agree.
  destruct (send_accepted Wire.Agree
              (Net.set_rx (pending (concat (map Wire.Request payloads) ++ b) r) s))
    as (s1 & Hsend & Hrx1 & Hsent1 & Htx1 & Hclosed1); [done|].
  rewrite Hsend.
  cbn [Net.set_rx Net.rx Net.sent Net.closed Net.tx] in Hrx1, Hsent1, Hclosed1.
  destruct (serve_blocks_pending payloads 0 0 b r fl s1 Hok Hrx1 Hfl Htx1)
    as (fl' & s' & Hrun & Hrx' & Hsent' & Hclosed' & _).
  rewrite Nat.add_0_r in Hrun. rewrite Hcount, Hrun.
  exists fl', s'. cbn [Server.serve_blocks Nat.add].
  split; [done|]. split; [by rewrite Hsent', Hsent1, <- app_assoc|].
  split; [done|congruence].
Qed.

Lemma session_serves_coalesced_witness :
  exists fl' s',
    Server.session []
      (Net.fresh
         [Net.Seg (Wire.Init 3 ++ concat (map Wire.Request Scenario.payloads) ++ [])] [])
      = Some (Server.Completed, length Scenario.payloads, fl', s')
    /\ Net.sent s' = [] ++ Wire.Agree :: map answer_to Scenario.payloads
    /\ Net.rx s' = pending [] []
    /\ Net.closed s' = false.
Proof.
  apply (session_serves_coalesced 3 Scenario.payloads [] [] []
           (Net.fresh
              [Net.Seg (Wire.Init 3 ++ concat (map Wire.Request Scenario.payloads) ++ [])]
              [])).
  - reflexivity.
  - reflexivity.
  - repeat constructor.
  - reflexivity.
  - constructor.
  - constructor.
Defined.

Lemma recv_reversed_data_pending (payload b : bytes) r s fuel :
  Net.rx s = pending (payload ++ b) r ->
  length payload <= fuel ->
  Client.recv_reversed_data fuel (length payload) [] s
    = Some (Ok payload, Net.set_rx (pending b r) s).
Proof.
  intros Hrx Hfuel. destruct payload as [|x payload].
  - cbn [app] in Hrx.
    destruct fuel; cbn [Client.recv_reversed_data length]; by rewrite <- Hrx, set_rx_rx.
  - destruct fuel as [|fuel]; [cbn in Hfuel; lia|].
    cbn [Client.recv_reversed_data].
    change (length (@nil byte) <? length (x :: payload)) with true. cbn iota.
    change (length (x :: payload) - length (@nil byte)) with (length (x :: payload)).
    rewrite (recv_pending (x :: payload) b r s) by done.
    cbn [app].
    destruct fuel; cbn [Client.recv_reversed_data]; by rewrite Nat.ltb_irrefl.
Qed.

Lemma exchange_pending i block payload b r reversed_blocks s :
  sendable block ->
  carriable payload ->
  i < length reversed_blocks ->
  Net.rx s = pending (Wire.Answer payload ++ b) r ->
  Forall (eq None) (Net.tx s) ->
  exists s',
    Client.exchange i block reversed_blocks s
      = Some (Continue, <[i:=VStr (map Byte.to_N payload)]> reversed_blocks, s')
    /\ Net.rx s' = pending b r
    /\ Net.sent s' = Net.sent s ++ [request_of block]
    /\ Forall (eq None) (Net.tx s')
    /\ Net.closed s' = Net.closed s.
Proof.
  intros [Ha Hl] [Hpa Hpl] Hi Hrx Htx.
  set (header := Wire.be16 REVERSE_ANSWER ++ Wire.be32 (N.of_nat (length payload))).
  destruct (send_accepted (Wire.Request (map Struct.byte_of_N block)) s Htx)
    as (s1 & Hsend & Hrx1 & Hsent1 & Htx1 & Hclosed1).
  assert (Hrx0 : Net.rx s1 = pending (header ++ payload ++ b) r).
  { rewrite Hrx1, Hrx. unfold Wire.Answer, Wire.frame, header. by rewrite <- !app_assoc. }
  pose proof (recv_pending header (payload ++ b) r s1 ltac:(done) Hrx0) as Hrecv.
  change (length header) with 6 in Hrecv.
  unfold Client.exchange. rewrite encode_ascii by done. cbn [bind].
  rewrite client_create_request by (by rewrite length_map).
  unfold Net.sendall. rewrite Hsend, Hrecv.
  change (length header <? 6) with false. cbn iota.
  change (slice header 2 6) with (Wire.be32 (N.of_nat (length payload))).
  rewrite unpack_I_be32 by done. rewrite Nat2N.id.
  rewrite (recv_reversed_data_pending payload b r
             (Net.set_rx (pending (payload ++ b) r) s1) (length payload)) by done.
  rewrite Nat.ltb_irrefl.
  change (header ++ payload) with (Wire.Answer payload).
  rewrite client_parse_answer by done.
  cbn [is_type N.eqb REVERSE_ANSWER Pos.eqb negb]. unfold Client.setitem.
  rewrite (proj2 (Nat.ltb_lt _ _) Hi).
  eexists. split; [reflexivity|].
  cbn [Net.set_rx Net.rx Net.sent Net.closed Net.tx].
  split; [done|]. split; [done|]. split; [done|done].
Qed.

Lemma chunk_loop_pending blocks :
  forall payloads i done b r s,
    Forall sendable blocks ->
    Forall carriable payloads ->
    length payloads = length blocks ->
    Net.rx s = pending (concat (map Wire.Answer payloads) ++ b) r ->
    Forall (eq None) (Net.tx s) ->
    length done = i ->
    exists s',
      Client.chunk_loop i blocks (done ++ replicate (length blocks) VNone) s
        = Some (Continue, done ++ map VStr (map (map Byte.to_N) payloads), s')
      /\ Net.rx s' = pending b r
      /\ Net.sent s' = Net.sent s ++ map request_of blocks
      /\ Net.closed s' = Net.closed s.
Proof.
  induction blocks as [|block blocks IH];
    intros [|payload payloads] i done b r s Hok Hpay Hlen Hrx Htx Hi;
    try discriminate Hlen; subst i.
  - exists s. cbn. rewrite !app_nil_r. done.
  - inversion Hok as [|? ? Hb Hok']; subst.
    inversion Hpay as [|? ? Hp Hpay']; subst.
    cbn [map concat] in Hrx. rewrite <- app_assoc in Hrx.
    destruct (exchange_pending (length done) block payload
                (concat (map Wire.Answer payloads) ++ b) r
                (done ++ replicate (length (block :: blocks)) VNone) s Hb Hp)
      as (s1 & Hstep & Hrx1 & Hsent1 & Htx1 & Hclosed1); try done.
    { rewrite length_app, length_replicate. cbn. lia. }
    cbn [Client.chunk_loop]. rewrite Hstep.
    rewrite insert_app_r_alt by lia. rewrite Nat.sub_diag.
    cbn [length replicate]. cbn [insert list_insert].
    change (done ++ VStr (map Byte.to_N payload) :: replicate (length blocks) VNone)
      with (done ++ [VStr (map Byte.to_N payload)] ++ replicate (length blocks) VNone).
    rewrite app_assoc.
    destruct (IH payloads (S (length done)) (done ++ [VStr (map Byte.to_N payload)])
                b r s1)
      as (s' & Hrun & Hrx' & Hsent' & Hclosed'); try done.
    { cbn [length] in Hlen. lia. }
    { rewrite length_app. cbn. lia. }
    exists s'. rewrite Hrun, Hsent', Hsent1. cbn [map]. rewrite <- !app_assoc.
    split; [done|]. split; [done|]. split; [done|congruence].
Qed.

(** X15.  The client reads its messages off the byte stream: when the
    Agree and one Answer per block arrive coalesced in one segment,
    followed by anything, a run whose sends are accepted sends the Init
    and the Request of every block, and writes the payloads of the Answers
    in order, whatever they are, leaving unread what follows the last
    Answer. *)
Theorem main_reads_coalesced (draws : nat -> nat) (a : Client.args) (content : str)
    (blocks : list str) (payloads : list bytes) (b : bytes)
    (r : list Net.rx_event) (s : Net.socket) :
  valid_args a content ->
  (N.of_nat (length content) < 4294967296)%N ->
  Client.split draws content (Z.to_nat (Client.Lmin a)) (Z.to_nat (Client.Lmax a))
    = Some blocks ->
  length payloads = length blocks ->
  Forall carriable payloads ->
  Net.rx s = Net.Seg (Wire.Agree ++ concat (map Wire.Answer payloads) ++ b) :: r ->
  Forall (eq None) (Net.tx s) ->
  exists s',
    Client.main draws a None s
      = Some (Client.Returned (Some (concat (map (map Byte.to_N) payloads))), s')
    /\ Net.sent s'
       = Net.sent s ++ Wire.Init (N.of_nat (length blocks)) :: map request_of blocks
    /\ Net.rx s' = pending b r
    /\ Net.closed s' = true.
Proof.
  intros Hvalid Hlen Hsplit Hcount Hpay Hrx Htx.
  destruct (main_valid draws a content None s Hvalid) as (blocks' & Hsplit' & ->).
  assert (blocks' = blocks) as -> by congruence.
  destruct Hvalid as (_ & Hl & _ & Hprint).
  destruct (split_facts draws content (Z.to_nat (Client.Lmin a)) (Z.to_nat (Client.Lmax a))
              blocks) as [Hcat Hne]; [lia|done|].
  pose proof (length_concat_nonempty blocks Hne) as Hn. rewrite Hcat in Hn.
  assert (Hsend : Forall sendable blocks) by (apply blocks_sendable; by rewrite Hcat).
  set (n := N.of_nat (length blocks)) in *.
  assert (Hfit : (n < 4294967296)%N).
  { unfold n. change (@length str blocks) with (@length (list N) blocks). lia. }
  unfold Client.converse. fold n. rewrite client_create_init by done.
  destruct (send_accepted (Wire.Init n) s Htx)
    as (s1 & Hsend1 & Hrx1 & Hsent1 & Htx1 & Hclosed1).
  unfold Net.sendall. rewrite Hsend1.
  assert (Hrx0 : Net.rx s1 = pending (Wire.Agree ++ concat (map Wire.Answer payloads) ++ b) r)
    by (rewrite Hrx1; exact Hrx).
  pose proof (recv_pending Wire.Agree _ r s1 ltac:(done) Hrx0) as Hrecv.
  change (length Wire.Agree) with 2 in Hrecv. rewrite Hrecv.
  change (length Wire.Agree <? 2) with false. cbn iota.
  rewrite client_parse_agree. cbn [is_type AGREE N.eqb Pos.eqb negb].
  destruct (chunk_loop_pending blocks payloads 0 [] b r
              (Net.set_rx (pending (concat (map Wire.Answer payloads) ++ b) r) s1))
    as (s3 & Hloop & Hrx3 & Hsent3 & Hclosed3); try done.
  cbn [app] in Hloop. rewrite Hloop.
  rewrite <- (app_nil_r (map VStr _)).
  change (@nil value) with (replicate 0 VNone) at 1.
  rewrite forallb_results. cbn [replicate]. rewrite app_nil_r, write_blocks_results.
  exists (Net.close s3). split; [done|].
  cbn [Net.close Net.sent Net.rx Net.closed].
  cbn [Net.set_rx Net.sent] in Hsent3.
  split; [by rewrite Hsent3, Hsent1, <- app_assoc|]. split; [done|done].
Qed.

Lemma main_reads_coalesced_witness :
  exists s',
    Client.main (fun _ => 0) (Scenario.args_5_5 Scenario.hello_world) None
      (Net.fresh [Net.Seg (Wire.Agree
                             ++ concat (map Wire.Answer (map (@rev byte) Scenario.payloads))
                             ++ [])] [])
      = Some (Client.Returned
                (Some (concat (map (map Byte.to_N) (map (@rev byte) Scenario.payloads)))),
              s')
    /\ Net.sent s'
       = [] ++ Wire.Init (N.of_nat (length Scenario.hello_blocks))
           :: map request_of Scenario.hello_blocks
    /\ Net.rx s' = pending [] []
    /\ Net.closed s' = true.
Proof.
  apply (main_reads_coalesced (fun _ => 0) (Scenario.args_5_5 Scenario.hello_world)
           Scenario.hello_world Scenario.hello_blocks
           (map (@rev byte) Scenario.payloads) [] []
           (Net.fresh [Net.Seg (Wire.Agree
                                  ++ concat (map Wire.Answer
                                               (map (@rev byte) Scenario.payloads))
                                  ++ [])] [])).
  - repeat split; vm_compute; congruence.
  - vm_compute. reflexivity.
  - reflexivity.
  - reflexivity.
  - repeat constructor.
  - reflexivity.
  - constructor.
Defined.

(** ** Messages the receiver rejects *)








